(** * lol-api-proxy: the two serverless handlers, embedded and verified

    - [api/summoner/[...params].js]: Riot ID -> account -> (optional) summoner
    - [api/rank/[puuid].js]: PUUID -> summoner -> league entries -> summary

    The handlers are JavaScript [async] functions.  They are embedded as
    functions into a small monad that records every [fetch] and carries
    thrown errors, so that the [try]/[catch] of each handler can be
    modelled as written.  JavaScript numbers are IEEE-754 doubles
    (primitive floats); strings are byte strings holding UTF-8.  A lookup
    in an object literal follows the prototype chain, [fetch] parses its
    URL before anything is sent, and reading a response body ([text()],
    [json()]) can fail. *)

From Stdlib Require Import ZArith NArith PArith QArith Qabs Qpower Floats.
From Stdlib Require Import List String Ascii Bool Lia Lqa.
From Stdlib Require Import Permutation.
Import ListNotations.
Open Scope string_scope.
Open Scope Z_scope.
Set Warnings "-register-all".

(** ** The fragment of JavaScript the handlers use *)

Module JS.

(** A JavaScript number. *)
Definition number := float.

(** The number denoted by an integer literal or an integral JSON number:
    the double nearest to it. *)
Definition num_of_Z (z : Z) : number :=
  SF2Prim (binary_normalize prec emax z 0 false).

(** [Math.round]: the integer nearest to [x], ties towards +infinity;
    NaN, the infinities and the zeros are returned unchanged, and a
    negative argument that rounds to zero gives -0. *)
Definition Math_round (x : number) : number :=
  match Prim2SF x with
  | S754_finite s m e =>
      if 0 <=? e then x
      else
        let M := if s then Z.neg m else Z.pos m in
        let k := - e in
        let z := (2 * M + 2 ^ k) / 2 ^ (k + 1) in
        if z =? 0 then (if s then (-0)%float else 0%float)
        else num_of_Z z
  | _ => x
  end.

(** What handlers build and send: JavaScript values, objects as
    property lists in insertion order. *)
Inductive value : Type :=
| Undefined
| Null
| Bool (b : bool)
| Num (n : number)
| Str (s : string)
| Arr (items : list value)
| Obj (props : list (string * value)).

(** Own-property lookup in a property list: the keys written in the
    literal, and nothing else.  [None] stands for "no own property". *)
Fixpoint lookup {A : Type} (k : string) (props : list (string * A)) : option A :=
  match props with
  | [] => None
  | (k', v) :: rest => if String.eqb k k' then Some v else lookup k rest
  end.

(** The property names every object literal inherits from
    [Object.prototype]. *)
Definition Object_prototype : list string :=
  [ "constructor"; "__defineGetter__"; "__defineSetter__"; "hasOwnProperty";
    "__lookupGetter__"; "__lookupSetter__"; "isPrototypeOf"; "propertyIsEnumerable";
    "toString"; "valueOf"; "__proto__"; "toLocaleString" ].

(** What [table[k]] evaluates to for an object literal [table]: an own
    property, or a member inherited from [Object.prototype] (a function,
    or for [__proto__] the prototype object itself); [None] stands for
    [undefined]. *)
Inductive member (A : Type) : Type :=
| Own (v : A)
| Inherited (name : string).
Arguments Own {A} _.
Arguments Inherited {A} _.

Definition get {A : Type} (k : string) (props : list (string * A)) : option (member A) :=
  match lookup k props with
  | Some v => Some (Own v)
  | None =>
      if existsb (String.eqb k) Object_prototype then Some (Inherited k) else None
  end.

(** The string an inherited member is converted to: the prototype object
    prints as [[object Object]], a built-in function as its native-code
    text, with the name of the function ([Object] for [constructor]). *)
Definition member_text (name : string) : string :=
  if String.eqb name "__proto__" then "[object Object]"
  else "function " ++ (if String.eqb name "constructor" then "Object" else name)
       ++ "() { [native code] }".

(** [Object.keys] *)
Definition Object_keys {A : Type} (props : list (string * A)) : list string :=
  map fst props.

(** [v.k] for an object [v]. *)
Definition prop (k : string) (v : value) : option value :=
  match v with
  | Obj props => lookup k props
  | _ => None
  end.

(** A thrown [Error]. *)
Record Error : Type := mkError { name : string; message : string }.

(** Truthiness of a possibly [undefined] string: [undefined] and the
    empty string are falsy.  [truthy o] is the string when [o] is truthy. *)
Definition truthy (o : option string) : option string :=
  match o with
  | Some s => if String.eqb s "" then None else Some s
  | None => None
  end.

(** [o || d] for a possibly [undefined] string [o]. *)
Definition or_default (o : option string) (d : string) : string :=
  match o with
  | Some s => if String.eqb s "" then d else s
  | None => d
  end.

(** For [m = table[k]] in a table of strings: [None] when [m] is falsy
    ([undefined] or an empty string), and otherwise the text a template
    literal makes of [m].  An inherited member is an object, hence truthy. *)
Definition truthy_text (m : option (member string)) : option string :=
  match m with
  | Some (Own s) => if String.eqb s "" then None else Some s
  | Some (Inherited name) => Some (member_text name)
  | None => None
  end.

(** [x < y] on strings: by code units, a proper prefix being smaller. *)
Fixpoint string_lt (x y : string) : bool :=
  match x, y with
  | _, EmptyString => false
  | EmptyString, String _ _ => true
  | String a x', String b y' =>
      if (N_of_ascii a <? N_of_ascii b)%N then true
      else if (N_of_ascii b <? N_of_ascii a)%N then false
      else string_lt x' y'
  end.

(** *** URLs *)

(** The code points the URL Standard forbids in a domain: the C0 controls,
    space, DEL, and the characters number sign, percent, slash, colon,
    less-than, greater-than, question mark, at sign, the two square
    brackets, backslash, circumflex and vertical bar. *)
Definition forbidden_domain_code_point (c : ascii) : bool :=
  let n := N_of_ascii c in
  (n <=? 32)%N || (n =? 127)%N
  || existsb (N.eqb n) [35; 37; 47; 58; 60; 62; 63; 64; 91; 92; 93; 94; 124]%N.

Fixpoint drop (n : nat) (s : string) : string :=
  match n, s with
  | O, _ => s
  | S n', String _ rest => drop n' rest
  | S _, EmptyString => EmptyString
  end.

(** The text up to the first [/]. *)
Fixpoint until_slash (s : string) : string :=
  match s with
  | EmptyString => EmptyString
  | String c rest =>
      if Ascii.eqb c "/"%char then EmptyString else String c (until_slash rest)
  end.

(** The host of a URL [https://host/path]. *)
Definition host_of (url : string) : string := until_slash (drop 8 url).

(** Whether a URL of the handlers parses.  Every URL they build is
    [https://], a host, [/] and a path; the host is an entry of a table
    or the text of an inherited member, so it has neither credentials nor
    a port, and it is ASCII without tabs or newlines.  For such a URL
    parsing can only fail in the host, and it does exactly when the host
    holds a forbidden code point. *)
Definition URL_parses (url : string) : bool :=
  String.prefix "https://" url
  && negb (existsb forbidden_domain_code_point (list_ascii_of_string (host_of url))).

(** *** Percent-encoding *)

Definition hex_value (c : ascii) : option N :=
  let n := N_of_ascii c in
  if (48 <=? n)%N && (n <=? 57)%N then Some (n - 48)%N
  else if (65 <=? n)%N && (n <=? 70)%N then Some (n - 55)%N
  else if (97 <=? n)%N && (n <=? 102)%N then Some (n - 87)%N
  else None.

Definition percent : ascii := "%"%char.

(** One unit of a decoded component: a byte, and whether it was written
    as an escape [%XX]. *)
Definition unit : Type := (bool * N)%type.

(** First pass of [decodeURIComponent]: split the text into literal
    characters and escapes; [None] when a [%] is not followed by two
    hexadecimal digits. *)
Fixpoint unescape (s : string) : option (list unit) :=
  match s with
  | EmptyString => Some []
  | String c rest =>
      if Ascii.eqb c percent then
        match rest with
        | String h1 (String h2 rest') =>
            match hex_value h1, hex_value h2 with
            | Some a, Some b =>
                option_map (cons (true, (16 * a + b)%N)) (unescape rest')
            | _, _ => None
            end
        | _ => None
        end
      else option_map (cons (false, N_of_ascii c)) (unescape rest)
  end.

Definition between (lo hi b : N) : bool := ((lo <=? b) && (b <=? hi))%N.

(** An escaped continuation octet within the given bounds. *)
Definition cont (lo hi : N) (u : unit) : bool := fst u && between lo hi (snd u).

(** Second pass: every escaped octet with its high bit set must start a
    well-formed UTF-8 sequence written entirely with escapes. *)
Fixpoint utf8_ok (us : list unit) : bool :=
  match us with
  | [] => true
  | (false, _) :: rest => utf8_ok rest
  | (true, b) :: rest =>
      if (b <? 128)%N then utf8_ok rest
      else if between 194 223 b then
        match rest with
        | u1 :: rest' => cont 128 191 u1 && utf8_ok rest'
        | _ => false
        end
      else if between 224 239 b then
        match rest with
        | u1 :: u2 :: rest' =>
            cont (if (b =? 224)%N then 160 else 128)
                 (if (b =? 237)%N then 159 else 191) u1
            && cont 128 191 u2 && utf8_ok rest'
        | _ => false
        end
      else if between 240 244 b then
        match rest with
        | u1 :: u2 :: u3 :: rest' =>
            cont (if (b =? 240)%N then 144 else 128)
                 (if (b =? 244)%N then 143 else 191) u1
            && cont 128 191 u2 && cont 128 191 u3 && utf8_ok rest'
        | _ => false
        end
      else false
  end.

Definition string_of_bytes (bs : list N) : string :=
  fold_right (fun b s => String (ascii_of_N b) s) EmptyString bs.

Definition URIError : Error := mkError "URIError" "URI malformed".

(** [decodeURIComponent]: the decoded text, or the [URIError] thrown. *)
Definition decodeURIComponent (s : string) : Error + string :=
  match unescape s with
  | Some us =>
      if utf8_ok us then inr (string_of_bytes (map snd us)) else inl URIError
  | None => inl URIError
  end.

Definition hex_digit (n : N) : ascii :=
  ascii_of_N (if (n <? 10)%N then n + 48 else n + 55)%N.

(** Characters [encodeURIComponent] leaves alone: letters, digits and
    [- _ . ! ~ * ' ( )]. *)
Definition unreserved (c : ascii) : bool :=
  let n := N_of_ascii c in
  between 48 57 n || between 65 90 n || between 97 122 n
  || existsb (N.eqb n) [45; 95; 46; 33; 126; 42; 39; 40; 41]%N.

(** [encodeURIComponent] *)
Fixpoint encodeURIComponent (s : string) : string :=
  match s with
  | EmptyString => EmptyString
  | String c rest =>
      if unreserved c then String c (encodeURIComponent rest)
      else
        let n := N_of_ascii c in
        String percent
          (String (hex_digit (n / 16)) (String (hex_digit (n mod 16))
             (encodeURIComponent rest)))
  end.

End JS.


(** ** The vendor API as the handlers see it *)

Module Riot.

Import JS.

(** Bodies of the three endpoint families, at the types the vendor
    documents.  Fields the handlers default with [||] are optional. *)
Record AccountDTO : Type := {
  acc_puuid : string;
  acc_gameName : string;
  acc_tagLine : string
}.

Record SummonerDTO : Type := {
  id : string;
  accountId : string;
  summonerLevel : number;
  profileIconId : number;
  revisionDate : number
}.

Record MiniSeriesDTO : Type := {
  ms_losses : number;
  ms_progress : string;
  ms_target : number;
  ms_wins : number
}.

Record LeagueEntryDTO : Type := {
  e_queueType : string;
  e_tier : option string;
  e_rank : option string;
  e_leaguePoints : number;
  e_wins : number;
  e_losses : number;
  e_veteran : option bool;
  e_inactive : option bool;
  e_freshBlood : option bool;
  e_hotStreak : option bool;
  e_leagueName : option string;
  e_miniSeries : option MiniSeriesDTO
}.

(** The argument of one [fetch]. *)
Record Call : Type := { url : string; headers : list (string * string) }.

(** A [Response]: the status, what [text()] resolves to (or rejects
    with, when the body cannot be read), and what [json()] resolves to (or
    rejects with, when the body cannot be read or is not JSON). *)
Record Response (T : Type) : Type := {
  status : Z;
  text : Error + string;
  json : Error + T
}.
Arguments status {T} _.
Arguments text {T} _.
Arguments json {T} _.

(** [response.ok] *)
Definition ok {T : Type} (r : Response T) : bool :=
  (200 <=? status r) && (status r <=? 299).

(** [fetch] either rejects (network failure) or resolves to a response. *)
Inductive Fetched (T : Type) : Type :=
| Rejected (e : Error)
| Resolved (r : Response T).
Arguments Rejected {T} _.
Arguments Resolved {T} _.

(** The world [fetch] talks to: what each endpoint family answers to a
    call, and the message of the [TypeError] the runtime rejects with when
    a URL does not parse (its wording is the runtime's own). *)
Record Upstream : Type := {
  account_by_riot_id : Call -> Fetched AccountDTO;
  summoner_by_puuid : Call -> Fetched SummonerDTO;
  entries_by_summoner : Call -> Fetched (list LeagueEntryDTO);
  url_error : string -> string
}.

(** What [fetch] settles with for a call of one endpoint family: the URL
    is parsed first, and a URL that does not parse is rejected with a
    [TypeError] before anything is sent. *)
Definition answer {T : Type} (up : Upstream) (api : Upstream -> Call -> Fetched T)
    (c : Call) : Fetched T :=
  if URL_parses (url c) then api up c
  else Rejected (mkError "TypeError" (url_error up (url c))).

(** [process.env] *)
Record Env : Type := { RIOT_API_KEY : option string }.

End Riot.

(** ** Handler computations: fetches performed, and a result or a throw *)

Module Flow.

Import JS Riot.

Definition Flow (A : Type) : Type := (list Call * (Error + A))%type.

Definition ret {A : Type} (a : A) : Flow A := ([], inr a).

Definition throw {A : Type} (e : Error) : Flow A := ([], inl e).

Definition bind {A B : Type} (m : Flow A) (f : A -> Flow B) : Flow B :=
  match m with
  | (calls, inl e) => (calls, inl e)
  | (calls, inr a) => let (calls', r) := f a in ((calls ++ calls')%list, r)
  end.

(** A synchronous step that may throw. *)
Definition lift {A : Type} (r : Error + A) : Flow A := ([], r).

(** [await fetch(url, { headers })], settled by [api]; the invocation is
    recorded whatever its outcome. *)
Definition fetch {T : Type} (api : Call -> Fetched T) (c : Call) : Flow (Response T) :=
  ([c], match api c with
        | Rejected e => inl e
        | Resolved r => inr r
        end).

(** What the handler has sent when it returns: [res.status(s).end()] or
    [res.status(s).json(body)]. *)
Record Reply : Type := { code : Z; body : option value }.

Definition send_end (s : Z) : Reply := {| code := s; body := None |}.
Definition send_json (s : Z) (v : value) : Reply := {| code := s; body := Some v |}.

(** [try { m } catch (error) { h error }] *)
Definition try_catch (m : Flow Reply) (h : Error -> Reply) : list Call * Reply :=
  match m with
  | (calls, inl e) => (calls, h e)
  | (calls, inr r) => (calls, r)
  end.

(** The headers both handlers attach to every call. *)
Definition riot_headers (apiKey : string) : list (string * string) :=
  [("X-Riot-Token", apiKey); ("User-Agent", "lol-api-proxy/1.0")].

End Flow.

Declare Scope flow_scope.
Delimit Scope flow_scope with flow.
Notation "x <- m ;; k" := (Flow.bind m (fun x => k))
  (at level 61, m at next level, right associativity) : flow_scope.

(** ** [api/summoner/[...params].js] *)

Module Summoner.

Import JS Riot Flow.
Local Open Scope flow_scope.

(** [req.method] and the parts of [req.query] the handler reads. *)
Record Request : Type := {
  method : string;
  params : option (list string);
  region : option string;
  server : option string
}.

Definition regionEndpoints : list (string * string) :=
  [ ("americas", "americas.api.riotgames.com");
    ("asia", "asia.api.riotgames.com");
    ("europe", "europe.api.riotgames.com");
    ("sea", "sea.api.riotgames.com") ].

Definition serverEndpoints : list (string * string) :=
  [ ("kr", "kr.api.riotgames.com");
    ("jp1", "jp1.api.riotgames.com");
    ("na1", "na1.api.riotgames.com");
    ("br1", "br1.api.riotgames.com");
    ("lan", "lan.api.riotgames.com");
    ("las", "las.api.riotgames.com");
    ("oc1", "oc1.api.riotgames.com");
    ("euw1", "euw1.api.riotgames.com");
    ("eun1", "eun1.api.riotgames.com");
    ("tr1", "tr1.api.riotgames.com");
    ("ru", "ru.api.riotgames.com") ].

Definition bad_url_format : value :=
  Obj [ ("success", Bool false);
        ("error", Str "Invalid URL format. Expected: /api/summoner/{gameName}/{tagLine}");
        ("example", Str "/api/summoner/Hide%20on%20bush/KR1") ].

Definition not_found (gameName tagLine : string) : value :=
  Obj [ ("success", Bool false);
        ("error", Str "Summoner not found");
        ("message", Str ("No summoner found with Riot ID: " ++ gameName ++ "#" ++ tagLine));
        ("suggestions",
         Arr [ Str "Check the spelling of the game name";
               Str "Verify the tag line (e.g., KR1, NA1, EUW1)";
               Str "Make sure the account exists in the specified region" ]) ].

(** The fields spread into [data] when [summonerData] is not [null]. *)
Definition summoner_fields (summonerData : option SummonerDTO) : list (string * value) :=
  match summonerData with
  | Some d =>
      [ ("summonerId", Str (id d));
        ("accountId", Str (accountId d));
        ("summonerLevel", Num (summonerLevel d));
        ("profileIconId", Num (profileIconId d));
        ("revisionDate", Num (revisionDate d)) ]
  | None => []
  end.

Definition response (accountData : AccountDTO) (summonerData : option SummonerDTO)
    (region server now : string) : value :=
  Obj [ ("success", Bool true);
        ("data",
         Obj ([ ("puuid", Str (acc_puuid accountData));
                ("gameName", Str (acc_gameName accountData));
                ("tagLine", Str (acc_tagLine accountData)) ]
              ++ summoner_fields summonerData)%list);
        ("metadata",
         Obj [ ("region", Str region);
               ("server", Str server);
               ("timestamp", Str now) ]) ].

(** The body of the [try] block.  [now] is what
    [new Date().toISOString()] returns. *)
Definition attempt (env : Env) (up : Upstream) (now : string) (req : Request)
  : Flow Reply :=
  match params req with
  | None => ret (send_json 400 bad_url_format)
  | Some params =>
    if (List.length params <? 2)%nat then ret (send_json 400 bad_url_format)
    else
      let rawGameName := nth 0 params "" in
      let rawTagLine := nth 1 params "" in
      gameName <- lift (decodeURIComponent rawGameName) ;;
      tagLine <- lift (decodeURIComponent rawTagLine) ;;
      match truthy (RIOT_API_KEY env) with
      | None =>
          ret (send_json 500
                 (Obj [ ("success", Bool false);
                        ("error", Str "Server configuration error");
                        ("message", Str "API key not found") ]))
      | Some apiKey =>
        let region := or_default (region req) "asia" in
        match truthy_text (get region regionEndpoints) with
        | None =>
            ret (send_json 400
                   (Obj [ ("success", Bool false);
                          ("error", Str "Invalid region");
                          ("validRegions", Arr (map Str (Object_keys regionEndpoints))) ]))
        | Some endpoint =>
          let accountUrl :=
            "https://" ++ endpoint ++ "/riot/account/v1/accounts/by-riot-id/"
            ++ encodeURIComponent gameName ++ "/" ++ encodeURIComponent tagLine in
          accountResponse <-
            fetch (answer up account_by_riot_id)
                  {| url := accountUrl; headers := riot_headers apiKey |} ;;
          if negb (ok accountResponse) then
            if status accountResponse =? 404 then
              ret (send_json 404 (not_found gameName tagLine))
            else if status accountResponse =? 403 then
              ret (send_json 403
                     (Obj [ ("success", Bool false);
                            ("error", Str "API authentication failed");
                            ("message", Str "Invalid or expired API key") ]))
            else
              errorText <- lift (text accountResponse) ;;
              ret (send_json (status accountResponse)
                     (Obj [ ("success", Bool false);
                            ("error", Str "Riot API error");
                            ("status", Num (num_of_Z (status accountResponse)));
                            ("details", Str errorText) ]))
          else
            accountData <- lift (json accountResponse) ;;
            let server := or_default (server req) "kr" in
            summonerData <-
              match truthy_text (get server serverEndpoints) with
              | Some serverEndpoint =>
                  let summonerUrl :=
                    "https://" ++ serverEndpoint
                    ++ "/lol/summoner/v4/summoners/by-puuid/" ++ acc_puuid accountData in
                  summonerResponse <-
                    fetch (answer up summoner_by_puuid)
                          {| url := summonerUrl; headers := riot_headers apiKey |} ;;
                  if ok summonerResponse then
                    d <- lift (json summonerResponse) ;; ret (Some d)
                  else ret None
              | None => ret None
              end ;;
            ret (send_json 200 (response accountData summonerData region server now))
        end
      end
  end.

Definition internal_error (error : Error) : Reply :=
  send_json 500
    (Obj [ ("success", Bool false);
           ("error", Str "Internal server error");
           ("message", Str (message error)) ]).

Definition method_not_allowed : Reply :=
  send_json 405 (Obj [ ("success", Bool false); ("error", Str "Method not allowed") ]).

(** The handler: the fetches it performed and what it sent. *)
Definition handler (env : Env) (up : Upstream) (now : string) (req : Request)
  : list Call * Reply :=
  if String.eqb (method req) "OPTIONS" then ([], send_end 200)
  else if negb (String.eqb (method req) "GET") then ([], method_not_allowed)
  else try_catch (attempt env up now req) internal_error.

End Summoner.

(** ** [api/rank/[puuid].js] *)

Module Rank.

Import JS Riot Flow.
Local Open Scope flow_scope.

Record Request : Type := {
  method : string;
  puuid : option string;
  server : option string
}.

Definition serverEndpoints : list (string * string) :=
  [ ("kr", "kr.api.riotgames.com");
    ("jp1", "jp1.api.riotgames.com");
    ("na1", "na1.api.riotgames.com");
    ("br1", "br1.api.riotgames.com");
    ("lan", "lan.api.riotgames.com");
    ("las", "las.api.riotgames.com");
    ("oc1", "oc1.api.riotgames.com");
    ("euw1", "euw1.api.riotgames.com");
    ("eun1", "eun1.api.riotgames.com");
    ("tr1", "tr1.api.riotgames.com");
    ("ru", "ru.api.riotgames.com") ].

Definition tierValues : list (string * Z) :=
  [ ("IRON", 1); ("BRONZE", 2); ("SILVER", 3); ("GOLD", 4); ("PLATINUM", 5);
    ("EMERALD", 6); ("DIAMOND", 7); ("MASTER", 8); ("GRANDMASTER", 9);
    ("CHALLENGER", 10) ].

(** The property key an optional string is converted to. *)
Definition key_of (tier : option string) : string :=
  match tier with
  | Some t => t
  | None => "undefined"
  end.

(** What [getTierValue] returns: a number (the ordinals are small
    integers, kept in [Z]), or a member inherited from [Object.prototype],
    which is truthy and so passes [|| 0]. *)
Inductive tier_value : Type :=
| Ordinal (v : Z)
| Member (name : string).

(** [tierValues[tier] || 0] *)
Definition getTierValue (tier : option string) : tier_value :=
  match get (key_of tier) tierValues with
  | Some (Own v) => if v =? 0 then Ordinal 0 else Ordinal v
  | Some (Inherited name) => Member name
  | None => Ordinal 0
  end.

(** [a > b] on such values.  Two numbers are compared as numbers.  A
    member is first converted to its text; against a number the text is
    converted to a number, which gives NaN, and every comparison with NaN
    is false; two texts are compared as strings. *)
Definition greater (a b : tier_value) : bool :=
  match a, b with
  | Ordinal x, Ordinal y => x >? y
  | Member m, Member n => string_lt (member_text n) (member_text m)
  | _, _ => false
  end.

(** [Math.round((wins / (wins + losses)) * 100 * 100) / 100] *)
Definition winRate (wins losses : number) : number :=
  (Math_round ((wins / (wins + losses)) * 100 * 100) / 100)%float.

(** An element of [processedRanks]. *)
Record RankEntry : Type := {
  queueType : string;
  tier : option string;
  rank : option string;
  leaguePoints : number;
  wins : number;
  losses : number;
  entry_winRate : number;
  veteran : bool;
  inactive : bool;
  freshBlood : bool;
  hotStreak : bool;
  leagueName : option string;
  miniSeries : option MiniSeriesDTO
}.

(** [flag || false] *)
Definition or_false (flag : option bool) : bool :=
  match flag with
  | Some b => b
  | None => false
  end.

(** The callback of [rankData.map]. *)
Definition process (entry : LeagueEntryDTO) : RankEntry :=
  {| queueType := e_queueType entry;
     tier := e_tier entry;
     rank := e_rank entry;
     leaguePoints := e_leaguePoints entry;
     wins := e_wins entry;
     losses := e_losses entry;
     entry_winRate := winRate (e_wins entry) (e_losses entry);
     veteran := or_false (e_veteran entry);
     inactive := or_false (e_inactive entry);
     freshBlood := or_false (e_freshBlood entry);
     hotStreak := or_false (e_hotStreak entry);
     leagueName := truthy (e_leagueName entry);
     miniSeries := e_miniSeries entry |}.

(** The callback of [processedRanks.reduce]. *)
Definition higher (highest current : RankEntry) : RankEntry :=
  if greater (getTierValue (tier current)) (getTierValue (tier highest))
  then current else highest.

(** A possibly [undefined] string as a value. *)
Definition optional (o : option string) : value :=
  match o with
  | Some s => Str s
  | None => Undefined
  end.

(** A string or [null] as a value. *)
Definition nullable (o : option string) : value :=
  match o with
  | Some s => Str s
  | None => Null
  end.

Record RankSummary : Type := {
  totalRankedQueues : nat;
  highestTier : value
}.

(** [summary]: the length of [processedRanks], and, when it is not empty,
    the [tier] of the [reduce] (which starts from the first element and
    folds the others from left to right); [null] otherwise. *)
Definition summary (processedRanks : list RankEntry) : RankSummary :=
  {| totalRankedQueues := List.length processedRanks;
     highestTier :=
       match processedRanks with
       | first :: others => optional (tier (fold_left higher others first))
       | [] => Null
       end |}.

Definition value_of_miniSeries (m : option MiniSeriesDTO) : value :=
  match m with
  | Some m =>
      Obj [ ("losses", Num (ms_losses m)); ("progress", Str (ms_progress m));
            ("target", Num (ms_target m)); ("wins", Num (ms_wins m)) ]
  | None => Null
  end.

Definition value_of_rank (r : RankEntry) : value :=
  Obj [ ("queueType", Str (queueType r));
        ("tier", optional (tier r));
        ("rank", optional (rank r));
        ("leaguePoints", Num (leaguePoints r));
        ("wins", Num (wins r));
        ("losses", Num (losses r));
        ("winRate", Num (entry_winRate r));
        ("veteran", Bool (veteran r));
        ("inactive", Bool (inactive r));
        ("freshBlood", Bool (freshBlood r));
        ("hotStreak", Bool (hotStreak r));
        ("leagueName", nullable (leagueName r));
        ("miniSeries", value_of_miniSeries (miniSeries r)) ].

Definition value_of_summary (s : RankSummary) : value :=
  Obj [ ("totalRankedQueues", Num (num_of_Z (Z.of_nat (totalRankedQueues s))));
        ("highestTier", highestTier s) ].

Definition response (puuid : string) (summonerData : SummonerDTO)
    (processedRanks : list RankEntry) (server now : string) : value :=
  Obj [ ("success", Bool true);
        ("data",
         Obj [ ("puuid", Str puuid);
               ("summonerId", Str (id summonerData));
               ("summonerLevel", Num (summonerLevel summonerData));
               ("ranks", Arr (map value_of_rank processedRanks));
               ("summary", value_of_summary (summary processedRanks)) ]);
        ("metadata",
         Obj [ ("server", Str server); ("timestamp", Str now) ]) ].

(** The body of the [try] block. *)
Definition attempt (env : Env) (up : Upstream) (now : string) (req : Request)
  : Flow Reply :=
  match truthy (puuid req) with
  | None =>
      ret (send_json 400
             (Obj [ ("success", Bool false);
                    ("error", Str "PUUID is required");
                    ("example", Str "/api/rank/{puuid}?server=kr") ]))
  | Some puuid =>
    match truthy (RIOT_API_KEY env) with
    | None =>
        ret (send_json 500
               (Obj [ ("success", Bool false);
                      ("error", Str "API key not configured") ]))
    | Some apiKey =>
      let server := or_default (server req) "kr" in
      match truthy_text (get server serverEndpoints) with
      | None =>
          ret (send_json 400
                 (Obj [ ("success", Bool false);
                        ("error", Str "Invalid server");
                        ("validServers", Arr (map Str (Object_keys serverEndpoints))) ]))
      | Some endpoint =>
        let summonerUrl :=
          "https://" ++ endpoint ++ "/lol/summoner/v4/summoners/by-puuid/" ++ puuid in
        summonerResponse <-
          fetch (answer up summoner_by_puuid)
                {| url := summonerUrl; headers := riot_headers apiKey |} ;;
        if negb (ok summonerResponse) then
          if status summonerResponse =? 404 then
            ret (send_json 404
                   (Obj [ ("success", Bool false);
                          ("error", Str "Summoner not found on this server");
                          ("message",
                           Str ("No summoner found with PUUID on " ++ server ++ " server")) ]))
          else
            ret (send_json (status summonerResponse)
                   (Obj [ ("success", Bool false);
                          ("error", Str "Failed to get summoner info");
                          ("status", Num (num_of_Z (status summonerResponse))) ]))
        else
          summonerData <- lift (json summonerResponse) ;;
          let rankUrl :=
            "https://" ++ endpoint ++ "/lol/league/v4/entries/by-summoner/"
            ++ id summonerData in
          rankResponse <-
            fetch (answer up entries_by_summoner)
                  {| url := rankUrl; headers := riot_headers apiKey |} ;;
          if negb (ok rankResponse) then
            ret (send_json (status rankResponse)
                   (Obj [ ("success", Bool false);
                          ("error", Str "Failed to get rank info");
                          ("status", Num (num_of_Z (status rankResponse))) ]))
          else
            rankData <- lift (json rankResponse) ;;
            let processedRanks := map process rankData in
            ret (send_json 200 (response puuid summonerData processedRanks server now))
      end
    end
  end.

Definition internal_error (error : Error) : Reply :=
  send_json 500
    (Obj [ ("success", Bool false);
           ("error", Str "Internal server error");
           ("message", Str (message error)) ]).

Definition method_not_allowed : Reply :=
  send_json 405 (Obj [ ("success", Bool false); ("error", Str "Method not allowed") ]).

Definition handler (env : Env) (up : Upstream) (now : string) (req : Request)
  : list Call * Reply :=
  if String.eqb (method req) "OPTIONS" then ([], send_end 200)
  else if negb (String.eqb (method req) "GET") then ([], method_not_allowed)
  else try_catch (attempt env up now req) internal_error.

End Rank.

(** ** Reading what a handler sent *)

Module Sent.

Import JS Riot Flow.

(** The [success] and [error] properties of the JSON body. *)
Definition success (r : Reply) : option value :=
  match body r with
  | Some v => prop "success" v
  | None => None
  end.

Definition error (r : Reply) : option value :=
  match body r with
  | Some v => prop "error" v
  | None => None
  end.

(** A property of [data] in the body. *)
Definition data (k : string) (r : Reply) : option value :=
  match body r with
  | Some v =>
      match prop "data" v with
      | Some d => prop k d
      | None => None
      end
  | None => None
  end.

(** The names of the properties of [data], in order. *)
Definition data_keys (r : Reply) : list string :=
  match body r with
  | Some (Obj props) =>
      match lookup "data" props with
      | Some (Obj d) => Object_keys d
      | _ => []
      end
  | _ => []
  end.

(** Dropping the property [k] from a property list. *)
Definition remove (k : string) (props : list (string * value)) : list (string * value) :=
  filter (fun p => negb (String.eqb (fst p) k)) props.

(** The body without [metadata.timestamp]; everything else is kept. *)
Definition without_timestamp (v : value) : value :=
  match v with
  | Obj props =>
      Obj (map (fun p =>
                  match p with
                  | (k, Obj m) =>
                      if String.eqb k "metadata" then (k, Obj (remove "timestamp" m))
                      else p
                  | _ => p
                  end) props)
  | _ => v
  end.

Definition reply_without_timestamp (r : Reply) : Reply :=
  {| code := code r; body := option_map without_timestamp (body r) |}.

End Sent.

(** ** Requests that pass the checks made before the first call *)

Module Valid.

Import JS Riot Flow.

(** A GET request of the identity flow with two decodable path segments, a
    configured key and a recognised region (a key written in the table):
    [gameName] and [tagLine] are the decoded segments, [endpoint] the
    region's host. *)
Definition identity (env : Env) (req : Summoner.Request)
    (gameName tagLine apiKey endpoint : string) : Prop :=
  Summoner.method req = "GET"
  /\ (exists params,
        Summoner.params req = Some params
        /\ (2 <= List.length params)%nat
        /\ decodeURIComponent (nth 0 params "") = inr gameName
        /\ decodeURIComponent (nth 1 params "") = inr tagLine)
  /\ truthy (RIOT_API_KEY env) = Some apiKey
  /\ truthy (lookup (or_default (Summoner.region req) "asia") Summoner.regionEndpoints)
     = Some endpoint.

(** The account call such a request leads to. *)
Definition accountCall (gameName tagLine apiKey endpoint : string) : Call :=
  {| url := "https://" ++ endpoint ++ "/riot/account/v1/accounts/by-riot-id/"
            ++ encodeURIComponent gameName ++ "/" ++ encodeURIComponent tagLine;
     headers := riot_headers apiKey |}.

(** The summoner call of either flow. *)
Definition summonerCall (puuid apiKey endpoint : string) : Call :=
  {| url := "https://" ++ endpoint ++ "/lol/summoner/v4/summoners/by-puuid/" ++ puuid;
     headers := riot_headers apiKey |}.

(** The league-entries call of the rank flow. *)
Definition rankCall (summonerId apiKey endpoint : string) : Call :=
  {| url := "https://" ++ endpoint ++ "/lol/league/v4/entries/by-summoner/" ++ summonerId;
     headers := riot_headers apiKey |}.

(** A GET request of the rank flow with a PUUID, a configured key and a
    recognised server. *)
Definition rank (env : Env) (req : Rank.Request) (puuid apiKey endpoint : string) : Prop :=
  Rank.method req = "GET"
  /\ truthy (Rank.puuid req) = Some puuid
  /\ truthy (RIOT_API_KEY env) = Some apiKey
  /\ truthy (lookup (or_default (Rank.server req) "kr") Rank.serverEndpoints)
     = Some endpoint.

End Valid.

(** ** Shapes of replies and of upstream outcomes *)

Module Shape.

Import JS Riot Flow Sent.

(** A failure envelope: a status other than 200, [success: false] and a
    non-empty [error] string. *)
Definition failure (r : Reply) : Prop :=
  code r <> 200
  /\ success r = Some (Bool false)
  /\ exists e, error r = Some (Str e) /\ e <> "".

(** A success envelope: status 200 and [success: true]. *)
Definition succeeded (r : Reply) : Prop :=
  code r = 200 /\ success r = Some (Bool true).

(** The record a lookup yields: the parsed body of a resolved 2xx response;
    nothing when the fetch rejects, the status is not 2xx, or the body does
    not parse. *)
Definition record_of {T : Type} (f : Fetched T) : option T :=
  match f with
  | Resolved r =>
      if ok r then
        match json r with
        | inr d => Some d
        | inl _ => None
        end
      else None
  | Rejected _ => None
  end.

Definition is_hex (c : ascii) : bool :=
  match hex_value c with
  | Some _ => true
  | None => false
  end.

(** The text starts with two hexadecimal digits. *)
Definition two_hex (s : string) : bool :=
  match s with
  | String h1 (String h2 _) => is_hex h1 && is_hex h2
  | _ => false
  end.

(** A malformed percent-escape: some [%] of the text is not followed by
    two hexadecimal digits. *)
Definition malformed_escape (s : string) : Prop :=
  exists before after,
    s = before ++ String percent after /\ two_hex after = false.

End Shape.

(** ** Win rates, as the specification words them *)

Module WinRate.

Import JS.

(** [k] hundredths of a percent is the percentage [100 * wins / (wins + losses)]
    rounded to two decimal places: no multiple of 0.01 is nearer to it.
    (On an exact tie both neighbours qualify.) *)
Definition nearest_hundredth (wins losses k : Z) : Prop :=
  2 * Z.abs (k * (wins + losses) - 10000 * wins) <= wins + losses.

(** The number with the two decimals of [k] hundredths. *)
Definition two_decimals (k : Z) : number := (num_of_Z k / 100)%float.

End WinRate.

(** ** Binary64 numbers, for the arithmetic of win rates *)

Module Binary64.

(** The shift record [rec] locates the quotient [N / D]: its mantissa is
    the integer part, its round bit says the remainder is at least half of
    [D], its sticky bit that the remainder is neither zero nor that half. *)
Definition located (N D : Z) (rec : shr_record) : Prop :=
  shr_m rec = N / D
  /\ shr_r rec = (D <=? 2 * (N mod D))
  /\ shr_s rec = negb (N mod D =? 0) && negb (2 * (N mod D) =? D).

(** A mantissa of exactly 53 bits. *)
Definition normal (m : positive) : Prop := 2 ^ 52 <= Zpos m < 2 ^ 53.

(** The number with mantissa [m] and exponent [e] is the integer [z]. *)
Definition holds (z : Z) (m : positive) (e : Z) : Prop :=
  normal m /\ -52 <= e <= 0 /\ Zpos m = z * 2 ^ (- e).

(** The value of a positive finite number, as a rational. *)
Definition pow2 (e : Z) : Q := (2 ^ e)%Q.
Definition V (m : positive) (e : Z) : Q := (inject_Z (Zpos m) * pow2 e)%Q.

(** The unit roundoff, 2^-53. *)
Definition u : Q := (1 # 9007199254740992)%Q.

(** The mantissa of the literal [100]: 100 = 7036874417766400 * 2^-46. *)
Definition hundred : positive := 7036874417766400.

End Binary64.

(** ** Sample inputs *)

Module Sample.

Import JS Riot Flow.

Definition env : Env := {| RIOT_API_KEY := Some "RGAPI-key" |}.

Definition account : AccountDTO :=
  {| acc_puuid := "puuid-1"; acc_gameName := "Hide on bush"; acc_tagLine := "KR1" |}.

Definition summoner : SummonerDTO :=
  {| id := "summoner-1"; accountId := "account-1";
     summonerLevel := num_of_Z 700; profileIconId := num_of_Z 6;
     revisionDate := num_of_Z 1700000000000 |}.

Definition respond {T : Type} (s : Z) (t : string) (j : Error + T) : Fetched T :=
  Resolved {| status := s; text := inr t; json := j |}.

Definition no_json {T : Type} : Error + T :=
  inl (mkError "SyntaxError" "Unexpected end of JSON input").

(** An upstream answering every call of a family the same way. *)
Definition upstream (a : Fetched AccountDTO) (s : Fetched SummonerDTO)
    (l : Fetched (list LeagueEntryDTO)) : Upstream :=
  {| account_by_riot_id := fun _ => a;
     summoner_by_puuid := fun _ => s;
     entries_by_summoner := fun _ => l;
     url_error := fun input => "Failed to parse URL from " ++ input |}.

Definition identity_request : Summoner.Request :=
  {| Summoner.method := "GET";
     Summoner.params := Some ["Hide%20on%20bush"; "KR1"];
     Summoner.region := Some "asia";
     Summoner.server := None |}.

Definition rank_request : Rank.Request :=
  {| Rank.method := "GET"; Rank.puuid := Some "puuid-1"; Rank.server := None |}.

Definition now : string := "2024-01-01T00:00:00.000Z".

(** An upstream whose account endpoint answers with the given status. *)
Definition account_answers (s : Z) : Upstream :=
  upstream (respond s "{}" no_json)
    (Rejected (mkError "TypeError" "fetch failed"))
    (Rejected (mkError "TypeError" "fetch failed")).

(** An upstream that finds the account, the summoner and no league entry. *)
Definition found_everything : Upstream :=
  upstream (respond 200 "{}" (inr account))
    (respond 200 "{}" (inr summoner))
    (respond 200 "[]" (inr [])).

(** An upstream that finds the account and whose summoner endpoint cannot
    be reached. *)
Definition summoner_unreachable : Upstream :=
  upstream (respond 200 "{}" (inr account))
    (Rejected (mkError "TypeError" "fetch failed"))
    (Rejected (mkError "TypeError" "fetch failed")).

(** An upstream that finds the account and answers 404 for the summoner. *)
Definition summoner_missing : Upstream :=
  upstream (respond 200 "{}" (inr account))
    (respond 404 "{}" no_json)
    (Rejected (mkError "TypeError" "fetch failed")).

(** A league entry with the given wins and losses. *)
Definition entry_with (wins losses : Z) : LeagueEntryDTO :=
  {| e_queueType := "RANKED_SOLO_5x5"; e_tier := Some "GOLD"; e_rank := Some "II";
     e_leaguePoints := num_of_Z 0;
     e_wins := num_of_Z wins; e_losses := num_of_Z losses;
     e_veteran := None; e_inactive := None; e_freshBlood := None; e_hotStreak := None;
     e_leagueName := None; e_miniSeries := None |}.

End Sample.

(** ** Further vocabulary: calls, texts and requests *)

Module Calls.

Import JS Riot Flow.

(** The hosts of a topology table. *)
Definition hosts (table : list (string * string)) : list string := map snd table.

(** A call as the handlers make them: the configured key in
    [X-Riot-Token], the fixed [User-Agent], and an [https] URL on one of
    the given hosts. *)
Definition to_riot (env : Env) (allowed : list string) (c : Call) : Prop :=
  (exists apiKey,
      truthy (RIOT_API_KEY env) = Some apiKey
      /\ headers c = [("X-Riot-Token", apiKey); ("User-Agent", "lol-api-proxy/1.0")])
  /\ (exists host path,
         In host allowed /\ url c = "https://" ++ host ++ "/" ++ path).

(** A [fetch] as the handlers invoke it: such a call, or an invocation
    with the same headers on a URL that does not parse, which is rejected
    before anything is sent. *)
Definition guarded (env : Env) (allowed : list string) (c : Call) : Prop :=
  to_riot env allowed c
  \/ ((exists apiKey,
          truthy (RIOT_API_KEY env) = Some apiKey
          /\ headers c = [("X-Riot-Token", apiKey); ("User-Agent", "lol-api-proxy/1.0")])
      /\ URL_parses (url c) = false).

End Calls.

Module Text.

Import JS.

(** The text holds no [%]. *)
Definition plain (s : string) : Prop := ~ In percent (list_ascii_of_string s).

(** The text holds no [/]. *)
Definition slash_free (s : string) : Prop := ~ In "/"%char (list_ascii_of_string s).

(** The bytes of a text. *)
Definition bytes (s : string) : list N := map N_of_ascii (list_ascii_of_string s).

(** The text is well-formed UTF-8: written entirely with escapes, it passes
    the check [decodeURIComponent] makes. *)
Definition utf8_valid (s : string) : bool := utf8_ok (map (pair true) (bytes s)).

(** The units [encodeURIComponent] writes for a text: every character that
    is not unreserved becomes an escape. *)
Definition escaped (s : string) : list unit :=
  map (fun c => (negb (unreserved c), N_of_ascii c)) (list_ascii_of_string s).

End Text.

Module Requests.

(** The request with other path segments. *)
Definition with_params (req : Summoner.Request) (params : list string) : Summoner.Request :=
  {| Summoner.method := Summoner.method req;
     Summoner.params := Some params;
     Summoner.region := Summoner.region req;
     Summoner.server := Summoner.server req |}.

(** The request with another [region] query parameter. *)
Definition with_region (req : Summoner.Request) (region : option string) : Summoner.Request :=
  {| Summoner.method := Summoner.method req;
     Summoner.params := Summoner.params req;
     Summoner.region := region;
     Summoner.server := Summoner.server req |}.

(** The request with another [server] query parameter. *)
Definition with_server (req : Summoner.Request) (server : option string) : Summoner.Request :=
  {| Summoner.method := Summoner.method req;
     Summoner.params := Summoner.params req;
     Summoner.region := Summoner.region req;
     Summoner.server := server |}.

(** The same for the rank flow. *)
Definition rank_with_server (req : Rank.Request) (server : option string) : Rank.Request :=
  {| Rank.method := Rank.method req;
     Rank.puuid := Rank.puuid req;
     Rank.server := server |}.

End Requests.

Module Envelope.

Import JS Flow.

(** A property of [metadata] in the body. *)
Definition metadata (k : string) (r : Reply) : option value :=
  match body r with
  | Some v =>
      match prop "metadata" v with
      | Some m => prop k m
      | None => None
      end
  | None => None
  end.

End Envelope.

Module Tier.

Import JS.

(** The ordinal of a tier under the table: the number written for it, and
    0 for every other tier and for an absent one. *)
Definition ordinal (tier : option string) : Z :=
  match lookup (Rank.key_of tier) Rank.tierValues with
  | Some v => v
  | None => 0
  end.

(** The tier is no name inherited from [Object.prototype]. *)
Definition plain (tier : option string) : Prop :=
  ~ In (Rank.key_of tier) Object_prototype.

End Tier.

Module Queue.

Import JS Riot.

(** A league entry of the given queue and tier, with nothing optional. *)
Definition entry_of (queue : string) (tier : option string) : LeagueEntryDTO :=
  {| e_queueType := queue; e_tier := tier; e_rank := Some "I";
     e_leaguePoints := num_of_Z 0;
     e_wins := num_of_Z 1; e_losses := num_of_Z 1;
     e_veteran := None; e_inactive := None; e_freshBlood := None; e_hotStreak := None;
     e_leagueName := None; e_miniSeries := None |}.

Definition solo (tier : option string) : Rank.RankEntry :=
  Rank.process (entry_of "RANKED_SOLO_5x5" tier).

Definition flex (tier : option string) : Rank.RankEntry :=
  Rank.process (entry_of "RANKED_FLEX_SR" tier).

End Queue.

Import JS Riot Flow Sent Shape Binary64.

(** ** Strings *)

Lemma append_cancel_head (s a b : string) : s ++ a = s ++ b -> a = b.
Proof.
  induction s as [| c s IH]; cbn; intros H; [exact H |].
  injection H as H. exact (IH H).
Qed.

(** ** Laws of the flow monad *)

Lemma bind_lift_inr {A B : Type} (a : A) (f : A -> Flow B) :
  Flow.bind (lift (inr a)) f = f a.
Proof. unfold Flow.bind, lift. destruct (f a). reflexivity. Qed.

Lemma bind_lift_inl {A B : Type} (e : Error) (f : A -> Flow B) :
  Flow.bind (lift (inl e)) f = throw e.
Proof. reflexivity. Qed.

Lemma bind_ret {A B : Type} (a : A) (f : A -> Flow B) :
  Flow.bind (ret a) f = f a.
Proof. apply bind_lift_inr. Qed.

Lemma bind_fetch_rejected {T B : Type} (api : Call -> Fetched T) c e (f : Response T -> Flow B) :
  api c = Rejected e -> Flow.bind (fetch api c) f = ([c], inl e).
Proof. intros H. unfold Flow.bind, fetch. rewrite H. reflexivity. Qed.

Lemma bind_fetch_resolved {T B : Type} (api : Call -> Fetched T) c r (f : Response T -> Flow B) :
  api c = Resolved r ->
  Flow.bind (fetch api c) f = (c :: fst (f r), snd (f r)).
Proof. intros H. unfold Flow.bind, fetch. rewrite H. destruct (f r). reflexivity. Qed.

(** ** Table lookups and the URLs built from them *)

Lemma get_own {A : Type} k (table : list (string * A)) v :
  lookup k table = Some v -> get k table = Some (Own v).
Proof. intros H. unfold get. rewrite H. reflexivity. Qed.

Lemma truthy_text_own k table endpoint :
  truthy (lookup k table) = Some endpoint ->
  truthy_text (get k table) = Some endpoint.
Proof.
  unfold get. destruct (lookup k table) as [host |]; [| discriminate].
  intros H. exact H.
Qed.

Lemma existsb_eqb_In k names : existsb (String.eqb k) names = true <-> In k names.
Proof.
  rewrite existsb_exists. split.
  - intros (x & Hin & Heq). apply String.eqb_eq in Heq. subst x. exact Hin.
  - intros Hin. exists k. split; [exact Hin | apply String.eqb_refl].
Qed.

(** What a table gives for a key: nothing truthy; or the host written
    for the key; or, for a name inherited from [Object.prototype], the
    text of the inherited member. *)
Lemma truthy_text_cases k table :
  truthy_text (get k table) = None
  \/ (exists endpoint,
        truthy (lookup k table) = Some endpoint
        /\ truthy_text (get k table) = Some endpoint)
  \/ (lookup k table = None /\ In k Object_prototype
      /\ truthy_text (get k table) = Some (member_text k)).
Proof.
  unfold get. destruct (lookup k table) as [host |] eqn:Hlook.
  - cbn. destruct (String.eqb host ""); [left; reflexivity |].
    right; left. exists host. split; reflexivity.
  - destruct (existsb (String.eqb k) Object_prototype) eqn:Hin.
    + right; right. apply existsb_eqb_In in Hin. repeat split; assumption.
    + left. reflexivity.
Qed.

Ltac table_key k :=
  cbn;
  repeat match goal with
         | |- context [String.eqb k ?s] => destruct (String.eqb_spec k s) as [-> | _]
         end.

Lemma region_parses k endpoint path :
  truthy (lookup k Summoner.regionEndpoints) = Some endpoint ->
  URL_parses ("https://" ++ endpoint ++ String "/" path) = true.
Proof.
  table_key k; intros H; first [discriminate H | injection H as <-; reflexivity].
Qed.

Lemma server_parses k endpoint path :
  truthy (lookup k Summoner.serverEndpoints) = Some endpoint ->
  URL_parses ("https://" ++ endpoint ++ String "/" path) = true.
Proof.
  table_key k; intros H; first [discriminate H | injection H as <-; reflexivity].
Qed.

(** The text of an inherited member is no host: it holds a space or a
    bracket. *)
Lemma member_unparsable k path :
  In k Object_prototype ->
  URL_parses ("https://" ++ member_text k ++ String "/" path) = false.
Proof.
  intros Hin. cbn in Hin.
  repeat (destruct Hin as [<- | Hin]; [reflexivity |]). destruct Hin.
Qed.

Lemma accountCall_unparsable k gameName tagLine apiKey :
  In k Object_prototype ->
  URL_parses (url (Valid.accountCall gameName tagLine apiKey (member_text k))) = false.
Proof. apply member_unparsable. Qed.

Lemma summonerCall_unparsable k puuid apiKey :
  In k Object_prototype ->
  URL_parses (url (Valid.summonerCall puuid apiKey (member_text k))) = false.
Proof. apply member_unparsable. Qed.

Lemma answer_parsed {T : Type} up (api : Upstream -> Call -> Fetched T) c :
  URL_parses (url c) = true -> answer up api c = api up c.
Proof. intros H. unfold answer. rewrite H. reflexivity. Qed.

Lemma answer_unparsable {T : Type} up (api : Upstream -> Call -> Fetched T) c :
  URL_parses (url c) = false ->
  answer up api c = Rejected (mkError "TypeError" (url_error up (url c))).
Proof. intros H. unfold answer. rewrite H. reflexivity. Qed.

(** ** The identity flow, outcome by outcome *)

Section IdentityOutcomes.

Variables (env : Env) (up : Upstream) (now : string) (req : Summoner.Request).
Variables (gameName tagLine apiKey endpoint : string).
Hypothesis valid : Valid.identity env req gameName tagLine apiKey endpoint.

Let c := Valid.accountCall gameName tagLine apiKey endpoint.
Let region := or_default (Summoner.region req) "asia".
Let server := or_default (Summoner.server req) "kr".

(** The account call of a valid request parses, so the upstream settles it. *)
Lemma identity_answer : answer up account_by_riot_id c = account_by_riot_id up c.
Proof.
  destruct valid as (_ & _ & _ & Hreg).
  apply answer_parsed. exact (region_parses _ _ _ Hreg).
Qed.

Ltac enter :=
  pose proof identity_answer as Hanswer;
  destruct valid as (Hget & (ps & Hps & Hlen & Hg & Ht) & Hkey & Hreg);
  unfold Summoner.handler, Summoner.attempt; rewrite Hget; cbn [String.eqb Ascii.eqb Bool.eqb negb];
  rewrite Hps;
  destruct (Nat.ltb_spec (List.length ps) 2) as [Hlt | _]; [lia |];
  rewrite Hg, Ht, !bind_lift_inr, Hkey, (truthy_text_own _ _ _ Hreg).

Lemma identity_rejected e :
  account_by_riot_id up c = Rejected e ->
  Summoner.handler env up now req = ([c], Summoner.internal_error e).
Proof.
  intros H. enter. rewrite <- Hanswer in H.
  erewrite bind_fetch_rejected by exact H. reflexivity.
Qed.

Lemma identity_not_ok r :
  account_by_riot_id up c = Resolved r ->
  ok r = false ->
  Summoner.handler env up now req
  = ([c],
     if status r =? 404 then send_json 404 (Summoner.not_found gameName tagLine)
     else if status r =? 403 then
       send_json 403
         (Obj [ ("success", Bool false);
                ("error", Str "API authentication failed");
                ("message", Str "Invalid or expired API key") ])
     else
       match text r with
       | inl e => Summoner.internal_error e
       | inr errorText =>
           send_json (status r)
             (Obj [ ("success", Bool false);
                    ("error", Str "Riot API error");
                    ("status", Num (num_of_Z (status r)));
                    ("details", Str errorText) ])
       end).
Proof.
  intros H Hok. enter. rewrite <- Hanswer in H.
  erewrite bind_fetch_resolved by exact H.
  rewrite Hok. cbn [negb].
  destruct (status r =? 404); [reflexivity |].
  destruct (status r =? 403); [reflexivity |].
  destruct (text r) as [e | errorText]; reflexivity.
Qed.

Lemma identity_bad_body r e :
  account_by_riot_id up c = Resolved r ->
  ok r = true ->
  json r = inl e ->
  Summoner.handler env up now req = ([c], Summoner.internal_error e).
Proof.
  intros H Hok Hjson. enter. rewrite <- Hanswer in H.
  erewrite bind_fetch_resolved by exact H.
  rewrite Hok, Hjson. reflexivity.
Qed.

(** After the account is found: the optional summoner lookup. *)
Lemma identity_found r accountData :
  account_by_riot_id up c = Resolved r ->
  ok r = true ->
  json r = inr accountData ->
  Summoner.handler env up now req
  = match truthy_text (get server Summoner.serverEndpoints) with
    | None => ([c], send_json 200 (Summoner.response accountData None region server now))
    | Some serverEndpoint =>
        let c' := Valid.summonerCall (acc_puuid accountData) apiKey serverEndpoint in
        match answer up summoner_by_puuid c' with
        | Rejected e => ([c; c'], Summoner.internal_error e)
        | Resolved r' =>
            if ok r' then
              match json r' with
              | inl e => ([c; c'], Summoner.internal_error e)
              | inr d =>
                  ([c; c'],
                   send_json 200 (Summoner.response accountData (Some d) region server now))
              end
            else
              ([c; c'],
               send_json 200 (Summoner.response accountData None region server now))
        end
    end.
Proof.
  intros H Hok Hjson. enter. rewrite <- Hanswer in H.
  erewrite bind_fetch_resolved by exact H.
  rewrite Hok, Hjson. cbn [negb]. rewrite bind_lift_inr.
  fold server region.
  destruct (truthy_text (get server Summoner.serverEndpoints)) as [sep |].
  - unfold Valid.summonerCall.
    match goal with
    | |- context [fetch ?api ?call] => destruct (api call) as [e | r'] eqn:Hs
    end.
    + erewrite bind_fetch_rejected by exact Hs. reflexivity.
    + erewrite bind_fetch_resolved by exact Hs.
      destruct (ok r').
      * destruct (json r') as [e | d]; reflexivity.
      * reflexivity.
  - reflexivity.
Qed.

End IdentityOutcomes.

(** ** The rank flow, outcome by outcome *)

Section RankOutcomes.

Variables (env : Env) (up : Upstream) (now : string) (req : Rank.Request).
Variables (puuid apiKey endpoint : string).
Hypothesis valid : Valid.rank env req puuid apiKey endpoint.

Let c := Valid.summonerCall puuid apiKey endpoint.
Let server := or_default (Rank.server req) "kr".

(** Both calls of a valid request parse. *)
Lemma rank_answer : answer up summoner_by_puuid c = summoner_by_puuid up c.
Proof.
  destruct valid as (_ & _ & _ & Hsrv).
  apply answer_parsed. exact (server_parses _ _ _ Hsrv).
Qed.

Lemma rank_entries_answer summonerId :
  answer up entries_by_summoner (Valid.rankCall summonerId apiKey endpoint)
  = entries_by_summoner up (Valid.rankCall summonerId apiKey endpoint).
Proof.
  destruct valid as (_ & _ & _ & Hsrv).
  apply answer_parsed. exact (server_parses _ _ _ Hsrv).
Qed.

Ltac enter :=
  pose proof rank_answer as Hanswer;
  destruct valid as (Hget & Hpuuid & Hkey & Hsrv);
  unfold Rank.handler, Rank.attempt; rewrite Hget; cbn [String.eqb Ascii.eqb Bool.eqb negb];
  rewrite Hpuuid, Hkey, (truthy_text_own _ _ _ Hsrv).

Lemma rank_rejected e :
  summoner_by_puuid up c = Rejected e ->
  Rank.handler env up now req = ([c], Rank.internal_error e).
Proof.
  intros H. enter. rewrite <- Hanswer in H.
  erewrite bind_fetch_rejected by exact H. reflexivity.
Qed.

Lemma rank_summoner_not_ok r :
  summoner_by_puuid up c = Resolved r ->
  ok r = false ->
  Rank.handler env up now req
  = ([c],
     if status r =? 404 then
       send_json 404
         (Obj [ ("success", Bool false);
                ("error", Str "Summoner not found on this server");
                ("message", Str ("No summoner found with PUUID on " ++ server ++ " server")) ])
     else
       send_json (status r)
         (Obj [ ("success", Bool false);
                ("error", Str "Failed to get summoner info");
                ("status", Num (num_of_Z (status r))) ])).
Proof.
  intros H Hok. enter. rewrite <- Hanswer in H.
  erewrite bind_fetch_resolved by exact H.
  rewrite Hok. cbn [negb].
  destruct (status r =? 404); reflexivity.
Qed.

Lemma rank_summoner_bad_body r e :
  summoner_by_puuid up c = Resolved r ->
  ok r = true ->
  json r = inl e ->
  Rank.handler env up now req = ([c], Rank.internal_error e).
Proof.
  intros H Hok Hjson. enter. rewrite <- Hanswer in H.
  erewrite bind_fetch_resolved by exact H.
  rewrite Hok, Hjson. reflexivity.
Qed.

(** After the summoner is found: the league entries. *)
Lemma rank_summoner_found r summonerData :
  summoner_by_puuid up c = Resolved r ->
  ok r = true ->
  json r = inr summonerData ->
  Rank.handler env up now req
  = let c' := Valid.rankCall (id summonerData) apiKey endpoint in
    match entries_by_summoner up c' with
    | Rejected e => ([c; c'], Rank.internal_error e)
    | Resolved r' =>
        if ok r' then
          match json r' with
          | inl e => ([c; c'], Rank.internal_error e)
          | inr rankData =>
              ([c; c'],
               send_json 200
                 (Rank.response puuid summonerData (map Rank.process rankData) server now))
          end
        else
          ([c; c'],
           send_json (status r')
             (Obj [ ("success", Bool false);
                    ("error", Str "Failed to get rank info");
                    ("status", Num (num_of_Z (status r'))) ]))
    end.
Proof.
  intros H Hok Hjson.
  pose proof (rank_entries_answer (id summonerData)) as Hentries.
  enter. rewrite <- Hanswer in H.
  erewrite bind_fetch_resolved by exact H.
  rewrite Hok, Hjson. cbn [negb]. rewrite bind_lift_inr.
  fold server. cbv zeta. rewrite <- Hentries. unfold Valid.rankCall.
  match goal with
  | |- context [fetch ?api ?call] => destruct (api call) as [e | r'] eqn:Hs
  end.
  - erewrite bind_fetch_rejected by exact Hs. reflexivity.
  - erewrite bind_fetch_resolved by exact Hs.
    destruct (ok r').
    + destruct (json r') as [e | d]; reflexivity.
    + reflexivity.
Qed.

End RankOutcomes.

(** ** Requests stopped before the first call *)

Ltac failure_envelope :=
  split; [cbn; lia |]; split; [reflexivity |];
  eexists; split; [reflexivity | discriminate].

(** A GET request of the identity flow either passes every check with a
    region of the table; or is answered by a failure envelope (status 400
    or 500) without any call; or names as its region a member inherited
    from [Object.prototype], and then [fetch] is invoked on a URL that
    does not parse, rejects, and the [catch] answers. *)
Lemma identity_stopped env req :
  Summoner.method req = "GET" ->
  (exists gameName tagLine apiKey endpoint,
      Valid.identity env req gameName tagLine apiKey endpoint)
  \/ (exists sent,
        failure sent
        /\ In (code sent) [400; 500]
        /\ forall up now, Summoner.handler env up now req = ([], sent))
  \/ (exists c,
        URL_parses (url c) = false
        /\ In (or_default (Summoner.region req) "asia") Object_prototype
        /\ (forall up now,
              Summoner.handler env up now req
              = ([c], Summoner.internal_error (mkError "TypeError" (url_error up (url c)))))
        /\ exists apiKey,
             truthy (RIOT_API_KEY env) = Some apiKey
             /\ headers c = riot_headers apiKey
             /\ exists gameName tagLine,
                  c = Valid.accountCall gameName tagLine apiKey
                        (member_text (or_default (Summoner.region req) "asia"))).
Proof.
  intros Hget.
  unfold Summoner.handler, Summoner.attempt. rewrite Hget.
  cbn [String.eqb Ascii.eqb Bool.eqb negb].
  destruct (Summoner.params req) as [ps |] eqn:Hps;
    [| right; left; eexists; split; [| split; [| reflexivity]];
       [failure_envelope | cbn; auto]].
  destruct (Nat.ltb_spec (List.length ps) 2) as [Hlt | Hlen];
    [right; left; eexists; split; [| split; [| reflexivity]];
     [failure_envelope | cbn; auto] |].
  destruct (decodeURIComponent (nth 0 ps "")) as [e | g] eqn:Hg;
    [right; left; eexists; split; [| split; [| reflexivity]];
     [failure_envelope | cbn; auto] |].
  destruct (decodeURIComponent (nth 1 ps "")) as [e | t] eqn:Ht;
    [right; left; eexists; split; [| split; [| reflexivity]];
     [failure_envelope | cbn; auto] |].
  destruct (truthy (RIOT_API_KEY env)) as [k |] eqn:Hkey;
    [| right; left; eexists; split; [| split; [| reflexivity]];
       [failure_envelope | cbn; auto]].
  destruct (truthy_text_cases (or_default (Summoner.region req) "asia")
              Summoner.regionEndpoints)
    as [Hnone | [(ep & Hreg & Htext) | (_ & Hin & Htext)]]; rewrite Htext || rewrite Hnone.
  - right; left. eexists. split; [| split; [| reflexivity]];
      [failure_envelope | cbn; auto].
  - left. exists g, t, k, ep.
    split; [exact Hget |]. split; [| split; assumption].
    exists ps. repeat split; assumption.
  - right; right.
    exists (Valid.accountCall g t k (member_text (or_default (Summoner.region req) "asia"))).
    split; [exact (accountCall_unparsable _ _ _ _ Hin) |]. split; [exact Hin |].
    split; [| exists k; split; [reflexivity |]; split; [reflexivity |];
              exists g, t; reflexivity].
    intros up now. rewrite !bind_lift_inr.
    erewrite bind_fetch_rejected
      by (apply answer_unparsable; exact (accountCall_unparsable _ _ _ _ Hin)).
    reflexivity.
Qed.

(** The same for the rank flow and its summoner call. *)
Lemma rank_stopped env req :
  Rank.method req = "GET" ->
  (exists puuid apiKey endpoint, Valid.rank env req puuid apiKey endpoint)
  \/ (exists sent,
        failure sent
        /\ In (code sent) [400; 500]
        /\ forall up now, Rank.handler env up now req = ([], sent))
  \/ (exists c,
        URL_parses (url c) = false
        /\ In (or_default (Rank.server req) "kr") Object_prototype
        /\ (forall up now,
              Rank.handler env up now req
              = ([c], Rank.internal_error (mkError "TypeError" (url_error up (url c)))))
        /\ exists apiKey,
             truthy (RIOT_API_KEY env) = Some apiKey
             /\ headers c = riot_headers apiKey
             /\ exists puuid,
                  c = Valid.summonerCall puuid apiKey
                        (member_text (or_default (Rank.server req) "kr"))).
Proof.
  intros Hget.
  unfold Rank.handler, Rank.attempt. rewrite Hget.
  cbn [String.eqb Ascii.eqb Bool.eqb negb].
  destruct (truthy (Rank.puuid req)) as [p |] eqn:Hp;
    [| right; left; eexists; split; [| split; [| reflexivity]];
       [failure_envelope | cbn; auto]].
  destruct (truthy (RIOT_API_KEY env)) as [k |] eqn:Hkey;
    [| right; left; eexists; split; [| split; [| reflexivity]];
       [failure_envelope | cbn; auto]].
  destruct (truthy_text_cases (or_default (Rank.server req) "kr") Rank.serverEndpoints)
    as [Hnone | [(ep & Hsrv & Htext) | (_ & Hin & Htext)]]; rewrite Htext || rewrite Hnone.
  - right; left. eexists. split; [| split; [| reflexivity]];
      [failure_envelope | cbn; auto].
  - left. exists p, k, ep. repeat split; assumption.
  - right; right.
    exists (Valid.summonerCall p k (member_text (or_default (Rank.server req) "kr"))).
    split; [exact (summonerCall_unparsable _ _ _ Hin) |]. split; [exact Hin |].
    split; [| exists k; split; [reflexivity |]; split; [reflexivity |];
              exists p; reflexivity].
    intros up now.
    erewrite bind_fetch_rejected
      by (apply answer_unparsable; exact (summonerCall_unparsable _ _ _ Hin)).
    reflexivity.
Qed.

(** ** Properties of the two flows *)

Ltac sample_identity :=
  split; [reflexivity |];
  split;
    [eexists; split; [reflexivity |]; split; [simpl; lia |]; split; reflexivity |];
  split; reflexivity.

(** C7: when the account call of the identity flow answers 404, the handler
    sends status 404 with [success: false], [error: "Summoner not found"]
    and the three suggestions (spelling, tag line, region), the body has no
    other property than [success], [error], [message] and [suggestions],
    and the account call is the only call made. *)
Theorem identity_account_404 env up now req gameName tagLine apiKey endpoint r :
  Valid.identity env req gameName tagLine apiKey endpoint ->
  account_by_riot_id up (Valid.accountCall gameName tagLine apiKey endpoint) = Resolved r ->
  status r = 404 ->
  let sent := snd (Summoner.handler env up now req) in
  fst (Summoner.handler env up now req)
  = [Valid.accountCall gameName tagLine apiKey endpoint]
  /\ code sent = 404
  /\ success sent = Some (Bool false)
  /\ error sent = Some (Str "Summoner not found")
  /\ (exists props,
        body sent = Some (Obj props)
        /\ Object_keys props = ["success"; "error"; "message"; "suggestions"]
        /\ lookup "suggestions" props
           = Some (Arr [ Str "Check the spelling of the game name";
                         Str "Verify the tag line (e.g., KR1, NA1, EUW1)";
                         Str "Make sure the account exists in the specified region" ])).
Proof.
  intros Hvalid Hresp H404.
  assert (Hok : ok r = false) by (unfold ok; rewrite H404; reflexivity).
  rewrite (identity_not_ok env up now req _ _ _ _ Hvalid r Hresp Hok).
  rewrite H404. cbn.
  repeat split. eexists. repeat split.
Qed.

Lemma identity_account_404_witness :
  let up := Sample.upstream (Sample.respond 404 "{}" Sample.no_json)
              (Rejected (mkError "TypeError" "fetch failed"))
              (Rejected (mkError "TypeError" "fetch failed")) in
  let sent := snd (Summoner.handler Sample.env up Sample.now Sample.identity_request) in
  fst (Summoner.handler Sample.env up Sample.now Sample.identity_request)
  = [Valid.accountCall "Hide on bush" "KR1" "RGAPI-key" "asia.api.riotgames.com"]
  /\ code sent = 404
  /\ success sent = Some (Bool false)
  /\ error sent = Some (Str "Summoner not found")
  /\ (exists props,
        body sent = Some (Obj props)
        /\ Object_keys props = ["success"; "error"; "message"; "suggestions"]
        /\ lookup "suggestions" props
           = Some (Arr [ Str "Check the spelling of the game name";
                         Str "Verify the tag line (e.g., KR1, NA1, EUW1)";
                         Str "Make sure the account exists in the specified region" ])).
Proof.
  intros up.
  apply (identity_account_404 Sample.env up Sample.now Sample.identity_request
           "Hide on bush" "KR1" "RGAPI-key" "asia.api.riotgames.com"
           {| status := 404; text := inr "{}"; json := Sample.no_json |}).
  - sample_identity.
  - reflexivity.
  - reflexivity.
Defined.

(** C3, as stated, fails: a 401 from the account call is not surfaced as
    "API authentication failed"; it is passed through as "Riot API error". *)
Lemma identity_account_401_counterexample :
  let sent :=
    snd (Summoner.handler Sample.env (Sample.account_answers 401) Sample.now
           Sample.identity_request) in
  code sent = 401
  /\ error sent = Some (Str "Riot API error")
  /\ error sent <> Some (Str "API authentication failed").
Proof.
  cbv zeta. split; [reflexivity |]. split; [reflexivity |].
  intros H. vm_compute in H. discriminate H.
Qed.

(** C3, amended: when the account call of the identity flow answers 403
    the handler sends status 403 with [success: false] and
    [error: "API authentication failed"]; when it answers any other
    non-2xx status except 404 (401 among them) the handler reads the body
    text and passes the status through with [success: false],
    [error: "Riot API error"], the status and the body text; if reading
    the body fails, the error reaches the [catch] and the reply is status
    500 with [error: "Internal server error"].  A 401 is never answered
    with "API authentication failed".  In every case no other call is
    made. *)
Theorem identity_account_auth_failure env up now req gameName tagLine apiKey endpoint r :
  Valid.identity env req gameName tagLine apiKey endpoint ->
  account_by_riot_id up (Valid.accountCall gameName tagLine apiKey endpoint) = Resolved r ->
  (status r = 403 ->
   Summoner.handler env up now req
   = ([Valid.accountCall gameName tagLine apiKey endpoint],
      send_json 403
        (Obj [ ("success", Bool false);
               ("error", Str "API authentication failed");
               ("message", Str "Invalid or expired API key") ])))
  /\ (ok r = false -> status r <> 404 -> status r <> 403 ->
      forall errorText, text r = inr errorText ->
      Summoner.handler env up now req
      = ([Valid.accountCall gameName tagLine apiKey endpoint],
         send_json (status r)
           (Obj [ ("success", Bool false);
                  ("error", Str "Riot API error");
                  ("status", Num (num_of_Z (status r)));
                  ("details", Str errorText) ])))
  /\ (ok r = false -> status r <> 404 -> status r <> 403 ->
      forall e, text r = inl e ->
      Summoner.handler env up now req
      = ([Valid.accountCall gameName tagLine apiKey endpoint],
         send_json 500
           (Obj [ ("success", Bool false);
                  ("error", Str "Internal server error");
                  ("message", Str (message e)) ])))
  /\ (status r = 401 ->
      fst (Summoner.handler env up now req)
      = [Valid.accountCall gameName tagLine apiKey endpoint]
      /\ error (snd (Summoner.handler env up now req))
         <> Some (Str "API authentication failed")
      /\ (forall errorText, text r = inr errorText ->
          code (snd (Summoner.handler env up now req)) = 401
          /\ error (snd (Summoner.handler env up now req)) = Some (Str "Riot API error"))).
Proof.
  intros Hvalid Hresp.
  pose proof (identity_not_ok env up now req _ _ _ _ Hvalid r Hresp) as Hfail.
  cbv zeta in Hfail.
  split; [| split; [| split]].
  - intros H403. rewrite Hfail by (unfold ok; rewrite H403; reflexivity).
    rewrite H403. reflexivity.
  - intros Hok H404 H403 errorText Htext. rewrite Hfail by exact Hok.
    destruct (Z.eqb_spec (status r) 404) as [| _]; [contradiction |].
    destruct (Z.eqb_spec (status r) 403) as [| _]; [contradiction |].
    rewrite Htext. reflexivity.
  - intros Hok H404 H403 e Htext. rewrite Hfail by exact Hok.
    destruct (Z.eqb_spec (status r) 404) as [| _]; [contradiction |].
    destruct (Z.eqb_spec (status r) 403) as [| _]; [contradiction |].
    rewrite Htext. reflexivity.
  - intros H401. rewrite Hfail by (unfold ok; rewrite H401; reflexivity).
    rewrite H401. cbn [Z.eqb Pos.eqb fst snd].
    split; [reflexivity |].
    destruct (text r) as [e | errorText].
    + split; [cbn; discriminate |]. intros t [=].
    + split; [cbn; discriminate |]. intros t _. split; reflexivity.
Qed.

Lemma identity_account_auth_failure_witness :
  Summoner.handler Sample.env (Sample.account_answers 403) Sample.now Sample.identity_request
  = ([Valid.accountCall "Hide on bush" "KR1" "RGAPI-key" "asia.api.riotgames.com"],
     send_json 403
       (Obj [ ("success", Bool false);
              ("error", Str "API authentication failed");
              ("message", Str "Invalid or expired API key") ])).
Proof.
  apply (identity_account_auth_failure Sample.env (Sample.account_answers 403) Sample.now
           Sample.identity_request "Hide on bush" "KR1" "RGAPI-key"
           "asia.api.riotgames.com"
           {| status := 403; text := inr "{}"; json := Sample.no_json |}).
  - sample_identity.
  - reflexivity.
  - reflexivity.
Defined.

(** C5: in the rank flow, whenever the summoner lookup does not yield a
    record (the fetch rejects, the status is not 2xx, or the body does not
    parse), the handler sends a failure envelope ([success: false]) and the
    summoner call is the only call made: the league-entries call is not
    issued. *)
Theorem rank_summoner_lookup_failed env up now req puuid apiKey endpoint :
  Valid.rank env req puuid apiKey endpoint ->
  record_of (summoner_by_puuid up (Valid.summonerCall puuid apiKey endpoint)) = None ->
  fst (Rank.handler env up now req) = [Valid.summonerCall puuid apiKey endpoint]
  /\ success (snd (Rank.handler env up now req)) = Some (Bool false)
  /\ (forall summonerId,
        ~ In (Valid.rankCall summonerId apiKey endpoint) (fst (Rank.handler env up now req))).
Proof.
  intros Hvalid Hnone.
  assert (Hgoal : fst (Rank.handler env up now req) = [Valid.summonerCall puuid apiKey endpoint]
                  /\ success (snd (Rank.handler env up now req)) = Some (Bool false)).
  { destruct (summoner_by_puuid up (Valid.summonerCall puuid apiKey endpoint))
      as [e | r] eqn:Hresp.
    - rewrite (rank_rejected env up now req _ _ _ Hvalid e Hresp). split; reflexivity.
    - cbn [record_of] in Hnone.
      destruct (ok r) eqn:Hok.
      + destruct (json r) as [e | d] eqn:Hjson; [| discriminate Hnone].
        rewrite (rank_summoner_bad_body env up now req _ _ _ Hvalid r e Hresp Hok Hjson).
        split; reflexivity.
      + rewrite (rank_summoner_not_ok env up now req _ _ _ Hvalid r Hresp Hok).
        destruct (status r =? 404); split; reflexivity. }
  destruct Hgoal as [Hcalls Hsent]. repeat split; try assumption.
  intros summonerId. rewrite Hcalls. intros [Heq | []].
  unfold Valid.summonerCall, Valid.rankCall in Heq.
  injection Heq as Heq.
  apply append_cancel_head in Heq. discriminate Heq.
Qed.

Lemma rank_summoner_lookup_failed_witness :
  let up := Sample.upstream (Rejected (mkError "TypeError" "fetch failed"))
              (Sample.respond 503 "Service unavailable" Sample.no_json)
              (Sample.respond 200 "[]" (inr [])) in
  fst (Rank.handler Sample.env up Sample.now Sample.rank_request)
  = [Valid.summonerCall "puuid-1" "RGAPI-key" "kr.api.riotgames.com"]
  /\ success (snd (Rank.handler Sample.env up Sample.now Sample.rank_request))
     = Some (Bool false)
  /\ (forall summonerId,
        ~ In (Valid.rankCall summonerId "RGAPI-key" "kr.api.riotgames.com")
             (fst (Rank.handler Sample.env up Sample.now Sample.rank_request))).
Proof.
  intros up.
  apply (rank_summoner_lookup_failed Sample.env up Sample.now Sample.rank_request
           "puuid-1" "RGAPI-key" "kr.api.riotgames.com").
  - repeat split; reflexivity.
  - reflexivity.
Defined.

(** ** Malformed escapes make [decodeURIComponent] throw *)

Lemma unescape_percent rest :
  unescape (String percent rest)
  = match rest with
    | String h1 (String h2 rest') =>
        match hex_value h1, hex_value h2 with
        | Some a, Some b => option_map (cons (true, (16 * a + b)%N)) (unescape rest')
        | _, _ => None
        end
    | _ => None
    end.
Proof. reflexivity. Qed.

Lemma hex_value_percent : hex_value percent = None.
Proof. reflexivity. Qed.

Lemma unescape_malformed_bounded (n : nat) :
  forall before after,
    (String.length before <= n)%nat ->
    two_hex after = false ->
    unescape (before ++ String percent after) = None.
Proof.
  induction n as [| n IH]; intros before after Hlen Hafter.
  - destruct before as [| c before]; [| cbn in Hlen; lia].
    cbn [append]. rewrite unescape_percent.
    destruct after as [| h1 [| h2 rest]]; try reflexivity.
    cbn in Hafter. unfold is_hex in Hafter.
    destruct (hex_value h1), (hex_value h2); try reflexivity. discriminate Hafter.
  - destruct before as [| c before].
    + apply (IH EmptyString after); [cbn; lia | exact Hafter].
    + cbn [append]. cbn in Hlen.
      destruct (Ascii.eqb_spec c percent) as [-> | Hc].
      * rewrite unescape_percent.
        destruct before as [| h1 [| h2 before]]; cbn [append].
        -- rewrite hex_value_percent. destruct after; reflexivity.
        -- rewrite hex_value_percent. destruct (hex_value h1); reflexivity.
        -- destruct (hex_value h1); [| reflexivity].
           destruct (hex_value h2); [| reflexivity].
           rewrite IH; [reflexivity | cbn in Hlen; lia | exact Hafter].
      * cbn [unescape]. destruct (Ascii.eqb_spec c percent) as [| _]; [contradiction |].
        rewrite IH; [reflexivity | lia | exact Hafter].
Qed.

Lemma decodeURIComponent_malformed s :
  malformed_escape s -> decodeURIComponent s = inl URIError.
Proof.
  intros (before & after & -> & Hafter).
  unfold decodeURIComponent.
  rewrite (unescape_malformed_bounded (String.length before)) by (auto; lia).
  reflexivity.
Qed.

(** Whatever it is given, [decodeURIComponent] throws nothing but its
    [URIError]. *)
Lemma decodeURIComponent_throws s e :
  decodeURIComponent s = inl e -> e = URIError.
Proof.
  unfold decodeURIComponent.
  destruct (unescape s) as [us |]; [destruct (utf8_ok us) |]; congruence.
Qed.

(** C10: a GET request of the identity flow with (at least) two path
    segments, the first or the second of which holds a malformed
    percent-escape, is answered with status 500 and the body
    [{success: false, error: "Internal server error", message: "URI malformed"}],
    whatever the key, the region and the upstream; no call is made, and the
    error is neither of the input-shape errors. *)
Theorem identity_malformed_escape env up now req params :
  Summoner.method req = "GET" ->
  Summoner.params req = Some params ->
  (2 <= List.length params)%nat ->
  malformed_escape (nth 0 params "") \/ malformed_escape (nth 1 params "") ->
  Summoner.handler env up now req
  = ([], send_json 500
           (Obj [ ("success", Bool false);
                  ("error", Str "Internal server error");
                  ("message", Str "URI malformed") ]))
  /\ error (snd (Summoner.handler env up now req))
     <> Some (Str "Invalid URL format. Expected: /api/summoner/{gameName}/{tagLine}")
  /\ error (snd (Summoner.handler env up now req)) <> Some (Str "Invalid region").
Proof.
  intros Hget Hps Hlen Hbad.
  assert (H : Summoner.handler env up now req
              = ([], send_json 500
                       (Obj [ ("success", Bool false);
                              ("error", Str "Internal server error");
                              ("message", Str "URI malformed") ]))).
  { unfold Summoner.handler, Summoner.attempt. rewrite Hget.
    cbn [String.eqb Ascii.eqb Bool.eqb negb]. rewrite Hps.
    destruct (Nat.ltb_spec (List.length params) 2) as [Hlt | _]; [lia |].
    destruct Hbad as [Hbad | Hbad]; apply decodeURIComponent_malformed in Hbad.
    - rewrite Hbad. reflexivity.
    - destruct (decodeURIComponent (nth 0 params "")) as [e | g] eqn:Hg.
      + apply decodeURIComponent_throws in Hg. subst e. reflexivity.
      + rewrite Hbad. reflexivity. }
  rewrite H. repeat split; intros Heq; vm_compute in Heq; discriminate Heq.
Qed.

Lemma identity_malformed_escape_witness :
  let req := {| Summoner.method := "GET";
                Summoner.params := Some ["100%"; "KR1"];
                Summoner.region := None;
                Summoner.server := None |} in
  Summoner.handler Sample.env (Sample.account_answers 200) Sample.now req
  = ([], send_json 500
           (Obj [ ("success", Bool false);
                  ("error", Str "Internal server error");
                  ("message", Str "URI malformed") ])).
Proof.
  intros req.
  apply (identity_malformed_escape Sample.env (Sample.account_answers 200) Sample.now req
           ["100%"; "KR1"]).
  - reflexivity.
  - reflexivity.
  - simpl; lia.
  - left. exists "100", "". split; reflexivity.
Defined.

(** ** Envelopes *)

Lemma not_ok_not_200 {T : Type} (r : Response T) : ok r = false -> status r <> 200.
Proof. unfold ok. intros H Heq. rewrite Heq in H. discriminate H. Qed.

Ltac passthrough Hok :=
  split; [exact (not_ok_not_200 _ Hok) |]; split; [reflexivity |];
  eexists; split; [reflexivity | discriminate].

(** Every GET request of the identity flow is answered by a failure
    envelope or by a success envelope. *)
Lemma identity_envelope env up now req :
  Summoner.method req = "GET" ->
  failure (snd (Summoner.handler env up now req))
  \/ succeeded (snd (Summoner.handler env up now req)).
Proof.
  intros Hget.
  destruct (identity_stopped env req Hget)
    as [(g & t & k & ep & Hvalid) | [(sent & Hf & _ & Hsent) | (c & _ & _ & Hthrown & _)]];
    [| rewrite Hsent; left; exact Hf | rewrite Hthrown; left; failure_envelope].
  destruct (account_by_riot_id up (Valid.accountCall g t k ep)) as [e | r] eqn:Hresp.
  { rewrite (identity_rejected env up now req _ _ _ _ Hvalid e Hresp).
    left. failure_envelope. }
  destruct (ok r) eqn:Hok.
  - destruct (json r) as [e | a] eqn:Hjson.
    { rewrite (identity_bad_body env up now req _ _ _ _ Hvalid r e Hresp Hok Hjson).
      left. failure_envelope. }
    rewrite (identity_found env up now req _ _ _ _ Hvalid r a Hresp Hok Hjson).
    cbv zeta.
    destruct (truthy_text _) as [sep |]; [| right; split; reflexivity].
    destruct (answer up summoner_by_puuid _) as [e | r']; [left; failure_envelope |].
    destruct (ok r'); [| right; split; reflexivity].
    destruct (json r'); [left; failure_envelope | right; split; reflexivity].
  - rewrite (identity_not_ok env up now req _ _ _ _ Hvalid r Hresp Hok).
    left.
    destruct (status r =? 404); [failure_envelope |].
    destruct (status r =? 403); [failure_envelope |].
    destruct (text r); [failure_envelope | passthrough Hok].
Qed.

(** The same for the rank flow. *)
Lemma rank_envelope env up now req :
  Rank.method req = "GET" ->
  failure (snd (Rank.handler env up now req))
  \/ succeeded (snd (Rank.handler env up now req)).
Proof.
  intros Hget.
  destruct (rank_stopped env req Hget)
    as [(p & k & ep & Hvalid) | [(sent & Hf & _ & Hsent) | (c & _ & _ & Hthrown & _)]];
    [| rewrite Hsent; left; exact Hf | rewrite Hthrown; left; failure_envelope].
  destruct (summoner_by_puuid up (Valid.summonerCall p k ep)) as [e | r] eqn:Hresp.
  { rewrite (rank_rejected env up now req _ _ _ Hvalid e Hresp).
    left. failure_envelope. }
  destruct (ok r) eqn:Hok.
  - destruct (json r) as [e | d] eqn:Hjson.
    { rewrite (rank_summoner_bad_body env up now req _ _ _ Hvalid r e Hresp Hok Hjson).
      left. failure_envelope. }
    rewrite (rank_summoner_found env up now req _ _ _ Hvalid r d Hresp Hok Hjson).
    cbv zeta.
    destruct (entries_by_summoner up _) as [e | r']; [left; failure_envelope |].
    destruct (ok r') eqn:Hok'; [| left; passthrough Hok'].
    destruct (json r'); [left; failure_envelope | right; split; reflexivity].
  - rewrite (rank_summoner_not_ok env up now req _ _ _ Hvalid r Hresp Hok).
    left.
    destruct (status r =? 404); [failure_envelope |].
    passthrough Hok.
Qed.

Lemma envelope_status (sent : Reply) :
  failure sent \/ succeeded sent ->
  (code sent = 200 <-> success sent = Some (Bool true))
  /\ (code sent <> 200 ->
      success sent = Some (Bool false)
      /\ exists e, error sent = Some (Str e) /\ e <> "").
Proof.
  intros [(Hcode & Hsuccess & Herror) | (Hcode & Hsuccess)].
  - split; [| intros _; split; assumption].
    split; [contradiction | rewrite Hsuccess; discriminate].
  - split; [split; intros _; assumption | contradiction].
Qed.

(** C9: for every GET request to either handler, the status sent is 200
    exactly when the body has [success: true], and every reply with
    another status has [success: false] and a non-empty [error] string;
    in particular a throw inside the handler is answered by such an
    envelope. *)
Theorem status_200_iff_success :
  (forall env up now req,
      Summoner.method req = "GET" ->
      let sent := snd (Summoner.handler env up now req) in
      (code sent = 200 <-> success sent = Some (Bool true))
      /\ (code sent <> 200 ->
          success sent = Some (Bool false)
          /\ exists e, error sent = Some (Str e) /\ e <> ""))
  /\ (forall env up now req,
        Rank.method req = "GET" ->
        let sent := snd (Rank.handler env up now req) in
        (code sent = 200 <-> success sent = Some (Bool true))
        /\ (code sent <> 200 ->
            success sent = Some (Bool false)
            /\ exists e, error sent = Some (Str e) /\ e <> "")).
Proof.
  split; intros env up now req Hget; cbv zeta; apply envelope_status.
  - exact (identity_envelope env up now req Hget).
  - exact (rank_envelope env up now req Hget).
Qed.

Lemma status_200_iff_success_witness :
  let sent := snd (Summoner.handler Sample.env (Sample.account_answers 429) Sample.now
                     Sample.identity_request) in
  (code sent = 200 <-> success sent = Some (Bool true))
  /\ (code sent <> 200 ->
      success sent = Some (Bool false)
      /\ exists e, error sent = Some (Str e) /\ e <> "").
Proof.
  exact (proj1 status_200_iff_success Sample.env (Sample.account_answers 429) Sample.now
           Sample.identity_request eq_refl).
Defined.

(** ** The time only shows in [metadata.timestamp] *)

Lemma identity_clock env up now1 now2 req :
  Summoner.method req = "GET" ->
  fst (Summoner.handler env up now1 req) = fst (Summoner.handler env up now2 req)
  /\ reply_without_timestamp (snd (Summoner.handler env up now1 req))
     = reply_without_timestamp (snd (Summoner.handler env up now2 req)).
Proof.
  intros Hget.
  destruct (identity_stopped env req Hget)
    as [(g & t & k & ep & Hvalid) | [(sent & _ & _ & Hsent) | (c & _ & _ & Hthrown & _)]];
    [| rewrite !Hsent; split; reflexivity | rewrite !Hthrown; split; reflexivity].
  destruct (account_by_riot_id up (Valid.accountCall g t k ep)) as [e | r] eqn:Hresp.
  { rewrite !(identity_rejected env up _ req _ _ _ _ Hvalid e Hresp). split; reflexivity. }
  destruct (ok r) eqn:Hok.
  - destruct (json r) as [e | a] eqn:Hjson.
    { rewrite !(identity_bad_body env up _ req _ _ _ _ Hvalid r e Hresp Hok Hjson).
      split; reflexivity. }
    rewrite !(identity_found env up _ req _ _ _ _ Hvalid r a Hresp Hok Hjson).
    cbv zeta.
    destruct (truthy_text _) as [sep |]; [| split; reflexivity].
    destruct (answer up summoner_by_puuid _) as [e | r']; [split; reflexivity |].
    destruct (ok r'); [| split; reflexivity].
    destruct (json r'); split; reflexivity.
  - rewrite !(identity_not_ok env up _ req _ _ _ _ Hvalid r Hresp Hok).
    split; reflexivity.
Qed.

(** C8: two runs of the identity flow on GET requests with the same path
    segments (game name and tag line), region and server, under the same
    configuration and against the same upstream answers, at whatever
    times, make the same calls and send the same status and the same body,
    [metadata.timestamp] excepted. *)
Theorem identity_flow_deterministic env up now1 now2 req1 req2 :
  Summoner.method req1 = "GET" ->
  Summoner.method req2 = "GET" ->
  Summoner.params req1 = Summoner.params req2 ->
  Summoner.region req1 = Summoner.region req2 ->
  Summoner.server req1 = Summoner.server req2 ->
  fst (Summoner.handler env up now1 req1) = fst (Summoner.handler env up now2 req2)
  /\ reply_without_timestamp (snd (Summoner.handler env up now1 req1))
     = reply_without_timestamp (snd (Summoner.handler env up now2 req2)).
Proof.
  intros Hget1 Hget2 Hparams Hregion Hserver.
  assert (Heq : req1 = req2).
  { destruct req1, req2. cbn in *. congruence. }
  subst req2. apply identity_clock. exact Hget1.
Qed.

Lemma identity_flow_deterministic_witness :
  fst (Summoner.handler Sample.env Sample.found_everything "2024-01-01T00:00:00.000Z"
         Sample.identity_request)
  = fst (Summoner.handler Sample.env Sample.found_everything "2025-06-30T12:00:00.000Z"
           Sample.identity_request)
  /\ reply_without_timestamp
       (snd (Summoner.handler Sample.env Sample.found_everything "2024-01-01T00:00:00.000Z"
               Sample.identity_request))
     = reply_without_timestamp
         (snd (Summoner.handler Sample.env Sample.found_everything "2025-06-30T12:00:00.000Z"
                 Sample.identity_request)).
Proof.
  apply (identity_flow_deterministic Sample.env Sample.found_everything
           "2024-01-01T00:00:00.000Z" "2025-06-30T12:00:00.000Z"
           Sample.identity_request Sample.identity_request); reflexivity.
Defined.

(** The timestamp is what differs between the two bodies of the witness. *)
Example timestamps_differ :
  snd (Summoner.handler Sample.env Sample.found_everything "2024-01-01T00:00:00.000Z"
         Sample.identity_request)
  <> snd (Summoner.handler Sample.env Sample.found_everything "2025-06-30T12:00:00.000Z"
            Sample.identity_request).
Proof. intros H. vm_compute in H. discriminate H. Qed.

(** ** The optional summoner lookup of the identity flow *)

(** C4: the soft-fail invariant does not hold of the code.  The identity
    is resolved, the summoner lookup yields no record because its fetch
    rejects, and the handler sends status 500 with [success: false]
    instead of the identity fields. *)
Theorem identity_summoner_unreachable :
  let up := Sample.summoner_unreachable in
  let sent := snd (Summoner.handler Sample.env up Sample.now Sample.identity_request) in
  record_of (account_by_riot_id up
               (Valid.accountCall "Hide on bush" "KR1" "RGAPI-key" "asia.api.riotgames.com"))
  = Some Sample.account
  /\ record_of (summoner_by_puuid up
                  (Valid.summonerCall "puuid-1" "RGAPI-key" "kr.api.riotgames.com"))
     = None
  /\ code sent = 500
  /\ success sent = Some (Bool false)
  /\ success sent <> Some (Bool true)
  /\ error sent = Some (Str "Internal server error").
Proof.
  cbv zeta. repeat split; try reflexivity.
  intros H. vm_compute in H. discriminate H.
Qed.

(** What the identity flow sends when it has the account and no summoner. *)
Lemma identity_only_shape accountData region server now :
  let sent := send_json 200 (Summoner.response accountData None region server now) in
  success sent = Some (Bool true)
  /\ data_keys sent = ["puuid"; "gameName"; "tagLine"]
  /\ data "puuid" sent = Some (Str (acc_puuid accountData))
  /\ data "gameName" sent = Some (Str (acc_gameName accountData))
  /\ data "tagLine" sent = Some (Str (acc_tagLine accountData)).
Proof. repeat split. Qed.

(** The hosts of the server table are not empty: a recognised key gives a
    truthy endpoint. *)
Lemma serverEndpoint_truthy k serverEndpoint :
  lookup k Summoner.serverEndpoints = Some serverEndpoint ->
  truthy (Some serverEndpoint) = Some serverEndpoint.
Proof.
  cbn. repeat (destruct (String.eqb k _); [intros [= <-]; reflexivity |]).
  discriminate.
Qed.

Lemma serverEndpoint_found k serverEndpoint :
  lookup k Summoner.serverEndpoints = Some serverEndpoint ->
  truthy (lookup k Summoner.serverEndpoints) = Some serverEndpoint.
Proof. intros H. rewrite H. exact (serverEndpoint_truthy _ _ H). Qed.

Lemma truthy_text_absent k table :
  lookup k table = None -> ~ In k Object_prototype -> truthy_text (get k table) = None.
Proof.
  intros Hlook Hnot. unfold get. rewrite Hlook.
  destruct (existsb (String.eqb k) Object_prototype) eqn:Hin; [| reflexivity].
  apply existsb_eqb_In in Hin. contradiction.
Qed.

(** No key of the server table is an inherited name. *)
Lemma inherited_not_server k :
  In k Object_prototype -> lookup k Summoner.serverEndpoints = None.
Proof.
  intros Hin. cbn in Hin.
  repeat (destruct Hin as [<- | Hin]; [reflexivity |]). destruct Hin.
Qed.



(** The summoner call of the identity flow for a server of the table
    parses. *)
Lemma identity_summoner_answer up k serverEndpoint puuid apiKey :
  lookup k Summoner.serverEndpoints = Some serverEndpoint ->
  answer up summoner_by_puuid (Valid.summonerCall puuid apiKey serverEndpoint)
  = summoner_by_puuid up (Valid.summonerCall puuid apiKey serverEndpoint).
Proof.
  intros H. apply answer_parsed.
  exact (server_parses _ _ _ (serverEndpoint_found _ _ H)).
Qed.

(** X26: in the identity flow, once the account is found, if the server
    key is neither in the table nor a name inherited from
    [Object.prototype], or the summoner call answers with a status that is
    not 2xx (404 or any other), the handler still sends status 200 with
    [success: true] and [data] holding exactly [puuid], [gameName] and
    [tagLine].  If instead the summoner fetch rejects, or a 2xx answer has
    a body that does not parse, or the server key is an inherited name (so
    that the URL of the summoner call does not parse), the throw reaches
    the handler's [catch] and the reply is status 500 with
    [success: false] and [error: "Internal server error"]. *)
Theorem identity_summoner_soft_fail env up now req gameName tagLine apiKey endpoint r accountData :
  Valid.identity env req gameName tagLine apiKey endpoint ->
  account_by_riot_id up (Valid.accountCall gameName tagLine apiKey endpoint) = Resolved r ->
  ok r = true ->
  json r = inr accountData ->
  let c := Valid.accountCall gameName tagLine apiKey endpoint in
  let region := or_default (Summoner.region req) "asia" in
  let server := or_default (Summoner.server req) "kr" in
  let identity_only := send_json 200 (Summoner.response accountData None region server now) in
  (success identity_only = Some (Bool true)
   /\ data_keys identity_only = ["puuid"; "gameName"; "tagLine"]
   /\ data "puuid" identity_only = Some (Str (acc_puuid accountData))
   /\ data "gameName" identity_only = Some (Str (acc_gameName accountData))
   /\ data "tagLine" identity_only = Some (Str (acc_tagLine accountData)))
  /\ (lookup server Summoner.serverEndpoints = None ->
      ~ In server Object_prototype ->
      Summoner.handler env up now req = ([c], identity_only))
  /\ (forall serverEndpoint r',
        lookup server Summoner.serverEndpoints = Some serverEndpoint ->
        summoner_by_puuid up (Valid.summonerCall (acc_puuid accountData) apiKey serverEndpoint)
        = Resolved r' ->
        ok r' = false ->
        Summoner.handler env up now req
        = ([c; Valid.summonerCall (acc_puuid accountData) apiKey serverEndpoint],
           identity_only))
  /\ (forall serverEndpoint e,
        lookup server Summoner.serverEndpoints = Some serverEndpoint ->
        summoner_by_puuid up (Valid.summonerCall (acc_puuid accountData) apiKey serverEndpoint)
        = Rejected e
        \/ (exists r',
              summoner_by_puuid up
                (Valid.summonerCall (acc_puuid accountData) apiKey serverEndpoint)
              = Resolved r'
              /\ ok r' = true /\ json r' = inl e) ->
        Summoner.handler env up now req
        = ([c; Valid.summonerCall (acc_puuid accountData) apiKey serverEndpoint],
           send_json 500
             (Obj [ ("success", Bool false);
                    ("error", Str "Internal server error");
                    ("message", Str (message e)) ])))
  /\ (In server Object_prototype ->
      exists c',
        URL_parses (url c') = false
        /\ Summoner.handler env up now req
           = ([c; c'],
              send_json 500
                (Obj [ ("success", Bool false);
                       ("error", Str "Internal server error");
                       ("message", Str (url_error up (url c'))) ]))).
Proof.
  intros Hvalid Hresp Hok Hjson. cbv zeta.
  pose proof (identity_found env up now req _ _ _ _ Hvalid r accountData Hresp Hok Hjson)
    as Hfound.
  cbv zeta in Hfound.
  split; [exact (identity_only_shape accountData _ _ now) |].
  split; [| split; [| split]].
  - intros Hsrv Hnot. rewrite Hfound, (truthy_text_absent _ _ Hsrv Hnot). reflexivity.
  - intros sep r' Hsrv Hresp' Hok'.
    rewrite Hfound, (truthy_text_own _ _ _ (serverEndpoint_found _ _ Hsrv)).
    rewrite (identity_summoner_answer up _ _ _ _ Hsrv), Hresp', Hok'. reflexivity.
  - intros sep e Hsrv Hcase.
    rewrite Hfound, (truthy_text_own _ _ _ (serverEndpoint_found _ _ Hsrv)).
    rewrite (identity_summoner_answer up _ _ _ _ Hsrv).
    destruct Hcase as [Hrej | (r' & Hresp' & Hok' & Hjson')].
    + rewrite Hrej. reflexivity.
    + rewrite Hresp', Hok', Hjson'. reflexivity.
  - intros Hin.
    destruct (truthy_text_cases (or_default (Summoner.server req) "kr")
                Summoner.serverEndpoints)
      as [Hnone | [(sep & Hsrv & _) | (_ & _ & Htext)]].
    + exfalso. unfold get in Hnone.
      rewrite (inherited_not_server _ Hin) in Hnone.
      apply existsb_eqb_In in Hin. rewrite Hin in Hnone. discriminate Hnone.
    + exfalso. rewrite (inherited_not_server _ Hin) in Hsrv. discriminate Hsrv.
    + exists (Valid.summonerCall (acc_puuid accountData) apiKey
                (member_text (or_default (Summoner.server req) "kr"))).
      split; [exact (summonerCall_unparsable _ _ _ Hin) |].
      rewrite Hfound, Htext.
      rewrite (answer_unparsable up summoner_by_puuid _ (summonerCall_unparsable _ _ _ Hin)).
      reflexivity.
Qed.

Lemma identity_summoner_soft_fail_witness :
  Summoner.handler Sample.env Sample.summoner_missing Sample.now Sample.identity_request
  = ([Valid.accountCall "Hide on bush" "KR1" "RGAPI-key" "asia.api.riotgames.com";
      Valid.summonerCall "puuid-1" "RGAPI-key" "kr.api.riotgames.com"],
     send_json 200 (Summoner.response Sample.account None "asia" "kr" Sample.now)).
Proof.
  refine (proj1 (proj2 (proj2
            (identity_summoner_soft_fail Sample.env Sample.summoner_missing Sample.now
               Sample.identity_request "Hide on bush" "KR1" "RGAPI-key"
               "asia.api.riotgames.com"
               {| status := 200; text := inr "{}"; json := inr Sample.account |}
               Sample.account _ _ _ _)))
            "kr.api.riotgames.com"
            {| status := 404; text := inr "{}"; json := Sample.no_json |} _ _ _);
    try reflexivity.
  sample_identity.
Defined.

(** ** The topology tables *)

Lemma regionEndpoints_recognised k :
  lookup k Summoner.regionEndpoints <> None <-> In k ["americas"; "asia"; "europe"; "sea"].
Proof.
  cbn. split.
  - repeat match goal with
           | |- context [String.eqb k ?s] =>
               destruct (String.eqb_spec k s) as [-> | _];
               [intros _; repeat (first [left; reflexivity | right]) |]
           end.
    intros H. congruence.
  - intros H.
    repeat (destruct H as [<- | H]; [cbn; discriminate |]). contradiction.
Qed.

Lemma serverEndpoints_recognised k :
  lookup k Rank.serverEndpoints <> None
  <-> In k ["kr"; "jp1"; "na1"; "br1"; "lan"; "las"; "oc1"; "euw1"; "eun1"; "tr1"; "ru"].
Proof.
  cbn. split.
  - repeat match goal with
           | |- context [String.eqb k ?s] =>
               destruct (String.eqb_spec k s) as [-> | _];
               [intros _; repeat (first [left; reflexivity | right]) |]
           end.
    intros H. congruence.
  - intros H.
    repeat (destruct H as [<- | H]; [cbn; discriminate |]). contradiction.
Qed.

(** C6: the check of the region or server key does not stop a key that
    names a member inherited from [Object.prototype].  With
    [region=constructor] the identity flow finds a truthy endpoint (the
    inherited function), invokes [fetch] on a URL whose host is the text
    of that function, and answers the rejection with status 500 and
    "Internal server error": the reply is not the status-400 "Invalid
    region" envelope and carries no list of valid regions.  The same
    happens in the rank flow with [server=hasOwnProperty]. *)
Theorem inherited_key_not_rejected :
  (forall up now,
      let req := {| Summoner.method := "GET";
                    Summoner.params := Some ["Hide%20on%20bush"; "KR1"];
                    Summoner.region := Some "constructor";
                    Summoner.server := None |} in
      let c := Valid.accountCall "Hide on bush" "KR1" "RGAPI-key"
                 "function Object() { [native code] }" in
      let sent := snd (Summoner.handler Sample.env up now req) in
      lookup "constructor" Summoner.regionEndpoints = None
      /\ fst (Summoner.handler Sample.env up now req) = [c]
      /\ sent = send_json 500
                  (Obj [ ("success", Bool false);
                         ("error", Str "Internal server error");
                         ("message", Str (url_error up (url c))) ])
      /\ error sent <> Some (Str "Invalid region")
      /\ (exists v, body sent = Some v /\ prop "validRegions" v = None))
  /\ (forall up now,
        let req := {| Rank.method := "GET"; Rank.puuid := Some "puuid-1";
                      Rank.server := Some "hasOwnProperty" |} in
        let c := Valid.summonerCall "puuid-1" "RGAPI-key"
                   "function hasOwnProperty() { [native code] }" in
        let sent := snd (Rank.handler Sample.env up now req) in
        lookup "hasOwnProperty" Rank.serverEndpoints = None
        /\ fst (Rank.handler Sample.env up now req) = [c]
        /\ sent = send_json 500
                    (Obj [ ("success", Bool false);
                           ("error", Str "Internal server error");
                           ("message", Str (url_error up (url c))) ])
        /\ error sent <> Some (Str "Invalid server")).
Proof.
  split; intros up now; cbv zeta.
  - split; [reflexivity |]. split; [reflexivity |]. split; [reflexivity |].
    split; [| eexists; split; reflexivity].
    intros H. vm_compute in H. discriminate H.
  - split; [reflexivity |]. split; [reflexivity |]. split; [reflexivity |].
    intros H. vm_compute in H. discriminate H.
Qed.

(** X27: in both flows a GET request with a missing input (no two path
    segments, or no PUUID), a missing key, or a region key (identity flow)
    or server key (rank flow) that is neither in the table nor a name
    inherited from [Object.prototype] is answered by a failure envelope
    without any call being made.  When the earlier checks pass, such a key
    is answered with status 400, "Invalid region" or "Invalid server", and
    the list of valid keys, which is exactly the keys of the table:
    americas, asia, europe, sea for regions, and kr, jp1, na1, br1, lan,
    las, oc1, euw1, eun1, tr1, ru for servers. *)
Theorem stopped_before_any_call :
  (forall env up now req,
      Summoner.method req = "GET" ->
      Summoner.params req = None
      \/ (exists params, Summoner.params req = Some params /\ (List.length params < 2)%nat)
      \/ truthy (RIOT_API_KEY env) = None
      \/ (lookup (or_default (Summoner.region req) "asia") Summoner.regionEndpoints = None
          /\ ~ In (or_default (Summoner.region req) "asia") Object_prototype) ->
      fst (Summoner.handler env up now req) = []
      /\ failure (snd (Summoner.handler env up now req)))
  /\ (forall env up now req params gameName tagLine apiKey,
        Summoner.method req = "GET" ->
        Summoner.params req = Some params ->
        (2 <= List.length params)%nat ->
        decodeURIComponent (nth 0 params "") = inr gameName ->
        decodeURIComponent (nth 1 params "") = inr tagLine ->
        truthy (RIOT_API_KEY env) = Some apiKey ->
        lookup (or_default (Summoner.region req) "asia") Summoner.regionEndpoints = None ->
        ~ In (or_default (Summoner.region req) "asia") Object_prototype ->
        Summoner.handler env up now req
        = ([], send_json 400
                 (Obj [ ("success", Bool false);
                        ("error", Str "Invalid region");
                        ("validRegions",
                         Arr [Str "americas"; Str "asia"; Str "europe"; Str "sea"]) ])))
  /\ (forall k,
        lookup k Summoner.regionEndpoints <> None
        <-> In k ["americas"; "asia"; "europe"; "sea"])
  /\ (forall env up now req,
        Rank.method req = "GET" ->
        truthy (Rank.puuid req) = None
        \/ truthy (RIOT_API_KEY env) = None
        \/ (lookup (or_default (Rank.server req) "kr") Rank.serverEndpoints = None
            /\ ~ In (or_default (Rank.server req) "kr") Object_prototype) ->
        fst (Rank.handler env up now req) = []
        /\ failure (snd (Rank.handler env up now req)))
  /\ (forall env up now req puuid apiKey,
        Rank.method req = "GET" ->
        truthy (Rank.puuid req) = Some puuid ->
        truthy (RIOT_API_KEY env) = Some apiKey ->
        lookup (or_default (Rank.server req) "kr") Rank.serverEndpoints = None ->
        ~ In (or_default (Rank.server req) "kr") Object_prototype ->
        Rank.handler env up now req
        = ([], send_json 400
                 (Obj [ ("success", Bool false);
                        ("error", Str "Invalid server");
                        ("validServers",
                         Arr [ Str "kr"; Str "jp1"; Str "na1"; Str "br1"; Str "lan";
                               Str "las"; Str "oc1"; Str "euw1"; Str "eun1"; Str "tr1";
                               Str "ru" ]) ])))
  /\ (forall k,
        lookup k Rank.serverEndpoints <> None
        <-> In k ["kr"; "jp1"; "na1"; "br1"; "lan"; "las"; "oc1"; "euw1"; "eun1"; "tr1"; "ru"]).
Proof.
  split; [| split; [| split; [| split; [| split]]]].
  - intros env up now req Hget Hcase.
    destruct (identity_stopped env req Hget)
      as [(g & t & k & ep & _ & (ps & Hps & Hlen & _) & Hkey & Hreg)
         | [(sent & Hf & _ & Hsent) | (c & _ & Hin & Hthrown & _)]];
      [exfalso | rewrite Hsent; split; [reflexivity | exact Hf] |].
    + destruct Hcase as [Hnone | [(ps' & Hps' & Hlen') | [Hnokey | (Hnoreg & _)]]].
      * congruence.
      * assert (ps' = ps) by congruence. subst ps'. lia.
      * congruence.
      * rewrite Hnoreg in Hreg. discriminate Hreg.
    + destruct Hcase as [Hnone | [(ps' & Hps' & Hlen') | [Hnokey | (_ & Hnot)]]];
        [| | | contradiction];
        revert Hthrown; unfold Summoner.handler, Summoner.attempt; rewrite Hget;
        cbn [String.eqb Ascii.eqb Bool.eqb negb].
      * rewrite Hnone. intros H. specialize (H up now). discriminate H.
      * rewrite Hps'. destruct (Nat.ltb_spec (List.length ps') 2) as [_ | Hge]; [| lia].
        intros H. specialize (H up now). discriminate H.
      * destruct (Summoner.params req) as [ps |];
          [| intros H; specialize (H up now); discriminate H].
        destruct (List.length ps <? 2)%nat;
          [intros H; specialize (H up now); discriminate H |].
        destruct (decodeURIComponent (nth 0 ps "")) as [e | g];
          [intros H; specialize (H up now); discriminate H |].
        destruct (decodeURIComponent (nth 1 ps "")) as [e | t];
          [intros H; specialize (H up now); discriminate H |].
        rewrite !bind_lift_inr, Hnokey.
        intros H; specialize (H up now); discriminate H.
  - intros env up now req ps g t k Hget Hps Hlen Hg Ht Hkey Hreg Hnot.
    unfold Summoner.handler, Summoner.attempt. rewrite Hget.
    cbn [String.eqb Ascii.eqb Bool.eqb negb]. rewrite Hps.
    destruct (Nat.ltb_spec (List.length ps) 2) as [Hlt | _]; [lia |].
    rewrite Hg, Ht, !bind_lift_inr, Hkey, (truthy_text_absent _ _ Hreg Hnot). reflexivity.
  - exact regionEndpoints_recognised.
  - intros env up now req Hget Hcase.
    destruct (rank_stopped env req Hget)
      as [(p & k & ep & _ & Hp & Hkey & Hsrv)
         | [(sent & Hf & _ & Hsent) | (c & _ & Hin & Hthrown & _)]];
      [exfalso | rewrite Hsent; split; [reflexivity | exact Hf] |].
    + destruct Hcase as [Hnone | [Hnokey | (Hnosrv & _)]].
      * congruence.
      * congruence.
      * rewrite Hnosrv in Hsrv. discriminate Hsrv.
    + destruct Hcase as [Hnone | [Hnokey | (_ & Hnot)]]; [| | contradiction];
        revert Hthrown; unfold Rank.handler, Rank.attempt; rewrite Hget;
        cbn [String.eqb Ascii.eqb Bool.eqb negb].
      * rewrite Hnone. intros H. specialize (H up now). discriminate H.
      * destruct (truthy (Rank.puuid req));
          [| intros H; specialize (H up now); discriminate H].
        rewrite Hnokey. intros H; specialize (H up now); discriminate H.
  - intros env up now req p k Hget Hp Hkey Hsrv Hnot.
    unfold Rank.handler, Rank.attempt. rewrite Hget.
    cbn [String.eqb Ascii.eqb Bool.eqb negb].
    rewrite Hp, Hkey, (truthy_text_absent _ _ Hsrv Hnot). reflexivity.
  - exact serverEndpoints_recognised.
Qed.

Lemma stopped_before_any_call_witness :
  let req := {| Summoner.method := "GET";
                Summoner.params := Some ["Hide%20on%20bush"; "KR1"];
                Summoner.region := Some "korea";
                Summoner.server := None |} in
  Summoner.handler Sample.env Sample.found_everything Sample.now req
  = ([], send_json 400
           (Obj [ ("success", Bool false);
                  ("error", Str "Invalid region");
                  ("validRegions",
                   Arr [Str "americas"; Str "asia"; Str "europe"; Str "sea"]) ])).
Proof.
  intros req.
  refine (proj1 (proj2 stopped_before_any_call) Sample.env Sample.found_everything Sample.now req
            ["Hide%20on%20bush"; "KR1"] "Hide on bush" "KR1" "RGAPI-key" _ _ _ _ _ _ _ _);
    try reflexivity.
  cbn. intuition discriminate.
Defined.

(** ** The tier table and the summary *)

Lemma ordinal_unrecognised tier :
  ~ In (Rank.key_of tier)
       ["IRON"; "BRONZE"; "SILVER"; "GOLD"; "PLATINUM"; "EMERALD"; "DIAMOND"; "MASTER";
        "GRANDMASTER"; "CHALLENGER"] ->
  Tier.ordinal tier = 0.
Proof.
  unfold Tier.ordinal. generalize (Rank.key_of tier). intros k Hk. cbn.
  repeat match goal with
         | |- context [String.eqb k ?s] =>
             destruct (String.eqb_spec k s) as [-> | _];
             [exfalso; apply Hk; repeat (first [left; reflexivity | right]) |]
         end.
  reflexivity.
Qed.

(** For a tier that is no inherited name, [getTierValue] is the ordinal. *)
Lemma getTierValue_plain tier :
  Tier.plain tier -> Rank.getTierValue tier = Rank.Ordinal (Tier.ordinal tier).
Proof.
  unfold Tier.plain, Rank.getTierValue, Tier.ordinal, get. intros Hplain.
  destruct (lookup (Rank.key_of tier) Rank.tierValues) as [v |].
  - destruct (Z.eqb_spec v 0) as [-> | _]; reflexivity.
  - destruct (existsb (String.eqb (Rank.key_of tier)) Object_prototype) eqn:Hin;
      [| reflexivity].
    apply existsb_eqb_In in Hin. contradiction.
Qed.

(** For an inherited name it is the inherited member. *)
Lemma getTierValue_inherited tier :
  In (Rank.key_of tier) Object_prototype ->
  Rank.getTierValue tier = Rank.Member (Rank.key_of tier).
Proof.
  intros Hin. unfold Rank.getTierValue, get.
  assert (Hlook : lookup (Rank.key_of tier) Rank.tierValues = None).
  { revert Hin. generalize (Rank.key_of tier). intros k Hin. cbn in Hin.
    repeat (destruct Hin as [<- | Hin]; [reflexivity |]). destruct Hin. }
  rewrite Hlook. apply existsb_eqb_In in Hin. rewrite Hin. reflexivity.
Qed.

Lemma higher_plain highest current :
  Tier.plain (Rank.tier highest) -> Tier.plain (Rank.tier current) ->
  Rank.higher highest current
  = if Tier.ordinal (Rank.tier current) >? Tier.ordinal (Rank.tier highest)
    then current else highest.
Proof.
  intros Hh Hc. unfold Rank.higher.
  rewrite (getTierValue_plain _ Hh), (getTierValue_plain _ Hc). reflexivity.
Qed.

(** What [reduce] leaves after folding [others] into [first], when no
    tier is an inherited name: an element of the list whose ordinal no
    element exceeds and no earlier element reaches. *)
Lemma fold_higher others :
  forall first,
  Forall (fun e => Tier.plain (Rank.tier e)) (first :: others) ->
  exists i,
    nth_error (first :: others) i = Some (fold_left Rank.higher others first)
    /\ (forall e, In e (first :: others) ->
          Tier.ordinal (Rank.tier e)
          <= Tier.ordinal (Rank.tier (fold_left Rank.higher others first)))
    /\ (forall j e, (j < i)%nat -> nth_error (first :: others) j = Some e ->
          Tier.ordinal (Rank.tier e)
          < Tier.ordinal (Rank.tier (fold_left Rank.higher others first))).
Proof.
  induction others as [| x others IH] using rev_ind; intros first Hplain.
  - exists 0%nat. cbn. split; [reflexivity |]. split.
    + intros e [<- | []]. lia.
    + intros j e Hj. lia.
  - change (first :: others ++ [x])%list with ((first :: others) ++ [x])%list in Hplain.
    apply Forall_app in Hplain. destruct Hplain as (Hplain & Hx).
    apply Forall_inv in Hx.
    destruct (IH first Hplain) as (i & Hnth & Hmax & Hfirst).
    rewrite fold_left_app. cbn [fold_left].
    set (best := fold_left Rank.higher others first) in *.
    assert (Hbest : Tier.plain (Rank.tier best)).
    { rewrite Forall_forall in Hplain. apply Hplain. exact (nth_error_In _ _ Hnth). }
    assert (Hi : (i < List.length (first :: others))%nat)
      by (apply nth_error_Some; rewrite Hnth; discriminate).
    rewrite (higher_plain best x Hbest Hx).
    destruct (Z.gtb_spec (Tier.ordinal (Rank.tier x))
                (Tier.ordinal (Rank.tier best))) as [Hgt | Hle].
    + exists (List.length (first :: others)).
      change (first :: others ++ [x])%list with ((first :: others) ++ [x])%list.
      split; [| split].
      * rewrite nth_error_app2 by lia. rewrite Nat.sub_diag. reflexivity.
      * intros e He. apply in_app_or in He. destruct He as [He | [<- | []]].
        -- specialize (Hmax e He). lia.
        -- lia.
      * intros j e Hj He. rewrite nth_error_app1 in He by exact Hj.
        apply nth_error_In in He. specialize (Hmax e He). lia.
    + exists i.
      change (first :: others ++ [x])%list with ((first :: others) ++ [x])%list.
      split; [| split].
      * rewrite nth_error_app1 by exact Hi. exact Hnth.
      * intros e He. apply in_app_or in He. destruct He as [He | [<- | []]].
        -- exact (Hmax e He).
        -- lia.
      * intros j e Hj He. rewrite nth_error_app1 in He by lia.
        exact (Hfirst j e Hj He).
Qed.

(** C2: "any unrecognised tier counts 0" does not hold of the code for a
    tier that names a member inherited from [Object.prototype]:
    [getTierValue] returns the inherited member, which is neither greater
    nor smaller than any number.  For the tiers [constructor, GOLD] the
    summary's [highestTier] is "constructor", not GOLD, and it depends on
    the order of the entries. *)
Theorem highestTier_inherited_tier :
  Rank.getTierValue (Some "constructor") = Rank.Member "constructor"
  /\ Rank.getTierValue (Some "constructor") <> Rank.Ordinal 0
  /\ Rank.greater (Rank.getTierValue (Some "GOLD")) (Rank.getTierValue (Some "constructor"))
     = false
  /\ Rank.highestTier
       (Rank.summary [Queue.solo (Some "constructor"); Queue.flex (Some "GOLD")])
     = Str "constructor"
  /\ Rank.highestTier
       (Rank.summary [Queue.flex (Some "GOLD"); Queue.solo (Some "constructor")])
     = Str "GOLD".
Proof.
  split; [reflexivity |]. split; [discriminate |]. repeat split.
Qed.

(** X28: for every list of processed entries none of whose tiers is a name
    inherited from [Object.prototype], [totalRankedQueues] is the length of
    the list; [highestTier] is [null] for the empty list and otherwise the
    tier of the first entry that attains the greatest ordinal, where
    IRON=1, BRONZE=2, SILVER=3, GOLD=4, PLATINUM=5, EMERALD=6, DIAMOND=7,
    MASTER=8, GRANDMASTER=9, CHALLENGER=10 and any other or absent tier
    counts 0; for such tiers [getTierValue] is that ordinal; for tiers
    SILVER, DIAMOND, GOLD the [highestTier] is DIAMOND. *)
Theorem rank_summary_spec (processedRanks : list Rank.RankEntry) :
  Forall (fun e => Tier.plain (Rank.tier e)) processedRanks ->
  Rank.totalRankedQueues (Rank.summary processedRanks) = List.length processedRanks
  /\ (processedRanks = [] ->
      Rank.highestTier (Rank.summary processedRanks) = Null
      /\ Rank.totalRankedQueues (Rank.summary processedRanks) = 0%nat)
  /\ (processedRanks <> [] ->
      exists i e,
        nth_error processedRanks i = Some e
        /\ Rank.highestTier (Rank.summary processedRanks) = Rank.optional (Rank.tier e)
        /\ (forall e', In e' processedRanks ->
              Tier.ordinal (Rank.tier e') <= Tier.ordinal (Rank.tier e))
        /\ (forall j e', (j < i)%nat -> nth_error processedRanks j = Some e' ->
              Tier.ordinal (Rank.tier e') < Tier.ordinal (Rank.tier e)))
  /\ (forall e, In e processedRanks ->
        Rank.getTierValue (Rank.tier e) = Rank.Ordinal (Tier.ordinal (Rank.tier e)))
  /\ (map Tier.ordinal
        [ Some "IRON"; Some "BRONZE"; Some "SILVER"; Some "GOLD"; Some "PLATINUM";
          Some "EMERALD"; Some "DIAMOND"; Some "MASTER"; Some "GRANDMASTER";
          Some "CHALLENGER" ]
      = [1; 2; 3; 4; 5; 6; 7; 8; 9; 10])
  /\ (forall tier,
        ~ In (Rank.key_of tier)
             ["IRON"; "BRONZE"; "SILVER"; "GOLD"; "PLATINUM"; "EMERALD"; "DIAMOND";
              "MASTER"; "GRANDMASTER"; "CHALLENGER"] ->
        Tier.ordinal tier = 0)
  /\ Tier.ordinal None = 0
  /\ (map Rank.tier processedRanks = [Some "SILVER"; Some "DIAMOND"; Some "GOLD"] ->
      Rank.highestTier (Rank.summary processedRanks) = Str "DIAMOND").
Proof.
  intros Hplain.
  split; [reflexivity |].
  split; [intros ->; split; reflexivity |].
  split.
  { destruct processedRanks as [| first others]; [intros H; contradiction |].
    intros _. destruct (fold_higher others first Hplain) as (i & Hnth & Hmax & Hfirst).
    exists i, (fold_left Rank.higher others first).
    repeat split; assumption. }
  split.
  { intros e He. apply getTierValue_plain.
    rewrite Forall_forall in Hplain. exact (Hplain e He). }
  split; [reflexivity |].
  split; [exact ordinal_unrecognised |].
  split; [reflexivity |].
  intros Htiers.
  destruct processedRanks as [| a [| b [| c [| d rest]]]]; try discriminate Htiers.
  injection Htiers as Ha Hb Hc.
  cbn. unfold Rank.higher. rewrite Ha, Hb. cbn. rewrite Hb, Hc. cbn. rewrite Hb.
  reflexivity.
Qed.

Lemma rank_summary_spec_witness :
  Rank.highestTier
    (Rank.summary [Queue.solo (Some "SILVER"); Queue.flex (Some "DIAMOND");
                   Queue.solo (Some "GOLD")])
  = Str "DIAMOND".
Proof.
  refine (proj2 (proj2 (proj2 (proj2 (proj2 (proj2 (proj2
            (rank_summary_spec
               [Queue.solo (Some "SILVER"); Queue.flex (Some "DIAMOND");
                Queue.solo (Some "GOLD")] _))))))) eq_refl).
  repeat constructor; unfold Tier.plain; cbn; intuition discriminate.
Defined.

(** ** Binary64 arithmetic: digits and shifts

    [Prim2SF] relates each primitive operation to its specification
    ([SFdiv], [SFmul], [SFadd]), all built on [binary_round_aux]: shift the
    mantissa right to 53 bits, keeping a round and a sticky bit, then round
    to nearest even.  The lemmas below follow this construction for
    numbers in the normal range. *)

(** The number of binary digits of a positive number. *)
Lemma digits2_pos_size p : digits2_pos p = Pos.size p.
Proof. induction p; cbn; congruence. Qed.

Lemma digits_bounds (p : positive) :
  2 ^ (Zpos (digits2_pos p) - 1) <= Zpos p < 2 ^ Zpos (digits2_pos p).
Proof.
  rewrite digits2_pos_size.
  pose proof (Pos.size_gt p) as Hgt. pose proof (Pos.size_le p) as Hle.
  apply Pos2Z.pos_lt_pos in Hgt. apply Pos2Z.pos_le_pos in Hle.
  rewrite Pos2Z.inj_pow in Hgt, Hle.
  split; [| exact Hgt].
  replace (Z.pos (Pos.size p)) with (Z.succ (Z.pos (Pos.size p) - 1)) in Hle by lia.
  rewrite Z.pow_succ_r in Hle by lia. lia.
Qed.

Lemma digits_unique (p : positive) (d : Z) :
  2 ^ (d - 1) <= Zpos p < 2 ^ d -> Zpos (digits2_pos p) = d.
Proof.
  intros [Hlo Hhi]. destruct (digits_bounds p) as [Hlo' Hhi'].
  assert (0 < d).
  { destruct d as [| d | d]; [cbn in Hhi; lia | lia | rewrite Z.pow_neg_r in Hhi; lia]. }
  destruct (Z.lt_trichotomy (Zpos (digits2_pos p)) d) as [Hlt | [Heq | Hgt]]; [| exact Heq |].
  - assert (2 ^ Zpos (digits2_pos p) <= 2 ^ (d - 1)) by (apply Z.pow_le_mono_r; lia). lia.
  - assert (2 ^ d <= 2 ^ (Zpos (digits2_pos p) - 1)) by (apply Z.pow_le_mono_r; lia). lia.
Qed.

(** Iterating over a positive is iterating over its value. *)
Lemma iter_pos_nat {A} (f : A -> A) p :
  forall x, SpecFloat.iter_pos f p x = @Nat.iter (Pos.to_nat p) A f x.
Proof.
  induction p as [p IH | p IH |]; intros x; cbn [SpecFloat.iter_pos].
  - rewrite !IH. rewrite Pos2Nat.inj_xI.
    replace (S (2 * Pos.to_nat p))%nat with (Pos.to_nat p + (Pos.to_nat p + 1))%nat by lia.
    rewrite !Nat.iter_add. cbn. reflexivity.
  - rewrite !IH. rewrite Pos2Nat.inj_xO.
    replace (2 * Pos.to_nat p)%nat with (Pos.to_nat p + Pos.to_nat p)%nat by lia.
    rewrite Nat.iter_add. reflexivity.
  - reflexivity.
Qed.

Ltac cases :=
  repeat match goal with
         | |- context [Z.leb ?a ?b] => destruct (Z.leb_spec a b)
         | |- context [Z.eqb ?a ?b] => destruct (Z.eqb_spec a b)
         end.

(** One right shift halves the mantissa, moves its low bit to the round
    bit and folds the old round bit into the sticky bit. *)
Lemma shr_1_m m r s :
  0 <= m -> shr_m (shr_1 {| shr_m := m; shr_r := r; shr_s := s |}) = m / 2.
Proof.
  intros Hm. destruct m as [| [p | p |] | p]; cbn; try reflexivity; try lia.
  - rewrite Pos2Z.inj_xI. apply Z.div_unique with 1; lia.
  - rewrite Pos2Z.inj_xO. apply Z.div_unique with 0; lia.
Qed.

Lemma shr_1_r m r s :
  0 <= m -> shr_r (shr_1 {| shr_m := m; shr_r := r; shr_s := s |}) = Z.odd m.
Proof.
  intros Hm. destruct m as [| [p | p |] | p]; cbn; try reflexivity; try lia.
Qed.

Lemma shr_1_s m r s : shr_s (shr_1 {| shr_m := m; shr_r := r; shr_s := s |}) = r || s.
Proof. destruct m as [| [p | p |] | [p | p |]]; reflexivity. Qed.

(** A shifted record locates the same numerator over twice the denominator. *)
Lemma located_shr_1 N D rec :
  0 <= N -> 0 < D -> located N D rec -> located N (2 * D) (shr_1 rec).
Proof.
  intros HN HD (Hm & Hr & Hs). destruct rec as [m r s].
  cbn [shr_m shr_r shr_s] in Hm, Hr, Hs.
  assert (Hq : 0 <= N / D) by (apply Z.div_pos; lia).
  pose proof (Z.mod_pos_bound N D HD) as Hrho.
  pose proof (Z.div_mod N D ltac:(lia)) as HND.
  set (q := N / D) in *. set (rho := N mod D) in *.
  pose proof (Z.div_mod q 2 ltac:(lia)) as Hq2.
  pose proof (Z.mod_pos_bound q 2 ltac:(lia)) as Hq2b.
  assert (Hdiv : N / (2 * D) = q / 2).
  { symmetry. apply Z.div_unique with (D * (q mod 2) + rho); nia. }
  assert (Hmod : N mod (2 * D) = D * (q mod 2) + rho).
  { symmetry. apply Z.mod_unique with (q / 2); nia. }
  unfold located. rewrite shr_1_m, shr_1_r, shr_1_s by lia.
  rewrite Hdiv, Hmod. subst m r s.
  split; [reflexivity |].
  rewrite Zodd_mod.
  assert (Hcase : q mod 2 = 0 \/ q mod 2 = 1) by lia.
  split; destruct Hcase as [H | H]; rewrite H; cases; cbn; try reflexivity; lia.
Qed.

Lemma located_iter N D rec (k : nat) :
  0 <= N -> 0 < D -> located N D rec ->
  located N (D * 2 ^ Z.of_nat k) (@Nat.iter k shr_record shr_1 rec).
Proof.
  intros HN HD Hloc. induction k as [| k IH].
  - cbn. rewrite Z.mul_1_r. exact Hloc.
  - cbn [Nat.iter]. rewrite Nat2Z.inj_succ, Z.pow_succ_r by lia.
    replace (D * (2 * 2 ^ Z.of_nat k)) with (2 * (D * 2 ^ Z.of_nat k)) by lia.
    apply located_shr_1; [lia | | exact IH].
    assert (0 < 2 ^ Z.of_nat k) by (apply Z.pow_pos_nonneg; lia). nia.
Qed.

Lemma located_shr N D rec e n :
  0 <= N -> 0 < D -> 0 <= n -> located N D rec ->
  located N (D * 2 ^ n) (fst (shr rec e n)) /\ snd (shr rec e n) = e + n.
Proof.
  intros HN HD Hn Hloc. destruct n as [| p | p]; [| | lia].
  - cbn. rewrite Z.mul_1_r, Z.add_0_r. split; [exact Hloc | reflexivity].
  - cbn [shr fst snd]. split; [| reflexivity].
    rewrite iter_pos_nat. rewrite <- (positive_nat_Z p). apply located_iter; assumption.
Qed.

(** Rounding to nearest, ties to even: the result is within half a unit of
    the located quotient, and equal to it when the division is exact. *)
Lemma round_located N D rec :
  0 <= N -> 0 < D -> located N D rec ->
  let m := round_nearest_even (shr_m rec) (loc_of_shr_record rec) in
  2 * Z.abs (m * D - N) <= D
  /\ N / D <= m <= N / D + 1
  /\ (N mod D = 0 -> m * D = N).
Proof.
  intros HN HD (Hm & Hr & Hs). destruct rec as [m r s].
  cbn [shr_m shr_r shr_s] in Hm, Hr, Hs.
  pose proof (Z.mod_pos_bound N D HD) as Hrho.
  pose proof (Z.div_mod N D ltac:(lia)) as HND.
  set (q := N / D) in *. set (rho := N mod D) in *.
  cbn [shr_m]. subst m.
  destruct r, s; cbn [loc_of_shr_record round_nearest_even];
    destruct (Z.leb_spec D (2 * rho)); try discriminate Hr;
    destruct (Z.eqb_spec rho 0); destruct (Z.eqb_spec (2 * rho) D);
      try discriminate Hs; try lia;
    try (destruct (Z.even q)); repeat split; try nia.
Qed.

(** ** Rounding in the normal range *)

Lemma fexp_normal e : -1074 <= e - 53 -> fexp prec emax e = e - 53.
Proof. unfold fexp, emin, prec, emax. lia. Qed.

Lemma Zdigits2_pos (m : Z) (d : Z) :
  0 < m -> 2 ^ (d - 1) <= m < 2 ^ d -> Zdigits2 m = d.
Proof.
  intros Hm H. destruct m as [| p | p]; try lia. cbn. apply digits_unique. exact H.
Qed.

Lemma Zdigits2_bounds (m : Z) :
  0 < m -> 2 ^ (Zdigits2 m - 1) <= m < 2 ^ Zdigits2 m.
Proof.
  intros Hm. destruct m as [| p | p]; try lia. cbn [Zdigits2]. apply digits_bounds.
Qed.

Lemma located_of_loc_m N D m l :
  located N D (shr_record_of_loc m l) -> m = N / D.
Proof. intros (Hm & _). destruct l as [| []]; exact Hm. Qed.

Lemma pow2_split a b : 0 <= a -> 0 <= b -> 2 ^ (a + b) = 2 ^ a * 2 ^ b.
Proof. intros. apply Z.pow_add_r; assumption. Qed.

(** Rounding the quotient [N / D] scaled by [2 ^ ex], given by its integer
    part [mx] (of at least 53 bits) and the location of the rest: the
    result is a normal number [m * 2 ^ e] with [e = ex + k], whose distance
    to the exact value is at most 2^-53 of that value, and which is the
    exact value when that is representable. *)
Lemma binary_round_aux_normal s N D mx ex lx :
  0 < D ->
  0 < mx ->
  located N D (shr_record_of_loc mx lx) ->
  53 <= Zdigits2 mx ->
  -1074 <= Zdigits2 mx + ex - 53 <= 970 ->
  exists m e k,
    binary_round_aux prec emax s mx ex lx = S754_finite s m e
    /\ 2 ^ 52 <= Zpos m < 2 ^ 53
    /\ 0 <= k
    /\ e = ex + k
    /\ Zdigits2 mx - 53 <= k <= Zdigits2 mx - 52
    /\ 2 ^ 53 * Z.abs (Zpos m * 2 ^ k * D - N) <= N
    /\ (N mod (D * 2 ^ (Zdigits2 mx - 53)) = 0 -> Zpos m * 2 ^ k * D = N).
Proof.
  intros HD Hmx Hloc Hd Hrange.
  pose proof (located_of_loc_m _ _ _ _ Hloc) as Hq.
  assert (HN : 0 <= N).
  { destruct (Z.le_gt_cases 0 N) as [H | H]; [exact H |].
    assert (N / D < 0) by (apply Z.div_lt_upper_bound; lia). lia. }
  set (d := Zdigits2 mx) in *. set (n := d - 53).
  assert (Hn : 0 <= n) by lia.
  pose proof (Zdigits2_bounds mx Hmx) as Hmxb. fold d in Hmxb.
  assert (HT : 0 < 2 ^ n) by (apply Z.pow_pos_nonneg; lia).
  assert (Hd1 : 2 ^ (d - 1) = 2 ^ 52 * 2 ^ n).
  { replace (d - 1) with (52 + n) by lia. apply pow2_split; lia. }
  assert (Hd2 : 2 ^ d = 2 ^ 53 * 2 ^ n).
  { replace d with (53 + n) at 1 by lia. apply pow2_split; lia. }
  unfold binary_round_aux, shr_fexp. fold d.
  rewrite fexp_normal by lia.
  replace (d + ex - 53 - ex) with n by lia.
  destruct (located_shr N D (shr_record_of_loc mx lx) ex n HN HD Hn Hloc) as [Hloc1 He1].
  destruct (shr (shr_record_of_loc mx lx) ex n) as [rec1 e1]. cbn [fst snd] in Hloc1, He1.
  assert (HD' : 0 < D * 2 ^ n) by nia.
  destruct (round_located N (D * 2 ^ n) rec1 HN HD' Hloc1) as (Herr & Hm1 & Hexact).
  set (m1 := round_nearest_even (shr_m rec1) (loc_of_shr_record rec1)) in *.
  assert (Hquot : N / (D * 2 ^ n) = mx / 2 ^ n).
  { rewrite Hq. rewrite Z.div_div by lia. reflexivity. }
  assert (Hlo : 2 ^ 52 <= mx / 2 ^ n) by (apply Z.div_le_lower_bound; lia).
  assert (Hhi : mx / 2 ^ n < 2 ^ 53) by (apply Z.div_lt_upper_bound; lia).
  assert (HND : mx * D <= N).
  { rewrite Hq. pose proof (Z.mul_div_le N D HD). lia. }
  assert (Hm1b : 2 ^ 52 <= m1 <= 2 ^ 53) by lia.
  assert (Hrel : 2 ^ 53 * Z.abs (m1 * 2 ^ n * D - N) <= N).
  { replace (m1 * 2 ^ n * D) with (m1 * (D * 2 ^ n)) by ring.
    assert (2 ^ 52 * 2 ^ n * D <= N) by nia. lia. }
  destruct (Z.eq_dec m1 (2 ^ 53)) as [Heq | Hne].
  - (* the mantissa overflowed into the next binade *)
    rewrite Heq.
    assert (Hdig : Zdigits2 (2 ^ 53) = 54) by reflexivity. rewrite Hdig.
    rewrite fexp_normal by lia.
    replace (54 + e1 - 53 - e1) with 1 by lia.
    cbn [shr shr_record_of_loc SpecFloat.iter_pos shr_1 shr_m].
    change (shr_m (shr_1 {| shr_m := 2 ^ 53; shr_r := false; shr_s := false |}))
      with (Z.pos (2 ^ 52)).
    destruct (Z.leb_spec (e1 + 1) (emax - prec)) as [_ | Hbad];
      [| unfold emax, prec in Hbad; lia].
    exists (2 ^ 52)%positive, (e1 + 1), (n + 1).
    split; [reflexivity |].
    split; [split; [reflexivity | reflexivity] |].
    split; [lia |]. split; [lia |]. split; [lia |].
    assert (Hsame : Z.pos (2 ^ 52) * 2 ^ (n + 1) * D = m1 * 2 ^ n * D).
    { rewrite Heq, Z.pow_add_r by lia. change (Z.pos (2 ^ 52)) with (2 ^ 52).
      change (2 ^ 53) with (2 ^ 52 * 2). change (2 ^ 1) with 2. ring. }
    rewrite Hsame. split; [exact Hrel |].
    intros H0. fold n in H0. specialize (Hexact H0). lia.
  - assert (Hm1pos : 0 < m1) by lia.
    assert (Hdig : Zdigits2 m1 = 53) by (apply Zdigits2_pos; [lia | change (53 - 1) with 52; lia]).
    rewrite Hdig. rewrite fexp_normal by lia.
    replace (53 + e1 - 53 - e1) with 0 by lia.
    cbn [shr shr_record_of_loc shr_m].
    destruct m1 as [| p | p] eqn:Hp; try lia.
    destruct (Z.leb_spec e1 (emax - prec)) as [_ | Hbad];
      [| unfold emax, prec in Hbad; lia].
    exists p, e1, n.
    split; [reflexivity |].
    split; [lia |]. split; [lia |]. split; [lia |]. split; [lia |].
    split; [exact Hrel |].
    intros H0. fold n in H0. specialize (Hexact H0). lia.
Qed.

(** ** Products, quotients and sums of normal numbers *)


Lemma normal_digits m : normal m -> Zpos (digits2_pos m) = 53.
Proof. intros H. apply digits_unique. exact H. Qed.

Lemma located_exact N m : m = N -> located N 1 (shr_record_of_loc m loc_Exact).
Proof.
  intros ->. unfold located. cbn [shr_record_of_loc shr_m shr_r shr_s].
  rewrite Z.div_1_r, Z.mod_1_r. repeat split.
Qed.

(** The product of two normal numbers. *)
Lemma SFmul_normal sx mx ex sy my ey :
  normal mx -> normal my -> -1000 <= ex + ey <= 800 ->
  exists m e k,
    SFmul prec emax (S754_finite sx mx ex) (S754_finite sy my ey)
    = S754_finite (xorb sx sy) m e
    /\ normal m /\ 0 <= k <= 54 /\ e = ex + ey + k
    /\ 2 ^ 53 * Z.abs (Zpos m * 2 ^ k - Zpos mx * Zpos my) <= Zpos mx * Zpos my.
Proof.
  intros Hx Hy Hrange. unfold normal in *. cbn [SFmul].
  set (N := Z.pos (mx * my)).
  assert (HN : N = Zpos mx * Zpos my) by reflexivity.
  assert (Hlo : 2 ^ 104 <= N) by (change (2 ^ 104) with (2 ^ 52 * 2 ^ 52); nia).
  assert (Hhi : N < 2 ^ 106) by (change (2 ^ 106) with (2 ^ 53 * 2 ^ 53); nia).
  assert (Hd : 105 <= Zdigits2 N <= 106).
  { pose proof (Zdigits2_bounds N ltac:(lia)) as [Hb1 Hb2].
    split.
    - destruct (Z.le_gt_cases 105 (Zdigits2 N)) as [H | H]; [exact H |].
      assert (2 ^ Zdigits2 N <= 2 ^ 104) by (apply Z.pow_le_mono_r; lia). lia.
    - destruct (Z.le_gt_cases (Zdigits2 N) 106) as [H | H]; [exact H |].
      assert (2 ^ 106 <= 2 ^ (Zdigits2 N - 1)) by (apply Z.pow_le_mono_r; lia). lia. }
  destruct (binary_round_aux_normal (xorb sx sy) N 1 N (ex + ey) loc_Exact)
    as (m & e & k & Heq & Hm & Hk & He & Hkd & Herr & _);
    [lia | lia | apply located_exact; reflexivity | lia | lia |].
  exists m, e, k. rewrite Z.mul_1_r in Herr. rewrite <- HN. repeat split; try assumption; lia.
Qed.

(** The location [SFdiv] computes from the remainder of its division. *)
Lemma new_location_located N D :
  0 <= N -> 0 < D ->
  located N D (shr_record_of_loc (N / D) (new_location D (N mod D))).
Proof.
  intros HN HD. pose proof (Z.mod_pos_bound N D HD) as Hr.
  unfold located, new_location, new_location_even, new_location_odd.
  set (r := N mod D) in *.
  assert (Hparity : Z.even D = true \/ Z.even D = false) by (destruct (Z.even D); auto).
  destruct Hparity as [He | He]; rewrite He.
  - destruct (Z.eqb_spec r 0) as [H0 | H0].
    + cbn [shr_record_of_loc shr_m shr_r shr_s]. rewrite H0.
      split; [reflexivity |]. split; cases; cbn; try reflexivity; lia.
    + destruct (Z.compare_spec (2 * r) D) as [Hc | Hc | Hc];
        cbn [shr_record_of_loc shr_m shr_r shr_s];
        (split; [reflexivity |]); split; cases; cbn; try reflexivity; lia.
  - assert (Hodd : D mod 2 = 1).
    { rewrite <- Z.negb_odd in He. apply Bool.negb_false_iff in He.
      rewrite Zodd_mod in He. destruct (Z.eqb_spec (D mod 2) 1); [assumption | discriminate]. }
    destruct (Z.eqb_spec r 0) as [H0 | H0].
    + cbn [shr_record_of_loc shr_m shr_r shr_s]. rewrite H0.
      split; [reflexivity |]. split; cases; cbn; try reflexivity; lia.
    + pose proof (Z.div_mod D 2 ltac:(lia)) as HD2.
      destruct (Z.compare_spec (2 * r + 1) D) as [Hc | Hc | Hc];
        cbn [shr_record_of_loc shr_m shr_r shr_s];
        (split; [reflexivity |]); split; cases; cbn; try reflexivity; lia.
Qed.

(** The quotient of two normal numbers. *)
Lemma SFdiv_normal sx mx ex sy my ey :
  normal mx -> normal my -> -900 <= ex - ey <= 900 ->
  exists m e k,
    SFdiv prec emax (S754_finite sx mx ex) (S754_finite sy my ey)
    = S754_finite (xorb sx sy) m e
    /\ normal m /\ 0 <= k <= 2 /\ e = ex - ey - 53 + k
    /\ 2 ^ 53 * Z.abs (Zpos m * 2 ^ k * Zpos my - Zpos mx * 2 ^ 53) <= Zpos mx * 2 ^ 53.
Proof.
  intros Hx Hy Hrange. pose proof Hx as Hx'. pose proof Hy as Hy'. unfold normal in Hx', Hy'.
  cbn [SFdiv]. unfold SFdiv_core_binary. cbn [Zdigits2].
  rewrite (normal_digits mx Hx), (normal_digits my Hy).
  rewrite fexp_normal by lia.
  replace (Z.min (53 + ex - (53 + ey) - 53) (ex - ey)) with (ex - ey - 53) by lia.
  replace (ex - ey - (ex - ey - 53)) with 53 by lia.
  rewrite Z.shiftl_mul_pow2 by lia.
  set (N := Z.pos mx * 2 ^ 53).
  assert (HN : 0 <= N) by (unfold N; lia).
  assert (HD : 0 < Z.pos my) by lia.
  pose proof (new_location_located N (Z.pos my) HN HD) as Hloc.
  unfold Z.div, Z.modulo in Hloc.
  destruct (Z.div_eucl N (Z.pos my)) as [q r] eqn:Hqr.
  assert (Hq : q = N / Z.pos my) by (unfold Z.div; rewrite Hqr; reflexivity).
  assert (Hqlo : 2 ^ 52 <= q).
  { rewrite Hq. apply Z.div_le_lower_bound; [lia |]. unfold N.
    change (2 ^ 53) with (2 * 2 ^ 52) at 1. nia. }
  assert (Hqhi : q < 2 ^ 54).
  { rewrite Hq. apply Z.div_lt_upper_bound; [lia |]. unfold N.
    change (2 ^ 54) with (2 ^ 53 * 2). nia. }
  assert (Hd : 53 <= Zdigits2 q <= 54).
  { pose proof (Zdigits2_bounds q ltac:(lia)) as [Hb1 Hb2].
    split.
    - destruct (Z.le_gt_cases 53 (Zdigits2 q)) as [H | H]; [exact H |].
      assert (2 ^ Zdigits2 q <= 2 ^ 52) by (apply Z.pow_le_mono_r; lia). lia.
    - destruct (Z.le_gt_cases (Zdigits2 q) 54) as [H | H]; [exact H |].
      assert (2 ^ 54 <= 2 ^ (Zdigits2 q - 1)) by (apply Z.pow_le_mono_r; lia). lia. }
  destruct (binary_round_aux_normal (xorb sx sy) N (Z.pos my) q (ex - ey - 53)
              (new_location (Z.pos my) r))
    as (m & e & k & Heq & Hm & Hk & He & Hkd & Herr & _);
    [lia | lia | exact Hloc | lia | lia |].
  exists m, e, k. repeat split; try assumption; lia.
Qed.

(** Values that need no rounding. *)
Lemma iter_xO p k : Zpos (Pos.iter xO p k) = Zpos p * 2 ^ Zpos k.
Proof.
  induction k as [| k IH] using Pos.peano_ind.
  - cbn. lia.
  - rewrite Pos.iter_succ, Pos2Z.inj_xO, IH, Pos2Z.inj_succ, Z.pow_succ_r by lia. ring.
Qed.

Lemma shl_align_value mx ex ez :
  ez <= ex ->
  Zpos (fst (shl_align mx ex ez)) = Zpos mx * 2 ^ (ex - ez).
Proof.
  intros H. unfold shl_align.
  destruct (ez - ex) as [| p | p] eqn:Hd; try lia; cbn [fst].
  - replace (ex - ez) with 0 by lia. lia.
  - rewrite iter_xO. replace (ex - ez) with (Zpos p) by lia. reflexivity.
Qed.

(** A normal mantissa that stands for an integer below 2^53. *)
Lemma canon m z a b :
  normal m -> 0 < z < 2 ^ 53 -> 0 <= a -> 0 <= b ->
  Zpos m * 2 ^ a = z * 2 ^ b ->
  -52 <= a - b <= 0 /\ Zpos m = z * 2 ^ (b - a).
Proof.
  intros Hm Hz Ha Hb Heq. unfold normal in Hm.
  assert (Hpa : 0 < 2 ^ a) by (apply Z.pow_pos_nonneg; lia).
  assert (Hpb : 0 < 2 ^ b) by (apply Z.pow_pos_nonneg; lia).
  assert (Hab : a <= b).
  { destruct (Z.le_gt_cases a b) as [H | H]; [exact H | exfalso].
    assert (H2 : 2 ^ a = 2 ^ (a - b) * 2 ^ b) by (rewrite <- Z.pow_add_r by lia; f_equal; lia).
    assert (2 <= 2 ^ (a - b)).
    { change 2 with (2 ^ 1) at 1. apply Z.pow_le_mono_r; lia. }
    nia. }
  assert (H2 : 2 ^ b = 2 ^ (b - a) * 2 ^ a) by (rewrite <- Z.pow_add_r by lia; f_equal; lia).
  assert (Hval : Zpos m = z * 2 ^ (b - a)) by nia.
  split; [| exact Hval].
  split; [| lia].
  destruct (Z.le_gt_cases (b - a) 52) as [H | H]; [lia | exfalso].
  assert (2 ^ 53 <= 2 ^ (b - a)) by (apply Z.pow_le_mono_r; lia).
  nia.
Qed.

(** Normalising a mantissa whose value fits 53 bits loses nothing. *)
Lemma binary_normalize_representable (M : positive) ez S j :
  0 < S < 2 ^ 53 -> 0 <= j <= 100 -> Zpos M = S * 2 ^ j -> -900 <= ez <= 700 ->
  exists m e a b,
    binary_normalize prec emax (Zpos M) ez false = S754_finite false m e
    /\ normal m /\ 0 <= a /\ 0 <= b /\ e = ez + a - b
    /\ Zpos m * 2 ^ a = Zpos M * 2 ^ b.
Proof.
  intros HS Hj HM Hez. cbn [binary_normalize]. unfold binary_round.
  pose proof (digits_bounds M) as Hdig.
  set (d := Zpos (digits2_pos M)) in *.
  assert (Hd0 : 1 <= d) by (unfold d; lia).
  assert (Hpj : 0 < 2 ^ j) by (apply Z.pow_pos_nonneg; lia).
  assert (Hdj : d <= 53 + j).
  { destruct (Z.le_gt_cases d (53 + j)) as [H | H]; [exact H | exfalso].
    assert (2 ^ (53 + j) <= 2 ^ (d - 1)) by (apply Z.pow_le_mono_r; lia).
    rewrite Z.pow_add_r in * by lia. nia. }
  rewrite fexp_normal by lia.
  unfold shl_align. replace (d + ez - 53 - ez) with (d - 53) by lia.
  destruct (d - 53) as [| p | p] eqn:Hdiff.
  - (* exactly 53 digits *)
    destruct (binary_round_aux_normal false (Zpos M) 1 (Zpos M) ez loc_Exact)
      as (m & e & k & Heq & Hm & Hk & He & _ & _ & Hexact);
      [lia | lia | apply located_exact; reflexivity | cbn [Zdigits2]; fold d; lia
       | cbn [Zdigits2]; fold d; lia |].
    exists m, e, k, 0. rewrite Heq. repeat split; try assumption; try lia.
    rewrite Z.mul_1_r in Hexact. rewrite Hexact; [lia |].
    cbn [Zdigits2]. fold d. replace (d - 53) with 0 by lia. cbn. apply Z.mod_1_r.
  - (* more than 53 digits, the low ones zero *)
    destruct (binary_round_aux_normal false (Zpos M) 1 (Zpos M) ez loc_Exact)
      as (m & e & k & Heq & Hm & Hk & He & _ & _ & Hexact);
      [lia | lia | apply located_exact; reflexivity | cbn [Zdigits2]; fold d; lia
       | cbn [Zdigits2]; fold d; lia |].
    exists m, e, k, 0. rewrite Heq. repeat split; try assumption; try lia.
    rewrite Z.mul_1_r in Hexact. rewrite Hexact; [lia |].
    cbn [Zdigits2]. fold d. rewrite Z.mul_1_l, HM.
    replace j with ((j - (d - 53)) + (d - 53)) at 1 by lia.
    rewrite Z.pow_add_r by lia. rewrite Z.mul_assoc. apply Z.mod_mul.
    assert (0 < 2 ^ (d - 53)) by (apply Z.pow_pos_nonneg; lia). lia.
  - (* fewer than 53 digits: shift left *)
    assert (Hmz : Zpos (Pos.iter xO M p) = Zpos M * 2 ^ (53 - d)).
    { rewrite iter_xO. f_equal. f_equal. lia. }
    assert (Hp52 : 2 ^ 52 = 2 ^ (d - 1) * 2 ^ (53 - d))
      by (rewrite <- Z.pow_add_r by lia; f_equal; lia).
    assert (Hp53 : 2 ^ 53 = 2 ^ d * 2 ^ (53 - d))
      by (rewrite <- Z.pow_add_r by lia; f_equal; lia).
    assert (Hps : 0 < 2 ^ (53 - d)) by (apply Z.pow_pos_nonneg; lia).
    assert (Hnorm : 2 ^ 52 <= Zpos (Pos.iter xO M p) < 2 ^ 53) by (rewrite Hmz; nia).
    assert (Hdz : Zdigits2 (Zpos (Pos.iter xO M p)) = 53)
      by (apply Zdigits2_pos; [lia | exact Hnorm]).
    destruct (binary_round_aux_normal false (Zpos (Pos.iter xO M p)) 1
                (Zpos (Pos.iter xO M p)) (d + ez - 53) loc_Exact)
      as (m & e & k & Heq & Hm & Hk & He & _ & _ & Hexact);
      [lia | lia | apply located_exact; reflexivity | lia | lia |].
    exists m, e, k, (53 - d). rewrite Heq. repeat split; try assumption; try lia.
    rewrite Z.mul_1_r in Hexact. rewrite Hexact; [exact Hmz |].
    rewrite Hdz. cbn. apply Z.mod_1_r.
Qed.


Lemma normal_valid s m e : normal m -> -1074 <= e <= 971 -> valid_binary (S754_finite s m e) = true.
Proof.
  intros Hm He. cbn [valid_binary]. unfold bounded, canonical_mantissa.
  rewrite (normal_digits m Hm).
  change (SpecFloat.fexp FloatOps.prec FloatOps.emax) with (fexp prec emax).
  unfold fexp, emin, prec, emax.
  apply andb_true_intro. split; [apply Z.eqb_eq | apply Z.leb_le]; lia.
Qed.


(** Positive integers below 2^53 are numbers. *)
Lemma num_of_Z_spec z :
  0 < z < 2 ^ 53 ->
  exists m e, Prim2SF (num_of_Z z) = S754_finite false m e /\ holds z m e.
Proof.
  intros Hz. destruct z as [| p | p]; try lia.
  destruct (binary_normalize_representable p 0 (Zpos p) 0)
    as (m & e & a & b & Heq & Hm & Ha & Hb & He & Hval); try lia.
  destruct (canon m (Zpos p) a b Hm Hz Ha Hb Hval) as [Hab Hm'].
  exists m, e. unfold num_of_Z. rewrite Heq.
  rewrite Prim2SF_SF2Prim by (apply normal_valid; [exact Hm | lia]).
  split; [reflexivity |]. split; [exact Hm |]. split; [lia |].
  rewrite Hm'. f_equal. f_equal. lia.
Qed.

(** The sum of two positive integers is exact while it stays below 2^53. *)
Lemma SFadd_holds w l mw ew ml el :
  0 < w -> 0 < l -> w + l < 2 ^ 53 ->
  holds w mw ew -> holds l ml el ->
  exists m e,
    SFadd prec emax (S754_finite false mw ew) (S754_finite false ml el)
    = S754_finite false m e
    /\ holds (w + l) m e.
Proof.
  intros Hw Hl Hsum (Hmw & Hew & Hvw) (Hml & Hel & Hvl).
  cbn [SFadd cond_Zopp].
  set (ez := Z.min ew el).
  pose proof (shl_align_value mw ew ez ltac:(lia)) as Ha.
  pose proof (shl_align_value ml el ez ltac:(lia)) as Hb.
  set (A := fst (shl_align mw ew ez)) in *. set (B := fst (shl_align ml el ez)) in *.
  change (Z.pos A + Z.pos B) with (Z.pos (A + B)).
  assert (HM : Z.pos (A + B) = (w + l) * 2 ^ (- ez)).
  { rewrite Pos2Z.inj_add, Ha, Hb, Hvw, Hvl.
    rewrite <- !Z.mul_assoc, <- !Z.pow_add_r by lia.
    replace (- ew + (ew - ez)) with (- ez) by lia.
    replace (- el + (el - ez)) with (- ez) by lia. ring. }
  destruct (binary_normalize_representable (A + B) ez (w + l) (- ez))
    as (m & e & a & b & Heq & Hm & Ha' & Hb' & He & Hval); try lia; try exact HM.
  assert (Hval' : Zpos m * 2 ^ a = (w + l) * 2 ^ (b - ez)).
  { rewrite Hval, HM. rewrite <- Z.mul_assoc, <- Z.pow_add_r by lia.
    f_equal. f_equal. lia. }
  destruct (canon m (w + l) a (b - ez) Hm ltac:(lia) Ha' ltac:(lia) Hval') as [Hab Hm'].
  exists m, e. split; [exact Heq |]. split; [exact Hm |]. split; [lia |].
  rewrite Hm'. f_equal. f_equal. lia.
Qed.

(** ** Values as rationals *)
Open Scope Q_scope.


Lemma pow2_pos e : 0 < pow2 e.
Proof. apply Qpower_0_lt. reflexivity. Qed.

Lemma pow2_add a b : pow2 (a + b) == pow2 a * pow2 b.
Proof. apply Qpower_plus. discriminate. Qed.

Lemma pow2_Z k : (0 <= k)%Z -> pow2 k == inject_Z (2 ^ k).
Proof. intros H. unfold pow2. rewrite Zpower_Qpower by exact H. reflexivity. Qed.

Lemma pow2_cancel k : (0 <= k)%Z -> inject_Z (2 ^ k) * pow2 (- k) == 1.
Proof.
  intros H. rewrite <- pow2_Z by exact H. rewrite <- pow2_add.
  replace (k + - k)%Z with 0%Z by lia. reflexivity.
Qed.

Lemma V_pos m e : 0 < V m e.
Proof.
  unfold V. apply Qmult_lt_0_compat; [| apply pow2_pos].
  change 0 with (inject_Z 0). rewrite <- Zlt_Qlt. lia.
Qed.

Lemma holds_V z m e : holds z m e -> V m e == inject_Z z.
Proof.
  intros (_ & He & Hm). unfold V. rewrite Hm, inject_Z_mult.
  rewrite <- Qmult_assoc. replace e with (- - e)%Z at 2 by lia.
  rewrite pow2_cancel by lia. ring.
Qed.

(** A relative error of 2^-53 between integers, read between rationals. *)
Lemma scaled_close (R P : Z) (A : Q) :
  0 < A -> (2 ^ 53 * Z.abs (R - P) <= P)%Z ->
  inject_Z P * A * (1 - u) <= inject_Z R * A
  /\ inject_Z R * A <= inject_Z P * A * (1 + u).
Proof.
  intros HA H.
  assert (H1 : (2 ^ 53 * (R - P) <= P)%Z) by lia.
  assert (H2 : (- P <= 2 ^ 53 * (R - P))%Z) by lia.
  rewrite Zle_Qle in H1, H2.
  rewrite ?inject_Z_opp, ?inject_Z_mult, ?inject_Z_plus, ?inject_Z_opp in H1, H2.
  unfold Z.sub in H1, H2.
  rewrite ?inject_Z_mult, ?inject_Z_plus, ?inject_Z_opp in H1, H2.
  change (inject_Z (2 ^ 53)) with (9007199254740992 # 1) in H1, H2.
  unfold u.
  set (r := inject_Z R) in *. set (p := inject_Z P) in *.
  assert (Hlo : p * (1 - (1 # 9007199254740992)) <= r) by lra.
  assert (Hhi : r <= p * (1 + (1 # 9007199254740992))) by lra.
  split; nra.
Qed.

(** The computed product is within [1 - u] and [1 + u] of the exact one. *)
Lemma mul_bounds sx mx ex sy my ey :
  normal mx -> normal my -> (-1000 <= ex + ey <= 800)%Z ->
  exists m e,
    SFmul prec emax (S754_finite sx mx ex) (S754_finite sy my ey)
    = S754_finite (xorb sx sy) m e
    /\ normal m /\ (ex + ey <= e <= ex + ey + 54)%Z
    /\ V mx ex * V my ey * (1 - u) <= V m e
    /\ V m e <= V mx ex * V my ey * (1 + u).
Proof.
  intros Hx Hy Hrange.
  destruct (SFmul_normal sx mx ex sy my ey Hx Hy Hrange)
    as (m & e & k & Heq & Hm & Hk & He & Herr).
  exists m, e. split; [exact Heq |]. split; [exact Hm |]. split; [lia |].
  destruct (scaled_close (Zpos m * 2 ^ k) (Zpos mx * Zpos my) (pow2 (ex + ey))
              (pow2_pos _) Herr) as [Hlo Hhi].
  assert (HV : V m e == inject_Z (Zpos m * 2 ^ k) * pow2 (ex + ey)).
  { unfold V. rewrite He, inject_Z_mult.
    replace (ex + ey + k)%Z with (k + (ex + ey))%Z by lia.
    rewrite pow2_add, (pow2_Z k) by lia. ring. }
  assert (HP : V mx ex * V my ey == inject_Z (Zpos mx * Zpos my) * pow2 (ex + ey)).
  { unfold V. rewrite inject_Z_mult, pow2_add. ring. }
  rewrite HV, HP. split; assumption.
Qed.

(** So is the computed quotient, stated without division. *)
Lemma div_bounds sx mx ex sy my ey :
  normal mx -> normal my -> (-900 <= ex - ey <= 900)%Z ->
  exists m e,
    SFdiv prec emax (S754_finite sx mx ex) (S754_finite sy my ey)
    = S754_finite (xorb sx sy) m e
    /\ normal m /\ (ex - ey - 53 <= e <= ex - ey - 51)%Z
    /\ V mx ex * (1 - u) <= V m e * V my ey
    /\ V m e * V my ey <= V mx ex * (1 + u).
Proof.
  intros Hx Hy Hrange.
  destruct (SFdiv_normal sx mx ex sy my ey Hx Hy Hrange)
    as (m & e & k & Heq & Hm & Hk & He & Herr).
  exists m, e. split; [exact Heq |]. split; [exact Hm |]. split; [lia |].
  destruct (scaled_close (Zpos m * 2 ^ k * Zpos my) (Zpos mx * 2 ^ 53) (pow2 (ex - 53))
              (pow2_pos _) Herr) as [Hlo Hhi].
  assert (HV : V m e * V my ey == inject_Z (Zpos m * 2 ^ k * Zpos my) * pow2 (ex - 53)).
  { unfold V. rewrite He, !inject_Z_mult.
    replace (ex - 53)%Z with ((ex - ey - 53) + ey)%Z by lia.
    replace (ex - ey - 53 + k)%Z with (k + (ex - ey - 53))%Z by lia.
    rewrite !pow2_add, (pow2_Z k) by lia. ring. }
  assert (HP : V mx ex == inject_Z (Zpos mx * 2 ^ 53) * pow2 (ex - 53)).
  { unfold V. rewrite inject_Z_mult.
    replace ex with (53 + (ex - 53))%Z at 1 by lia.
    rewrite pow2_add, (pow2_Z 53) by lia. ring. }
  rewrite HV, HP. split; assumption.
Qed.

Close Scope Q_scope.


Lemma num_of_Z_0 : num_of_Z 0 = 0%float.
Proof. reflexivity. Qed.

(** [Math.round] of a positive number with a fractional part: the integer
    [z] with [z <= x + 1/2 < z + 1]. *)
Lemma Math_round_spec x m e :
  Prim2SF x = S754_finite false m e -> e < 0 ->
  exists z,
    Math_round x = num_of_Z z
    /\ (inject_Z z <= V m e + (1 # 2))%Q
    /\ (V m e + (1 # 2) < inject_Z z + 1)%Q.
Proof.
  intros Hx He. unfold Math_round. rewrite Hx.
  destruct (Z.leb_spec 0 e) as [| _]; [lia |].
  set (k := - e). set (z := (2 * Z.pos m + 2 ^ k) / 2 ^ (k + 1)).
  exists z. split.
  - destruct (Z.eqb_spec z 0) as [-> | _]; [symmetry; exact num_of_Z_0 | reflexivity].
  - assert (Hk : 0 < 2 ^ k) by (apply Z.pow_pos_nonneg; lia).
    assert (Hk1 : 2 ^ (k + 1) = 2 * 2 ^ k) by (rewrite Z.pow_add_r by lia; lia).
    assert (Hk1' : 0 < 2 ^ (k + 1)) by lia.
    pose proof (Z.mul_div_le (2 * Z.pos m + 2 ^ k) (2 ^ (k + 1)) Hk1') as Hlo'.
    pose proof (Z.mul_succ_div_gt (2 * Z.pos m + 2 ^ k) (2 ^ (k + 1)) Hk1') as Hhi'.
    fold z in Hlo', Hhi'.
    assert (Hlo : z * 2 ^ (k + 1) <= 2 * Z.pos m + 2 ^ k) by lia.
    assert (Hhi : 2 * Z.pos m + 2 ^ k < (z + 1) * 2 ^ (k + 1)) by lia.
    clear Hlo' Hhi' Hk1'.
    rewrite Hk1 in Hlo, Hhi.
    assert (HV : (V m e * inject_Z (2 ^ k) == inject_Z (Z.pos m))%Q).
    { unfold V. rewrite <- Qmult_assoc, (Qmult_comm (pow2 e)).
      replace e with (- k)%Z by (unfold k; lia).
      rewrite pow2_cancel by lia. ring. }
    rewrite Zle_Qle in Hlo. rewrite Zlt_Qlt in Hhi. rewrite Zlt_Qlt in Hk.
    rewrite ?inject_Z_plus, ?inject_Z_mult in Hlo, Hhi.
    rewrite inject_Z_plus in Hhi.
    rewrite <- HV in Hlo, Hhi.
    change (inject_Z 2) with 2%Q in *. change (inject_Z 1) with 1%Q in *.
    change (inject_Z 0) with 0%Q in *.
    set (t := inject_Z (2 ^ k)) in *. set (v := V m e) in *. set (zq := inject_Z z) in *.
    assert (Ht2 : (0 < 2 * t)%Q) by lra.
    split.
    + apply (Qmult_le_r _ _ (2 * t) Ht2). lra.
    + apply (Qmult_lt_r _ _ (2 * t) Ht2). lra.
Qed.



Lemma Prim2SF_100 : Prim2SF 100%float = S754_finite false hundred (-46).
Proof. reflexivity. Qed.

Lemma normal_hundred : normal hundred.
Proof. unfold normal, hundred. split; [vm_compute; discriminate | reflexivity]. Qed.

Lemma V_hundred : (V hundred (-46) == 100)%Q.
Proof. reflexivity. Qed.

Lemma pow2_ge_1 e : 0 <= e -> (1 <= pow2 e)%Q.
Proof.
  intros He. rewrite pow2_Z by exact He.
  change 1%Q with (inject_Z 1). rewrite <- Zle_Qle.
  assert (0 < 2 ^ e) by (apply Z.pow_pos_nonneg; lia). lia.
Qed.

(** The rounded percentage, from a quotient of two integer floats. *)
Lemma percent_rounds w n fw fn mw ew mn en :
  0 < w <= n -> n < 2 ^ 32 ->
  Prim2SF fw = S754_finite false mw ew -> holds w mw ew ->
  Prim2SF fn = S754_finite false mn en -> holds n mn en ->
  exists z,
    Math_round ((fw / fn) * 100 * 100)%float = num_of_Z z
    /\ 2 * Z.abs (z * n - 10000 * w) <= n.
Proof.
  intros Hw Hn Hfw Hholdw Hfn Hholdn.
  pose proof (holds_V _ _ _ Hholdw) as HVw. pose proof (holds_V _ _ _ Hholdn) as HVn.
  destruct Hholdw as (Hmw & Hew & _). destruct Hholdn as (Hmn & Hen & _).
  (* the quotient *)
  destruct (div_bounds false mw ew false mn en Hmw Hmn ltac:(lia))
    as (mq & eq & Hq & Hmq & Heq & Hqlo & Hqhi).
  assert (Pq : Prim2SF (fw / fn) = S754_finite false mq eq).
  { rewrite div_spec, Hfw, Hfn. exact Hq. }
  (* times 100 *)
  destruct (mul_bounds false mq eq false hundred (-46) Hmq normal_hundred ltac:(lia))
    as (m1 & e1 & H1 & Hm1 & He1 & H1lo & H1hi).
  assert (P1 : Prim2SF (fw / fn * 100) = S754_finite false m1 e1).
  { rewrite mul_spec, Pq, Prim2SF_100. exact H1. }
  (* times 100 again *)
  destruct (mul_bounds false m1 e1 false hundred (-46) Hm1 normal_hundred ltac:(lia))
    as (m2 & e2 & H2 & Hm2 & He2 & H2lo & H2hi).
  assert (P2 : Prim2SF (fw / fn * 100 * 100) = S754_finite false m2 e2).
  { rewrite mul_spec, P1, Prim2SF_100. exact H2. }
  (* the accumulated error *)
  rewrite V_hundred in H1lo, H1hi, H2lo, H2hi.
  rewrite HVw, HVn in Hqlo, Hqhi.
  pose proof (V_pos mq eq) as Hvq. pose proof (V_pos m1 e1) as Hv1.
  pose proof (V_pos m2 e2) as Hv2.
  set (vq := V mq eq) in *. set (v1 := V m1 e1) in *. set (v2 := V m2 e2) in *.
  assert (HW : (0 < inject_Z w)%Q) by (change 0%Q with (inject_Z 0); rewrite <- Zlt_Qlt; lia).
  assert (HWN : (inject_Z w <= inject_Z n)%Q) by (rewrite <- Zle_Qle; lia).
  assert (HN32 : (inject_Z n <= 4294967296)%Q).
  { change 4294967296%Q with (inject_Z (2 ^ 32)). rewrite <- Zle_Qle. lia. }
  set (W := inject_Z w) in *. set (N := inject_Z n) in *.
  assert (Hu : (0 < u)%Q) by reflexivity.
  assert (Hu1 : (u < 1)%Q) by reflexivity.
  assert (Hc1lo : (100 * W * (1 - u) * (1 - u) <= v1 * N)%Q) by nra.
  assert (Hc1hi : (v1 * N <= 100 * W * (1 + u) * (1 + u))%Q) by nra.
  assert (Hc2lo : (10000 * W * (1 - u) * (1 - u) * (1 - u) <= v2 * N)%Q) by nra.
  assert (Hc2hi : (v2 * N <= 10000 * W * (1 + u) * (1 + u) * (1 + u))%Q) by nra.
  (* the product is small: its exponent is negative *)
  assert (He2neg : e2 < 0).
  { destruct (Z.lt_ge_cases e2 0) as [H | H]; [exact H | exfalso].
    pose proof (pow2_ge_1 e2 H) as Hp.
    assert (Hm2q : (4503599627370496 <= inject_Z (Z.pos m2))%Q).
    { change 4503599627370496%Q with (inject_Z (2 ^ 52)). rewrite <- Zle_Qle.
      destruct Hm2; assumption. }
    assert (Hbig : (4503599627370496 <= v2)%Q).
    { unfold v2, V. nra. }
    assert (Hsmall : (v2 * N <= 10001 * N)%Q).
    { unfold u in Hc2hi. lra. }
    apply Qmult_le_r in Hsmall; lra. }
  destruct (Math_round_spec _ m2 e2 P2 He2neg) as (z & Hround & Hzlo & Hzhi).
  fold v2 in Hzlo, Hzhi.
  exists z. split; [exact Hround |].
  set (zq := inject_Z z) in *.
  assert (Hup : (2 * zq * N - N - 20000 * W < 1)%Q).
  { assert ((zq - (1 # 2)) * N <= v2 * N)%Q by (apply Qmult_le_compat_r; lra).
    unfold u in Hc2hi. lra. }
  assert (Hdown : (20000 * W - 2 * zq * N - N < 1)%Q).
  { assert (v2 * N <= (zq + (1 # 2)) * N)%Q by (apply Qmult_le_compat_r; lra).
    unfold u in Hc2lo. lra. }
  assert (Hup' : 2 * z * n - n - 20000 * w < 1).
  { rewrite Zlt_Qlt. unfold Z.sub.
    rewrite ?inject_Z_plus, ?inject_Z_opp, ?inject_Z_mult.
    fold zq W N. change (inject_Z 2) with 2%Q. change (inject_Z 20000) with 20000%Q.
    change (inject_Z 1) with 1%Q. lra. }
  assert (Hdown' : 20000 * w - 2 * z * n - n < 1).
  { rewrite Zlt_Qlt. unfold Z.sub.
    rewrite ?inject_Z_plus, ?inject_Z_opp, ?inject_Z_mult.
    fold zq W N. change (inject_Z 2) with 2%Q. change (inject_Z 20000) with 20000%Q.
    change (inject_Z 1) with 1%Q. lra. }
  lia.
Qed.

Lemma Prim2SF_0 : Prim2SF 0%float = S754_zero false.
Proof. reflexivity. Qed.

(** The win rate of [w] wins and [l] losses. *)
Lemma winRate_two_decimals w l :
  0 <= w -> 0 <= l -> 0 < w + l < 2 ^ 32 ->
  exists k,
    Rank.winRate (num_of_Z w) (num_of_Z l) = (num_of_Z k / 100)%float
    /\ 2 * Z.abs (k * (w + l) - 10000 * w) <= w + l.
Proof.
  intros Hw Hl Hsum. unfold Rank.winRate.
  destruct (Z.eq_dec w 0) as [-> | Hw0].
  - (* no wins: the quotient is zero *)
    destruct (num_of_Z_spec l ltac:(lia)) as (ml & el & Hfl & _).
    exists 0. split; [| lia].
    assert (Hq : (num_of_Z 0 / (num_of_Z 0 + num_of_Z l))%float = 0%float).
    { apply Prim2SF_inj.
      rewrite div_spec, add_spec, num_of_Z_0, Prim2SF_0, Hfl. reflexivity. }
    rewrite Hq. reflexivity.
  - destruct (num_of_Z_spec w ltac:(lia)) as (mw & ew & Hfw & Hholdw).
    assert (Hn : exists mn en,
               Prim2SF (num_of_Z w + num_of_Z l) = S754_finite false mn en
               /\ holds (w + l) mn en).
    { destruct (Z.eq_dec l 0) as [-> | Hl0].
      - exists mw, ew. rewrite add_spec, num_of_Z_0, Prim2SF_0, Hfw, Z.add_0_r.
        split; [reflexivity | exact Hholdw].
      - destruct (num_of_Z_spec l ltac:(lia)) as (ml & el & Hfl & Hholdl).
        destruct (SFadd_holds w l mw ew ml el ltac:(lia) ltac:(lia) ltac:(lia) Hholdw Hholdl)
          as (mn & en & Hadd & Hholdn).
        exists mn, en. rewrite add_spec, Hfw, Hfl. split; [exact Hadd | exact Hholdn]. }
    destruct Hn as (mn & en & Hfn & Hholdn).
    destruct (percent_rounds w (w + l) (num_of_Z w) (num_of_Z w + num_of_Z l)
                mw ew mn en ltac:(lia) ltac:(lia) Hfw Hholdw Hfn Hholdn)
      as (z & Hround & Hnear).
    exists z. rewrite Hround. split; [reflexivity | exact Hnear].
Qed.


(** ** Win rates *)

Import WinRate.

(** C1, as stated, fails: for an entry with no wins and no losses the
    quotient is 0/0; the win rate is NaN, not 0. *)
Lemma winRate_no_games_counterexample :
  Rank.entry_winRate (Rank.process (Sample.entry_with 0 0)) = nan
  /\ Rank.entry_winRate (Rank.process (Sample.entry_with 0 0)) <> num_of_Z 0.
Proof.
  split; [vm_compute; reflexivity |].
  intros H. vm_compute in H. discriminate H.
Qed.

Example winRate_7_3 : Rank.winRate (num_of_Z 7) (num_of_Z 3) = 70%float.
Proof. vm_compute. reflexivity. Qed.

(** An exact tie that binary rounding takes downwards: 23 wins in 160 games
    are 14.375 percent, sent as 14.37. *)
Example winRate_23_137 : Rank.winRate (num_of_Z 23) (num_of_Z 137) = two_decimals 1437.
Proof. vm_compute. reflexivity. Qed.

(** C1, amended: for every processed entry whose wins and losses are
    integers with 0 < wins + losses (below 2^32), the win rate is the
    percentage 100 * wins / (wins + losses) rounded to two decimal places:
    it is the number k/100 for an integer k, and no multiple of 0.01 is
    nearer to the percentage (on an exact tie either neighbour may be
    taken).  With 7 wins and 3 losses it is 70.  With no wins and no
    losses the quotient is 0/0 and the win rate is NaN: nothing replaces
    it by 0. *)
Theorem winRate_spec (entry : LeagueEntryDTO) (w l : Z) :
  e_wins entry = num_of_Z w ->
  e_losses entry = num_of_Z l ->
  0 <= w -> 0 <= l -> w + l < 2 ^ 32 ->
  (0 < w + l ->
   exists k,
     Rank.entry_winRate (Rank.process entry) = two_decimals k
     /\ nearest_hundredth w l k)
  /\ (w = 7 -> l = 3 -> Rank.entry_winRate (Rank.process entry) = 70%float)
  /\ (w = 0 -> l = 0 -> Rank.entry_winRate (Rank.process entry) = nan).
Proof.
  intros Hwins Hlosses Hw Hl Hbound.
  cbn [Rank.process Rank.entry_winRate]. rewrite Hwins, Hlosses.
  split; [| split].
  - intros Hpos.
    destruct (winRate_two_decimals w l Hw Hl (conj Hpos Hbound)) as (k & Hk & Hnear).
    exists k. split; [exact Hk | exact Hnear].
  - intros -> ->. exact winRate_7_3.
  - intros -> ->. vm_compute. reflexivity.
Qed.

Lemma winRate_spec_witness :
  (exists k,
      Rank.entry_winRate (Rank.process (Sample.entry_with 7 3)) = two_decimals k
      /\ nearest_hundredth 7 3 k)
  /\ Rank.entry_winRate (Rank.process (Sample.entry_with 7 3)) = 70%float.
Proof.
  destruct (winRate_spec (Sample.entry_with 7 3) 7 3 eq_refl eq_refl)
    as (Hrounded & Hseventy & _); try lia; try reflexivity.
  split; [apply Hrounded; lia | apply Hseventy; reflexivity].
Defined.


(** * Further properties of the two handlers *)

Import Calls Text Requests Envelope.

(** ** Requests that are not GET *)

(** X1: in both handlers a request whose method is not GET makes no call;
    OPTIONS is answered with status 200 and no body, every other method
    (the comparison is case-sensitive) with status 405 and
    [{success: false, error: "Method not allowed"}], whatever the key, the
    query and the upstream. *)
Theorem other_methods :
  (forall env up now req,
      Summoner.method req = "OPTIONS" ->
      Summoner.handler env up now req = ([], send_end 200))
  /\ (forall env up now req,
        Summoner.method req <> "OPTIONS" -> Summoner.method req <> "GET" ->
        Summoner.handler env up now req
        = ([], send_json 405
                 (Obj [("success", Bool false); ("error", Str "Method not allowed")])))
  /\ (forall env up now req,
        Rank.method req = "OPTIONS" ->
        Rank.handler env up now req = ([], send_end 200))
  /\ (forall env up now req,
        Rank.method req <> "OPTIONS" -> Rank.method req <> "GET" ->
        Rank.handler env up now req
        = ([], send_json 405
                 (Obj [("success", Bool false); ("error", Str "Method not allowed")]))).
Proof.
  repeat split; intros env up now req.
  - intros H. unfold Summoner.handler. rewrite H. reflexivity.
  - intros H1 H2. unfold Summoner.handler.
    apply String.eqb_neq in H1, H2. rewrite H1, H2. reflexivity.
  - intros H. unfold Rank.handler. rewrite H. reflexivity.
  - intros H1 H2. unfold Rank.handler.
    apply String.eqb_neq in H1, H2. rewrite H1, H2. reflexivity.
Qed.

(** ** Path segments beyond the second *)

(** X2: the identity flow reads the first two path segments only: further
    segments change neither the calls nor the reply. *)
Theorem identity_extra_segments env up now req gameName tagLine others :
  Summoner.params req = Some (gameName :: tagLine :: others) ->
  Summoner.handler env up now req
  = Summoner.handler env up now (with_params req [gameName; tagLine]).
Proof.
  intros Hps. unfold Summoner.handler, Summoner.attempt, with_params.
  cbn [Summoner.method Summoner.params Summoner.region Summoner.server].
  rewrite Hps. reflexivity.
Qed.

Lemma identity_extra_segments_witness :
  let req := {| Summoner.method := "GET";
                Summoner.params := Some ["Hide%20on%20bush"; "KR1"; "extra"; "more"];
                Summoner.region := None;
                Summoner.server := None |} in
  Summoner.handler Sample.env Sample.found_everything Sample.now req
  = Summoner.handler Sample.env Sample.found_everything Sample.now
      (with_params req ["Hide%20on%20bush"; "KR1"]).
Proof.
  intros req.
  apply (identity_extra_segments Sample.env Sample.found_everything Sample.now req
           "Hide%20on%20bush" "KR1" ["extra"; "more"]).
  reflexivity.
Defined.

(** ** Where the calls go *)

Lemma truthy_Some o s : truthy o = Some s -> o = Some s.
Proof.
  destruct o as [t |]; cbn; [| discriminate].
  destruct (String.eqb t ""); congruence.
Qed.

Lemma lookup_hosts k table host :
  lookup k table = Some host -> In host (hosts table).
Proof.
  unfold hosts. induction table as [| [k' v] table IH]; cbn; [discriminate |].
  destruct (String.eqb k k'); [intros [= ->]; left; reflexivity | right; auto].
Qed.

Lemma accountCall_to_riot env region gameName tagLine apiKey endpoint :
  truthy (RIOT_API_KEY env) = Some apiKey ->
  truthy (lookup region Summoner.regionEndpoints) = Some endpoint ->
  to_riot env (hosts Summoner.regionEndpoints)
    (Valid.accountCall gameName tagLine apiKey endpoint).
Proof.
  intros Hkey Hreg. split.
  - exists apiKey. split; [exact Hkey | reflexivity].
  - exists endpoint. eexists. split.
    + eapply lookup_hosts, truthy_Some, Hreg.
    + cbn. reflexivity.
Qed.

Lemma summonerCall_to_riot env server table puuid apiKey endpoint :
  truthy (RIOT_API_KEY env) = Some apiKey ->
  truthy (lookup server table) = Some endpoint ->
  to_riot env (hosts table) (Valid.summonerCall puuid apiKey endpoint).
Proof.
  intros Hkey Hsrv. split.
  - exists apiKey. split; [exact Hkey | reflexivity].
  - exists endpoint. eexists. split.
    + eapply lookup_hosts, truthy_Some, Hsrv.
    + cbn. reflexivity.
Qed.

Lemma rankCall_to_riot env server summonerId apiKey endpoint :
  truthy (RIOT_API_KEY env) = Some apiKey ->
  truthy (lookup server Rank.serverEndpoints) = Some endpoint ->
  to_riot env (hosts Rank.serverEndpoints) (Valid.rankCall summonerId apiKey endpoint).
Proof.
  intros Hkey Hsrv. split.
  - exists apiKey. split; [exact Hkey | reflexivity].
  - exists endpoint. eexists. split.
    + eapply lookup_hosts, truthy_Some, Hsrv.
    + cbn. reflexivity.
Qed.

(** Every request of the identity flow is a GET request or makes no call. *)
Lemma identity_not_get env up now req :
  Summoner.method req <> "GET" -> fst (Summoner.handler env up now req) = [].
Proof.
  intros H. unfold Summoner.handler.
  destruct (String.eqb (Summoner.method req) "OPTIONS"); [reflexivity |].
  apply String.eqb_neq in H. rewrite H. reflexivity.
Qed.

Lemma rank_not_get env up now req :
  Rank.method req <> "GET" -> fst (Rank.handler env up now req) = [].
Proof.
  intros H. unfold Rank.handler.
  destruct (String.eqb (Rank.method req) "OPTIONS"); [reflexivity |].
  apply String.eqb_neq in H. rewrite H. reflexivity.
Qed.

Lemma unparsable_guarded env allowed apiKey c :
  truthy (RIOT_API_KEY env) = Some apiKey ->
  headers c = riot_headers apiKey ->
  URL_parses (url c) = false ->
  guarded env allowed c.
Proof.
  intros Hkey Hheaders Hbad. right. split; [| exact Hbad].
  exists apiKey. split; [exact Hkey | exact Hheaders].
Qed.

(** X3: whatever the request and the upstream, the identity flow invokes
    [fetch] at most twice, each time with the configured key in
    [X-Riot-Token] and the fixed [User-Agent]: first for a host of the
    region table, then for a host of the server table, over https.  The
    only other URL it can build has the text of a member inherited from
    [Object.prototype] for its host; such a URL does not parse, so
    nothing is sent for it and no later call is made. *)
Theorem identity_calls env up now req :
  let calls := fst (Summoner.handler env up now req) in
  calls = []
  \/ (exists a, calls = [a] /\ guarded env (hosts Summoner.regionEndpoints) a)
  \/ (exists a b,
        calls = [a; b]
        /\ to_riot env (hosts Summoner.regionEndpoints) a
        /\ guarded env (hosts Summoner.serverEndpoints) b).
Proof.
  cbv zeta.
  destruct (String.eqb_spec (Summoner.method req) "GET") as [Hget | Hother];
    [| left; exact (identity_not_get env up now req Hother)].
  destruct (identity_stopped env req Hget)
    as [(g & t & k & ep & Hvalid)
       | [(sent & _ & _ & Hsent) | (c & Hbad & _ & Hthrown & k & Hkey & Hheaders & _)]];
    [| left; rewrite Hsent; reflexivity |].
  2: { right; left. exists c. rewrite Hthrown.
       split; [reflexivity | exact (unparsable_guarded _ _ _ _ Hkey Hheaders Hbad)]. }
  pose proof Hvalid as (_ & _ & Hkey & Hreg).
  pose proof (accountCall_to_riot env _ g t k ep Hkey Hreg) as Ha.
  destruct (account_by_riot_id up (Valid.accountCall g t k ep)) as [e | r] eqn:Hresp.
  { rewrite (identity_rejected env up now req _ _ _ _ Hvalid e Hresp).
    right; left. eexists. split; [reflexivity | left; exact Ha]. }
  destruct (ok r) eqn:Hok.
  - destruct (json r) as [e | a] eqn:Hjson.
    { rewrite (identity_bad_body env up now req _ _ _ _ Hvalid r e Hresp Hok Hjson).
      right; left. eexists. split; [reflexivity | left; exact Ha]. }
    rewrite (identity_found env up now req _ _ _ _ Hvalid r a Hresp Hok Hjson).
    cbv zeta.
    destruct (truthy_text_cases (or_default (Summoner.server req) "kr")
                Summoner.serverEndpoints)
      as [Hnone | [(sep & Hsrv & Htext) | (_ & Hin & Htext)]];
      rewrite Htext || rewrite Hnone;
      [right; left; eexists; split; [reflexivity | left; exact Ha] | |].
    + pose proof (summonerCall_to_riot env _ _ (acc_puuid a) k sep Hkey Hsrv) as Hb.
      right; right.
      exists (Valid.accountCall g t k ep), (Valid.summonerCall (acc_puuid a) k sep).
      split; [| split; [exact Ha | left; exact Hb]].
      destruct (answer up summoner_by_puuid _) as [e | r']; [reflexivity |].
      destruct (ok r'); [| reflexivity].
      destruct (json r'); reflexivity.
    + right; right.
      exists (Valid.accountCall g t k ep),
             (Valid.summonerCall (acc_puuid a) k
                (member_text (or_default (Summoner.server req) "kr"))).
      split; [| split; [exact Ha |]].
      * rewrite (answer_unparsable up summoner_by_puuid _
                   (summonerCall_unparsable _ _ _ Hin)).
        reflexivity.
      * apply (unparsable_guarded _ _ k); [exact Hkey | reflexivity |].
        exact (summonerCall_unparsable _ _ _ Hin).
  - rewrite (identity_not_ok env up now req _ _ _ _ Hvalid r Hresp Hok).
    right; left. eexists. split; [reflexivity | left; exact Ha].
Qed.

(** X4: whatever the request and the upstream, the rank flow invokes
    [fetch] at most twice, each time with the configured key in
    [X-Riot-Token] and the fixed [User-Agent], and a second time only for
    the same host of the server table as the first: first the summoner by
    PUUID, then the league entries.  The only other URL it can build has
    the text of a member inherited from [Object.prototype] for its host;
    such a URL does not parse, so nothing is sent for it and no second
    call is made. *)
Theorem rank_calls env up now req :
  let calls := fst (Rank.handler env up now req) in
  calls = []
  \/ (exists a, calls = [a] /\ guarded env (hosts Rank.serverEndpoints) a)
  \/ (exists a b host puuid summonerId,
        calls = [a; b]
        /\ to_riot env (hosts Rank.serverEndpoints) a
        /\ to_riot env (hosts Rank.serverEndpoints) b
        /\ url a = "https://" ++ host ++ "/lol/summoner/v4/summoners/by-puuid/" ++ puuid
        /\ url b = "https://" ++ host ++ "/lol/league/v4/entries/by-summoner/" ++ summonerId).
Proof.
  cbv zeta.
  destruct (String.eqb_spec (Rank.method req) "GET") as [Hget | Hother];
    [| left; exact (rank_not_get env up now req Hother)].
  destruct (rank_stopped env req Hget)
    as [(p & k & ep & Hvalid)
       | [(sent & _ & _ & Hsent) | (c & Hbad & _ & Hthrown & k & Hkey & Hheaders & _)]];
    [| left; rewrite Hsent; reflexivity |].
  2: { right; left. exists c. rewrite Hthrown.
       split; [reflexivity | exact (unparsable_guarded _ _ _ _ Hkey Hheaders Hbad)]. }
  pose proof Hvalid as (_ & _ & Hkey & Hsrv).
  pose proof (summonerCall_to_riot env _ _ p k ep Hkey Hsrv) as Ha.
  destruct (summoner_by_puuid up (Valid.summonerCall p k ep)) as [e | r] eqn:Hresp.
  { rewrite (rank_rejected env up now req _ _ _ Hvalid e Hresp).
    right; left. eexists. split; [reflexivity | left; exact Ha]. }
  destruct (ok r) eqn:Hok.
  - destruct (json r) as [e | d] eqn:Hjson.
    { rewrite (rank_summoner_bad_body env up now req _ _ _ Hvalid r e Hresp Hok Hjson).
      right; left. eexists. split; [reflexivity | left; exact Ha]. }
    rewrite (rank_summoner_found env up now req _ _ _ Hvalid r d Hresp Hok Hjson).
    cbv zeta.
    pose proof (rankCall_to_riot env _ (id d) k ep Hkey Hsrv) as Hb.
    right; right.
    exists (Valid.summonerCall p k ep), (Valid.rankCall (id d) k ep), ep, p, (id d).
    split; [| repeat split; try assumption; apply Ha || apply Hb].
    destruct (entries_by_summoner up _) as [e | r']; [reflexivity |].
    destruct (ok r'); [| reflexivity].
    destruct (json r'); reflexivity.
  - rewrite (rank_summoner_not_ok env up now req _ _ _ Hvalid r Hresp Hok).
    right; left. eexists. split; [reflexivity | left; exact Ha].
Qed.

(** ** Lookups that yield a record, and lookups that do not *)

Lemma record_of_none {T : Type} (f : Fetched T) :
  record_of f = None ->
  (exists e, f = Rejected e)
  \/ (exists r, f = Resolved r /\ ok r = false)
  \/ (exists r e, f = Resolved r /\ ok r = true /\ json r = inl e).
Proof.
  destruct f as [e | r]; cbn; [left; eauto |].
  destruct (ok r) eqn:Hok; [| right; left; eauto].
  destruct (json r) as [e | d] eqn:Hjson; [right; right; eauto | discriminate].
Qed.

Lemma record_of_some {T : Type} (f : Fetched T) d :
  record_of f = Some d ->
  exists r, f = Resolved r /\ ok r = true /\ json r = inr d.
Proof.
  destruct f as [e | r]; cbn; [discriminate |].
  destruct (ok r) eqn:Hok; [| discriminate].
  destruct (json r) as [e | d'] eqn:Hjson; [discriminate |].
  intros [= ->]. eauto.
Qed.

Lemma identity_internal_error_failure e : failure (Summoner.internal_error e).
Proof. failure_envelope. Qed.

Lemma rank_internal_error_failure e : failure (Rank.internal_error e).
Proof. failure_envelope. Qed.

(** X5: in the identity flow, whenever the account lookup does not yield a
    record (the fetch rejects, the status is not 2xx, or the body does not
    parse), the handler sends a failure envelope and the account call is
    the only call made: no summoner is looked up. *)
Theorem identity_account_lookup_failed env up now req gameName tagLine apiKey endpoint :
  Valid.identity env req gameName tagLine apiKey endpoint ->
  record_of (account_by_riot_id up (Valid.accountCall gameName tagLine apiKey endpoint))
  = None ->
  fst (Summoner.handler env up now req)
  = [Valid.accountCall gameName tagLine apiKey endpoint]
  /\ failure (snd (Summoner.handler env up now req)).
Proof.
  intros Hvalid Hnone.
  destruct (record_of_none _ Hnone)
    as [(e & Hf) | [(r & Hf & Hok) | (r & e & Hf & Hok & Hjson)]].
  - rewrite (identity_rejected env up now req _ _ _ _ Hvalid e Hf).
    split; [reflexivity | apply identity_internal_error_failure].
  - rewrite (identity_not_ok env up now req _ _ _ _ Hvalid r Hf Hok).
    split; [reflexivity |]. cbn [snd].
    destruct (Z.eqb_spec (status r) 404); [failure_envelope |].
    destruct (Z.eqb_spec (status r) 403); [failure_envelope |].
    destruct (text r); [failure_envelope | passthrough Hok].
  - rewrite (identity_bad_body env up now req _ _ _ _ Hvalid r e Hf Hok Hjson).
    split; [reflexivity | apply identity_internal_error_failure].
Qed.

Lemma identity_account_lookup_failed_witness :
  fst (Summoner.handler Sample.env (Sample.account_answers 500) Sample.now
         Sample.identity_request)
  = [Valid.accountCall "Hide on bush" "KR1" "RGAPI-key" "asia.api.riotgames.com"]
  /\ failure (snd (Summoner.handler Sample.env (Sample.account_answers 500) Sample.now
                     Sample.identity_request)).
Proof.
  apply (identity_account_lookup_failed Sample.env (Sample.account_answers 500) Sample.now
           Sample.identity_request "Hide on bush" "KR1" "RGAPI-key" "asia.api.riotgames.com").
  - sample_identity.
  - reflexivity.
Defined.

(** X6: in the identity flow, when both lookups yield a record, the handler
    makes the two calls in order (the summoner call carrying the PUUID of
    the account record), sends status 200, and [data] holds exactly
    [puuid], [gameName], [tagLine], [summonerId], [accountId],
    [summonerLevel], [profileIconId] and [revisionDate], each taken from
    the upstream records; [metadata] echoes the region and the server
    used. *)
Theorem identity_found_both env up now req gameName tagLine apiKey endpoint
    serverEndpoint accountData summonerData :
  Valid.identity env req gameName tagLine apiKey endpoint ->
  record_of (account_by_riot_id up (Valid.accountCall gameName tagLine apiKey endpoint))
  = Some accountData ->
  lookup (or_default (Summoner.server req) "kr") Summoner.serverEndpoints
  = Some serverEndpoint ->
  record_of (summoner_by_puuid up
               (Valid.summonerCall (acc_puuid accountData) apiKey serverEndpoint))
  = Some summonerData ->
  let sent := snd (Summoner.handler env up now req) in
  fst (Summoner.handler env up now req)
  = [ Valid.accountCall gameName tagLine apiKey endpoint;
      Valid.summonerCall (acc_puuid accountData) apiKey serverEndpoint ]
  /\ code sent = 200
  /\ success sent = Some (Bool true)
  /\ data_keys sent
     = [ "puuid"; "gameName"; "tagLine"; "summonerId"; "accountId"; "summonerLevel";
         "profileIconId"; "revisionDate" ]
  /\ data "puuid" sent = Some (Str (acc_puuid accountData))
  /\ data "gameName" sent = Some (Str (acc_gameName accountData))
  /\ data "tagLine" sent = Some (Str (acc_tagLine accountData))
  /\ data "summonerId" sent = Some (Str (id summonerData))
  /\ data "accountId" sent = Some (Str (accountId summonerData))
  /\ data "summonerLevel" sent = Some (Num (summonerLevel summonerData))
  /\ data "profileIconId" sent = Some (Num (profileIconId summonerData))
  /\ data "revisionDate" sent = Some (Num (revisionDate summonerData))
  /\ metadata "region" sent = Some (Str (or_default (Summoner.region req) "asia"))
  /\ metadata "server" sent = Some (Str (or_default (Summoner.server req) "kr"))
  /\ metadata "timestamp" sent = Some (Str now).
Proof.
  intros Hvalid Ha Hsrv Hs.
  destruct (record_of_some _ _ Ha) as (r & Hf & Hok & Hjson).
  destruct (record_of_some _ _ Hs) as (r' & Hf' & Hok' & Hjson').
  cbv zeta.
  rewrite (identity_found env up now req _ _ _ _ Hvalid r accountData Hf Hok Hjson).
  rewrite (truthy_text_own _ _ _ (serverEndpoint_found _ _ Hsrv)). cbv zeta.
  rewrite (identity_summoner_answer up _ _ _ _ Hsrv), Hf', Hok', Hjson'.
  repeat split; reflexivity.
Qed.

Lemma identity_found_both_witness :
  let sent :=
    snd (Summoner.handler Sample.env Sample.found_everything Sample.now
           Sample.identity_request) in
  data "summonerId" sent = Some (Str "summoner-1")
  /\ metadata "server" sent = Some (Str "kr").
Proof.
  cbv zeta.
  pose proof (identity_found_both Sample.env Sample.found_everything Sample.now
                Sample.identity_request "Hide on bush" "KR1" "RGAPI-key"
                "asia.api.riotgames.com" "kr.api.riotgames.com"
                Sample.account Sample.summoner) as H.
  cbv zeta in H.
  destruct H as (_ & _ & _ & _ & _ & _ & _ & Hid & _ & _ & _ & _ & _ & Hserver & _).
  - sample_identity.
  - reflexivity.
  - reflexivity.
  - reflexivity.
  - split; [exact Hid | exact Hserver].
Defined.

(** X7: a GET request of the identity flow is answered with status 200 only
    if the request passed every check and the account lookup yielded a
    record; the [puuid], [gameName] and [tagLine] of the reply are then
    those of the upstream record (not the names of the request), and the
    account call comes first among the calls made. *)
Theorem identity_success_only env up now req :
  Summoner.method req = "GET" ->
  code (snd (Summoner.handler env up now req)) = 200 ->
  exists gameName tagLine apiKey endpoint accountData,
    let sent := snd (Summoner.handler env up now req) in
    let c := Valid.accountCall gameName tagLine apiKey endpoint in
    Valid.identity env req gameName tagLine apiKey endpoint
    /\ record_of (account_by_riot_id up c) = Some accountData
    /\ hd_error (fst (Summoner.handler env up now req)) = Some c
    /\ data "puuid" sent = Some (Str (acc_puuid accountData))
    /\ data "gameName" sent = Some (Str (acc_gameName accountData))
    /\ data "tagLine" sent = Some (Str (acc_tagLine accountData))
    /\ metadata "region" sent = Some (Str (or_default (Summoner.region req) "asia"))
    /\ metadata "server" sent = Some (Str (or_default (Summoner.server req) "kr")).
Proof.
  intros Hget Hcode.
  destruct (identity_stopped env req Hget)
    as [(g & t & k & ep & Hvalid) | [(sent & Hf & _ & Hsent) | (c & _ & _ & Hthrown & _)]].
  2: { rewrite Hsent in Hcode. destruct Hf as (Hne & _). contradiction. }
  2: { rewrite Hthrown in Hcode. discriminate Hcode. }
  exists g, t, k, ep.
  destruct (account_by_riot_id up (Valid.accountCall g t k ep)) as [e | r] eqn:Hresp.
  { rewrite (identity_rejected env up now req _ _ _ _ Hvalid e Hresp) in Hcode.
    discriminate Hcode. }
  destruct (ok r) eqn:Hok.
  2: { rewrite (identity_not_ok env up now req _ _ _ _ Hvalid r Hresp Hok) in Hcode.
       cbn [snd] in Hcode. exfalso.
       destruct (status r =? 404); [discriminate Hcode |].
       destruct (status r =? 403); [discriminate Hcode |].
       destruct (text r); [discriminate Hcode |].
       exact (not_ok_not_200 _ Hok Hcode). }
  destruct (json r) as [e | a] eqn:Hjson.
  { rewrite (identity_bad_body env up now req _ _ _ _ Hvalid r e Hresp Hok Hjson) in Hcode.
    discriminate Hcode. }
  exists a. cbv zeta. rewrite Hresp. cbn [record_of]. rewrite Hok, Hjson.
  rewrite (identity_found env up now req _ _ _ _ Hvalid r a Hresp Hok Hjson) in Hcode |- *.
  destruct (truthy_text (get _ Summoner.serverEndpoints)) as [sep |];
    [| split; [exact Hvalid |]; repeat split; reflexivity].
  cbv zeta in Hcode |- *.
  destruct (answer up summoner_by_puuid _) as [e | r']; [discriminate Hcode |].
  destruct (ok r'); [| split; [exact Hvalid |]; repeat split; reflexivity].
  destruct (json r'); [discriminate Hcode |].
  split; [exact Hvalid |]; repeat split; reflexivity.
Qed.

Lemma identity_success_only_witness :
  exists gameName tagLine apiKey endpoint accountData,
    let sent :=
      snd (Summoner.handler Sample.env Sample.found_everything Sample.now
             Sample.identity_request) in
    let c := Valid.accountCall gameName tagLine apiKey endpoint in
    Valid.identity Sample.env Sample.identity_request gameName tagLine apiKey endpoint
    /\ record_of (account_by_riot_id Sample.found_everything c) = Some accountData
    /\ hd_error (fst (Summoner.handler Sample.env Sample.found_everything Sample.now
                        Sample.identity_request)) = Some c
    /\ data "puuid" sent = Some (Str (acc_puuid accountData))
    /\ data "gameName" sent = Some (Str (acc_gameName accountData))
    /\ data "tagLine" sent = Some (Str (acc_tagLine accountData))
    /\ metadata "region" sent
       = Some (Str (or_default (Summoner.region Sample.identity_request) "asia"))
    /\ metadata "server" sent
       = Some (Str (or_default (Summoner.server Sample.identity_request) "kr")).
Proof.
  apply (identity_success_only Sample.env Sample.found_everything Sample.now
           Sample.identity_request); reflexivity.
Defined.

(** ** Outcomes of the rank flow *)

Ltac sample_rank := unfold Valid.rank; repeat split; reflexivity.

(** X8: in the rank flow, when both lookups yield a record, the handler
    makes the summoner call and then the league-entries call for the [id]
    of the summoner record on the same host, sends status 200, and [data]
    holds exactly [puuid] (the one of the request), [summonerId] and
    [summonerLevel] (from the summoner record), [ranks] (one processed
    entry per league entry, in the upstream's order) and [summary], whose
    [totalRankedQueues] is the number of league entries; [metadata] echoes
    the server used. *)
Theorem rank_found_both env up now req puuid apiKey endpoint summonerData rankData :
  Valid.rank env req puuid apiKey endpoint ->
  record_of (summoner_by_puuid up (Valid.summonerCall puuid apiKey endpoint))
  = Some summonerData ->
  record_of (entries_by_summoner up (Valid.rankCall (id summonerData) apiKey endpoint))
  = Some rankData ->
  let sent := snd (Rank.handler env up now req) in
  fst (Rank.handler env up now req)
  = [ Valid.summonerCall puuid apiKey endpoint;
      Valid.rankCall (id summonerData) apiKey endpoint ]
  /\ code sent = 200
  /\ success sent = Some (Bool true)
  /\ data_keys sent = ["puuid"; "summonerId"; "summonerLevel"; "ranks"; "summary"]
  /\ data "puuid" sent = Some (Str puuid)
  /\ data "summonerId" sent = Some (Str (id summonerData))
  /\ data "summonerLevel" sent = Some (Num (summonerLevel summonerData))
  /\ data "ranks" sent
     = Some (Arr (map (fun entry => Rank.value_of_rank (Rank.process entry)) rankData))
  /\ data "summary" sent
     = Some (Obj [ ("totalRankedQueues", Num (num_of_Z (Z.of_nat (List.length rankData))));
                   ("highestTier",
                    Rank.highestTier (Rank.summary (map Rank.process rankData))) ])
  /\ metadata "server" sent = Some (Str (or_default (Rank.server req) "kr"))
  /\ metadata "timestamp" sent = Some (Str now).
Proof.
  intros Hvalid Hs Hl.
  destruct (record_of_some _ _ Hs) as (r & Hf & Hok & Hjson).
  destruct (record_of_some _ _ Hl) as (r' & Hf' & Hok' & Hjson').
  cbv zeta.
  rewrite (rank_summoner_found env up now req _ _ _ Hvalid r summonerData Hf Hok Hjson).
  cbv zeta. rewrite Hf', Hok', Hjson'.
  repeat split; try reflexivity.
  - cbn. rewrite map_map. reflexivity.
  - cbn. unfold Rank.value_of_summary, Rank.summary.
    cbn [Rank.totalRankedQueues Rank.highestTier].
    rewrite length_map. reflexivity.
Qed.

Lemma rank_found_both_witness :
  let sent :=
    snd (Rank.handler Sample.env Sample.found_everything Sample.now Sample.rank_request) in
  data "ranks" sent = Some (Arr [])
  /\ data "puuid" sent = Some (Str "puuid-1").
Proof.
  cbv zeta.
  pose proof (rank_found_both Sample.env Sample.found_everything Sample.now
                Sample.rank_request "puuid-1" "RGAPI-key" "kr.api.riotgames.com"
                Sample.summoner []) as H.
  cbv zeta in H.
  destruct H as (_ & _ & _ & _ & Hpuuid & _ & _ & Hranks & _).
  - sample_rank.
  - reflexivity.
  - reflexivity.
  - split; [exact Hranks | exact Hpuuid].
Defined.

(** X9: a GET request of the rank flow is answered with status 200 only if
    the request passed every check and both lookups yielded a record: the
    reply is then the success body built from the two records. *)
Theorem rank_success_only env up now req :
  Rank.method req = "GET" ->
  code (snd (Rank.handler env up now req)) = 200 ->
  exists puuid apiKey endpoint summonerData rankData,
    Valid.rank env req puuid apiKey endpoint
    /\ record_of (summoner_by_puuid up (Valid.summonerCall puuid apiKey endpoint))
       = Some summonerData
    /\ record_of (entries_by_summoner up
                    (Valid.rankCall (id summonerData) apiKey endpoint))
       = Some rankData
    /\ Rank.handler env up now req
       = ([ Valid.summonerCall puuid apiKey endpoint;
            Valid.rankCall (id summonerData) apiKey endpoint ],
          send_json 200
            (Rank.response puuid summonerData (map Rank.process rankData)
               (or_default (Rank.server req) "kr") now)).
Proof.
  intros Hget Hcode.
  destruct (rank_stopped env req Hget)
    as [(p & k & ep & Hvalid) | [(sent & Hf & _ & Hsent) | (c & _ & _ & Hthrown & _)]].
  2: { rewrite Hsent in Hcode. destruct Hf as (Hne & _). contradiction. }
  2: { rewrite Hthrown in Hcode. discriminate Hcode. }
  exists p, k, ep.
  destruct (summoner_by_puuid up (Valid.summonerCall p k ep)) as [e | r] eqn:Hresp.
  { rewrite (rank_rejected env up now req _ _ _ Hvalid e Hresp) in Hcode.
    discriminate Hcode. }
  destruct (ok r) eqn:Hok.
  2: { rewrite (rank_summoner_not_ok env up now req _ _ _ Hvalid r Hresp Hok) in Hcode.
       cbn [snd] in Hcode. exfalso.
       destruct (status r =? 404); [discriminate Hcode |].
       exact (not_ok_not_200 _ Hok Hcode). }
  destruct (json r) as [e | d] eqn:Hjson.
  { rewrite (rank_summoner_bad_body env up now req _ _ _ Hvalid r e Hresp Hok Hjson) in Hcode.
    discriminate Hcode. }
  exists d. cbn [record_of]. rewrite Hok, Hjson.
  rewrite (rank_summoner_found env up now req _ _ _ Hvalid r d Hresp Hok Hjson) in Hcode |- *.
  cbv zeta in Hcode |- *.
  destruct (entries_by_summoner up _) as [e | r']; [discriminate Hcode |].
  cbn [record_of].
  destruct (ok r') eqn:Hok'; [| exfalso; exact (not_ok_not_200 _ Hok' Hcode)].
  destruct (json r') as [e | l]; [discriminate Hcode |].
  exists l. split; [exact Hvalid |]. repeat split; reflexivity.
Qed.

Lemma rank_success_only_witness :
  exists puuid apiKey endpoint summonerData rankData,
    Valid.rank Sample.env Sample.rank_request puuid apiKey endpoint
    /\ record_of (summoner_by_puuid Sample.found_everything
                    (Valid.summonerCall puuid apiKey endpoint))
       = Some summonerData
    /\ record_of (entries_by_summoner Sample.found_everything
                    (Valid.rankCall (id summonerData) apiKey endpoint))
       = Some rankData
    /\ Rank.handler Sample.env Sample.found_everything Sample.now Sample.rank_request
       = ([ Valid.summonerCall puuid apiKey endpoint;
            Valid.rankCall (id summonerData) apiKey endpoint ],
          send_json 200
            (Rank.response puuid summonerData (map Rank.process rankData)
               (or_default (Rank.server Sample.rank_request) "kr") Sample.now)).
Proof.
  apply (rank_success_only Sample.env Sample.found_everything Sample.now
           Sample.rank_request); reflexivity.
Defined.

(** X10: in the rank flow, once the summoner is found, whenever the
    league-entries lookup does not yield a record the handler has made
    both calls and sends a failure envelope; a non-2xx answer (404
    included) is passed through with its status and
    [error: "Failed to get rank info"], a rejected fetch or a body that
    does not parse gives status 500 with the message of the error. *)
Theorem rank_entries_lookup_failed env up now req puuid apiKey endpoint summonerData :
  Valid.rank env req puuid apiKey endpoint ->
  record_of (summoner_by_puuid up (Valid.summonerCall puuid apiKey endpoint))
  = Some summonerData ->
  record_of (entries_by_summoner up (Valid.rankCall (id summonerData) apiKey endpoint))
  = None ->
  let c := Valid.rankCall (id summonerData) apiKey endpoint in
  let sent := snd (Rank.handler env up now req) in
  fst (Rank.handler env up now req) = [Valid.summonerCall puuid apiKey endpoint; c]
  /\ failure sent
  /\ (forall r, entries_by_summoner up c = Resolved r -> ok r = false ->
        sent = send_json (status r)
                 (Obj [ ("success", Bool false);
                        ("error", Str "Failed to get rank info");
                        ("status", Num (num_of_Z (status r))) ]))
  /\ (forall e,
        entries_by_summoner up c = Rejected e
        \/ (exists r, entries_by_summoner up c = Resolved r
                      /\ ok r = true /\ json r = inl e) ->
        sent = send_json 500
                 (Obj [ ("success", Bool false);
                        ("error", Str "Internal server error");
                        ("message", Str (message e)) ])).
Proof.
  intros Hvalid Hs Hnone.
  destruct (record_of_some _ _ Hs) as (r & Hf & Hok & Hjson).
  cbv zeta.
  rewrite (rank_summoner_found env up now req _ _ _ Hvalid r summonerData Hf Hok Hjson).
  cbv zeta.
  destruct (record_of_none _ Hnone)
    as [(e & Hf') | [(r' & Hf' & Hok') | (r' & e & Hf' & Hok' & Hjson')]];
    rewrite Hf'.
  - split; [reflexivity |]. split; [apply rank_internal_error_failure |].
    split; [discriminate |].
    intros e' [[= <-] | (r0 & [=] & _)]. reflexivity.
  - rewrite Hok'. split; [reflexivity |]. split; [passthrough Hok' |].
    split; [intros r0 [= <-] _; reflexivity |].
    intros e' [[=] | (r0 & [= <-] & Hok0 & _)]. congruence.
  - rewrite Hok', Hjson'. split; [reflexivity |].
    split; [apply rank_internal_error_failure |].
    split; [intros r0 [= <-] Hok0; congruence |].
    intros e' [[=] | (r0 & [= <-] & _ & Hjson0)].
    rewrite Hjson' in Hjson0. injection Hjson0 as <-. reflexivity.
Qed.

Lemma rank_entries_lookup_failed_witness :
  let up :=
    Sample.upstream (Sample.respond 200 "{}" (inr Sample.account))
      (Sample.respond 200 "{}" (inr Sample.summoner))
      (Sample.respond 404 "{}" Sample.no_json) in
  fst (Rank.handler Sample.env up Sample.now Sample.rank_request)
  = [ Valid.summonerCall "puuid-1" "RGAPI-key" "kr.api.riotgames.com";
      Valid.rankCall "summoner-1" "RGAPI-key" "kr.api.riotgames.com" ]
  /\ failure (snd (Rank.handler Sample.env up Sample.now Sample.rank_request)).
Proof.
  cbv zeta.
  pose proof (rank_entries_lookup_failed Sample.env
                (Sample.upstream (Sample.respond 200 "{}" (inr Sample.account))
                   (Sample.respond 200 "{}" (inr Sample.summoner))
                   (Sample.respond 404 "{}" Sample.no_json))
                Sample.now Sample.rank_request "puuid-1" "RGAPI-key"
                "kr.api.riotgames.com" Sample.summoner) as H.
  cbv zeta in H.
  destruct H as (Hcalls & Hfail & _).
  - sample_rank.
  - reflexivity.
  - reflexivity.
  - split; [exact Hcalls | exact Hfail].
Defined.

(** X11: in the rank flow a non-2xx answer to the summoner call always sets
    the status of the reply: 404 is answered with status 404,
    [error: "Summoner not found on this server"] and a message naming the
    server; every other status, 401 and 403 included, is passed through
    with [error: "Failed to get summoner info"] and the status, without
    the body text. *)
Theorem rank_summoner_status env up now req puuid apiKey endpoint r :
  Valid.rank env req puuid apiKey endpoint ->
  summoner_by_puuid up (Valid.summonerCall puuid apiKey endpoint) = Resolved r ->
  ok r = false ->
  let sent := snd (Rank.handler env up now req) in
  code sent = status r
  /\ (status r = 404 ->
      sent = send_json 404
               (Obj [ ("success", Bool false);
                      ("error", Str "Summoner not found on this server");
                      ("message",
                       Str ("No summoner found with PUUID on "
                            ++ or_default (Rank.server req) "kr" ++ " server")) ]))
  /\ (status r <> 404 ->
      sent = send_json (status r)
               (Obj [ ("success", Bool false);
                      ("error", Str "Failed to get summoner info");
                      ("status", Num (num_of_Z (status r))) ])).
Proof.
  intros Hvalid Hf Hok. cbv zeta.
  rewrite (rank_summoner_not_ok env up now req _ _ _ Hvalid r Hf Hok). cbn [snd].
  destruct (Z.eqb_spec (status r) 404) as [H404 | Hother].
  - split; [cbn; congruence |]. split; [reflexivity | contradiction].
  - split; [reflexivity |]. split; [contradiction | reflexivity].
Qed.

Lemma rank_summoner_status_witness :
  let up :=
    Sample.upstream (Sample.respond 200 "{}" (inr Sample.account))
      (Sample.respond 403 "Forbidden" Sample.no_json)
      (Sample.respond 200 "[]" (inr [])) in
  let sent := snd (Rank.handler Sample.env up Sample.now Sample.rank_request) in
  code sent = 403 /\ error sent = Some (Str "Failed to get summoner info").
Proof.
  cbv zeta.
  pose proof (rank_summoner_status Sample.env
                (Sample.upstream (Sample.respond 200 "{}" (inr Sample.account))
                   (Sample.respond 403 "Forbidden" Sample.no_json)
                   (Sample.respond 200 "[]" (inr [])))
                Sample.now Sample.rank_request "puuid-1" "RGAPI-key"
                "kr.api.riotgames.com"
                {| status := 403; text := inr "Forbidden"; json := Sample.no_json |}) as H.
  cbv zeta in H.
  destruct H as (Hcode & _ & Hother).
  - sample_rank.
  - reflexivity.
  - reflexivity.
  - split; [exact Hcode |]. rewrite Hother; [reflexivity | discriminate].
Defined.

(** ** The clock *)

(** X12: the rank flow reads the clock only for [metadata.timestamp]: two
    runs on the same request, under the same configuration and against the
    same upstream answers, at whatever times, make the same calls and send
    the same status and the same body, [metadata.timestamp] excepted; a
    reply with a status other than 200 is the same at all times. *)
Theorem rank_clock env up now1 now2 req :
  fst (Rank.handler env up now1 req) = fst (Rank.handler env up now2 req)
  /\ reply_without_timestamp (snd (Rank.handler env up now1 req))
     = reply_without_timestamp (snd (Rank.handler env up now2 req))
  /\ (code (snd (Rank.handler env up now1 req)) <> 200 ->
      Rank.handler env up now1 req = Rank.handler env up now2 req).
Proof.
  destruct (String.eqb_spec (Rank.method req) "GET") as [Hget | Hother].
  2: { assert (H : Rank.handler env up now1 req = Rank.handler env up now2 req).
       { unfold Rank.handler.
         destruct (String.eqb (Rank.method req) "OPTIONS"); [reflexivity |].
         apply String.eqb_neq in Hother. rewrite Hother. reflexivity. }
       rewrite H. auto. }
  destruct (rank_stopped env req Hget)
    as [(p & k & ep & Hvalid) | [(sent & _ & _ & Hsent) | (c & _ & _ & Hthrown & _)]].
  2: { rewrite !Hsent. auto. }
  2: { rewrite !Hthrown. auto. }
  destruct (summoner_by_puuid up (Valid.summonerCall p k ep)) as [e | r] eqn:Hresp.
  { rewrite !(rank_rejected env up _ req _ _ _ Hvalid e Hresp). auto. }
  destruct (ok r) eqn:Hok.
  2: { rewrite !(rank_summoner_not_ok env up _ req _ _ _ Hvalid r Hresp Hok). auto. }
  destruct (json r) as [e | d] eqn:Hjson.
  { rewrite !(rank_summoner_bad_body env up _ req _ _ _ Hvalid r e Hresp Hok Hjson). auto. }
  rewrite !(rank_summoner_found env up _ req _ _ _ Hvalid r d Hresp Hok Hjson).
  cbv zeta.
  destruct (entries_by_summoner up _) as [e | r']; [auto |].
  destruct (ok r'); [| auto].
  destruct (json r'); [auto |].
  split; [reflexivity |]. split; [reflexivity |].
  intros Hcode. cbn in Hcode. contradiction.
Qed.

(** X13: in the identity flow a reply with a status other than 200 does not
    depend on the clock: the same request, configuration and upstream
    answers give the same calls and the same reply at all times. *)
Theorem identity_failure_ignores_clock env up now1 now2 req :
  code (snd (Summoner.handler env up now1 req)) <> 200 ->
  Summoner.handler env up now1 req = Summoner.handler env up now2 req.
Proof.
  intros Hcode.
  destruct (String.eqb_spec (Summoner.method req) "GET") as [Hget | Hother].
  2: { unfold Summoner.handler.
       destruct (String.eqb (Summoner.method req) "OPTIONS"); [reflexivity |].
       apply String.eqb_neq in Hother. rewrite Hother. reflexivity. }
  destruct (identity_stopped env req Hget)
    as [(g & t & k & ep & Hvalid) | [(sent & _ & _ & Hsent) | (c & _ & _ & Hthrown & _)]].
  2: { rewrite !Hsent. reflexivity. }
  2: { rewrite !Hthrown. reflexivity. }
  destruct (account_by_riot_id up (Valid.accountCall g t k ep)) as [e | r] eqn:Hresp.
  { rewrite !(identity_rejected env up _ req _ _ _ _ Hvalid e Hresp). reflexivity. }
  destruct (ok r) eqn:Hok.
  2: { rewrite !(identity_not_ok env up _ req _ _ _ _ Hvalid r Hresp Hok). reflexivity. }
  destruct (json r) as [e | a] eqn:Hjson.
  { rewrite !(identity_bad_body env up _ req _ _ _ _ Hvalid r e Hresp Hok Hjson).
    reflexivity. }
  rewrite (identity_found env up now1 req _ _ _ _ Hvalid r a Hresp Hok Hjson) in Hcode.
  rewrite !(identity_found env up _ req _ _ _ _ Hvalid r a Hresp Hok Hjson).
  destruct (truthy_text (get _ Summoner.serverEndpoints)) as [sep |];
    [| cbn in Hcode; contradiction].
  cbv zeta in Hcode |- *.
  destruct (answer up summoner_by_puuid _) as [e | r']; [reflexivity |].
  destruct (ok r'); [| cbn in Hcode; contradiction].
  destruct (json r'); [reflexivity | cbn in Hcode; contradiction].
Qed.

Lemma identity_failure_ignores_clock_witness :
  Summoner.handler Sample.env (Sample.account_answers 404) Sample.now
    Sample.identity_request
  = Summoner.handler Sample.env (Sample.account_answers 404) "2030-06-01T12:00:00.000Z"
      Sample.identity_request.
Proof.
  apply (identity_failure_ignores_clock Sample.env (Sample.account_answers 404) Sample.now
           "2030-06-01T12:00:00.000Z" Sample.identity_request).
  cbn. lia.
Defined.

(** ** Tiers *)

Ltac tier_cases k :=
  repeat match goal with
         | |- context [String.eqb k ?s] => destruct (String.eqb_spec k s) as [-> | _]
         end.

Lemma ordinal_range tier : 0 <= Tier.ordinal tier <= 10.
Proof.
  unfold Tier.ordinal. generalize (Rank.key_of tier). intros k. cbn.
  tier_cases k; cbn; lia.
Qed.

Lemma ordinal_injective a b :
  0 < Tier.ordinal a -> Tier.ordinal a = Tier.ordinal b -> a = b.
Proof.
  unfold Tier.ordinal.
  destruct a as [s |]; [| cbn; lia].
  destruct b as [t |]; [| cbn; tier_cases s; cbn; lia].
  cbn. tier_cases s; cbn; try lia; tier_cases t; cbn; intros; first [reflexivity | lia].
Qed.

Lemma plain_or_inherited tier :
  Tier.plain tier \/ In (Rank.key_of tier) Object_prototype.
Proof.
  unfold Tier.plain.
  destruct (existsb (String.eqb (Rank.key_of tier)) Object_prototype) eqn:Hin.
  - right. apply existsb_eqb_In. exact Hin.
  - left. intros H. apply existsb_eqb_In in H. congruence.
Qed.

(** An inherited name is the key of no absent tier. *)
Lemma inherited_key tier :
  In (Rank.key_of tier) Object_prototype -> tier = Some (Rank.key_of tier).
Proof.
  destruct tier as [s |]; [reflexivity |]. cbn. intuition discriminate.
Qed.

(** X14: for a tier that is no name inherited from [Object.prototype],
    [getTierValue] is a number between 0 and 10; two tiers with the same
    value other than 0 are the same tier: the ordinals of the ten
    recognised names are pairwise distinct, and so are the inherited
    members. *)
Theorem getTierValue_order a b :
  (Tier.plain a ->
   exists v, Rank.getTierValue a = Rank.Ordinal v /\ 0 <= v <= 10)
  /\ (Rank.getTierValue a <> Rank.Ordinal 0 ->
      Rank.getTierValue a = Rank.getTierValue b -> a = b).
Proof.
  split.
  - intros Hplain. exists (Tier.ordinal a).
    split; [exact (getTierValue_plain a Hplain) | apply ordinal_range].
  - destruct (plain_or_inherited a) as [Ha | Ha], (plain_or_inherited b) as [Hb | Hb].
    + rewrite (getTierValue_plain a Ha), (getTierValue_plain b Hb).
      intros Hne [= Heq]. apply ordinal_injective; [| exact Heq].
      pose proof (ordinal_range a).
      assert (Tier.ordinal a <> 0) by congruence. lia.
    + rewrite (getTierValue_plain a Ha), (getTierValue_inherited b Hb). discriminate.
    + rewrite (getTierValue_inherited a Ha), (getTierValue_plain b Hb). discriminate.
    + rewrite (getTierValue_inherited a Ha), (getTierValue_inherited b Hb).
      intros _ [= Heq].
      rewrite (inherited_key a Ha), (inherited_key b Hb), Heq. reflexivity.
Qed.

Lemma highest_is_greatest first others :
  Forall (fun e => Tier.plain (Rank.tier e)) (first :: others) ->
  let best := fold_left Rank.higher others first in
  In best (first :: others)
  /\ forall e, In e (first :: others) ->
       Tier.ordinal (Rank.tier e) <= Tier.ordinal (Rank.tier best).
Proof.
  intros Hplain. cbv zeta.
  destruct (fold_higher others first Hplain) as (i & Hnth & Hmax & _).
  split; [exact (nth_error_In _ _ Hnth) | exact Hmax].
Qed.

(** X15: when no tier is a name inherited from [Object.prototype] and some
    entry has a recognised tier, [highestTier] does not depend on the
    order of the entries: any rearrangement of the list gives the same
    [highestTier]. *)
Theorem highestTier_permutation (ranks ranks' : list Rank.RankEntry) :
  Permutation ranks ranks' ->
  Forall (fun e => Tier.plain (Rank.tier e)) ranks ->
  (exists e, In e ranks /\ 0 < Tier.ordinal (Rank.tier e)) ->
  Rank.highestTier (Rank.summary ranks) = Rank.highestTier (Rank.summary ranks').
Proof.
  intros Hperm Hplain (e & He & Hpos).
  pose proof (Permutation_Forall Hperm Hplain) as Hplain'.
  destruct ranks as [| first others]; [destruct He |].
  destruct ranks' as [| first' others'];
    [apply Permutation_sym, Permutation_nil_cons in Hperm; destruct Hperm |].
  cbn [Rank.summary Rank.highestTier].
  destruct (highest_is_greatest first others Hplain) as (Hin & Hmax).
  destruct (highest_is_greatest first' others' Hplain') as (Hin' & Hmax').
  set (best := fold_left Rank.higher others first) in *.
  set (best' := fold_left Rank.higher others' first') in *.
  pose proof (Hmax e He) as Hbest.
  pose proof (Hmax' best (Permutation_in _ Hperm Hin)) as H1.
  pose proof (Hmax best' (Permutation_in _ (Permutation_sym Hperm) Hin')) as H2.
  f_equal. apply ordinal_injective; lia.
Qed.

Lemma highestTier_permutation_witness :
  Rank.highestTier
    (Rank.summary [Queue.solo (Some "SILVER"); Queue.flex (Some "DIAMOND")])
  = Rank.highestTier
      (Rank.summary [Queue.flex (Some "DIAMOND"); Queue.solo (Some "SILVER")]).
Proof.
  apply (highestTier_permutation
           [Queue.solo (Some "SILVER"); Queue.flex (Some "DIAMOND")]
           [Queue.flex (Some "DIAMOND"); Queue.solo (Some "SILVER")]).
  - apply perm_swap.
  - repeat constructor; unfold Tier.plain; cbn; intuition discriminate.
  - exists (Queue.solo (Some "SILVER")). split; [left; reflexivity | reflexivity].
Defined.

(** Without a recognised tier the order does matter: the first entry's
    tier is shown. *)
Example highestTier_order_matters :
  Rank.highestTier (Rank.summary [Queue.solo (Some "WOOD"); Queue.flex None])
  = Str "WOOD"
  /\ Rank.highestTier (Rank.summary [Queue.flex None; Queue.solo (Some "WOOD")])
     = Undefined.
Proof. split; reflexivity. Qed.

(** ** Processed entries *)

(** X16: the object built for a league entry always has the thirteen
    properties [queueType], [tier], [rank], [leaguePoints], [wins],
    [losses], [winRate], [veteran], [inactive], [freshBlood], [hotStreak],
    [leagueName] and [miniSeries] ([tier] and [rank] may hold [undefined]);
    the four flags are booleans, true exactly when the upstream entry says
    true; [leagueName] is [null] or a non-empty string; [miniSeries] is
    [null] exactly when the upstream entry has none. *)
Theorem processed_entry_shape (entry : LeagueEntryDTO) :
  exists props,
    Rank.value_of_rank (Rank.process entry) = Obj props
    /\ Object_keys props
       = [ "queueType"; "tier"; "rank"; "leaguePoints"; "wins"; "losses"; "winRate";
           "veteran"; "inactive"; "freshBlood"; "hotStreak"; "leagueName"; "miniSeries" ]
    /\ (forall flag get,
          In (flag, get)
             [ ("veteran", e_veteran); ("inactive", e_inactive);
               ("freshBlood", e_freshBlood); ("hotStreak", e_hotStreak) ] ->
          exists b,
            lookup flag props = Some (Bool b)
            /\ (b = true <-> get entry = Some true))
    /\ (lookup "leagueName" props = Some Null
        \/ exists name, lookup "leagueName" props = Some (Str name) /\ name <> "")
    /\ (lookup "leagueName" props = Some Null
        <-> e_leagueName entry = None \/ e_leagueName entry = Some "")
    /\ (lookup "miniSeries" props = Some Null <-> e_miniSeries entry = None)
    /\ lookup "winRate" props = Some (Num (Rank.winRate (e_wins entry) (e_losses entry))).
Proof.
  eexists. split; [reflexivity |]. split; [reflexivity |].
  split; [| split; [| split; [| split]]].
  - intros flag get Hin. cbn in Hin.
    destruct Hin as [[= <- <-] | [[= <- <-] | [[= <- <-] | [[= <- <-] | []]]]];
      cbn; eexists; (split; [reflexivity |]);
      match goal with
      | |- context [Rank.or_false ?o] => destruct o as [[] |]; cbn
      end; split; congruence.
  - cbn. destruct (e_leagueName entry) as [name |]; cbn; [| left; reflexivity].
    destruct (String.eqb_spec name ""); cbn; [left; reflexivity |].
    right. exists name. split; [reflexivity | assumption].
  - cbn. destruct (e_leagueName entry) as [name |]; cbn.
    + destruct (String.eqb_spec name "") as [-> | Hne]; cbn.
      * split; auto.
      * split; [discriminate |]. intros [H | [= H]]; [discriminate | contradiction].
    + split; auto.
  - cbn. destruct (e_miniSeries entry); cbn; split; congruence.
  - reflexivity.
Qed.

(** ** The order of win rates *)

Lemma V_lt_compare m e m' e' :
  normal m -> normal m' -> (V m e < V m' e')%Q ->
  SFcompare (S754_finite false m e) (S754_finite false m' e') = Some Lt.
Proof.
  intros Hm Hm' Hlt. cbn [SFcompare].
  destruct (Z.compare_spec e e') as [-> | He | He]; [| reflexivity |].
  - change (Pos.compare_cont Eq m m') with (Pos.compare m m').
    assert (H : (m < m')%positive).
    { unfold V in Hlt. apply Qmult_lt_r in Hlt; [| apply pow2_pos].
      rewrite <- Zlt_Qlt in Hlt. exact Hlt. }
    rewrite (proj2 (Pos.compare_lt_iff m m') H). reflexivity.
  - exfalso. unfold V in Hlt.
    assert (Hsplit : (pow2 e == pow2 (e - e') * pow2 e')%Q).
    { rewrite <- pow2_add. replace (e - e' + e')%Z with e by lia. reflexivity. }
    assert (Hd : (2 <= pow2 (e - e'))%Q).
    { rewrite pow2_Z by lia. change 2%Q with (inject_Z 2). rewrite <- Zle_Qle.
      change 2 with (2 ^ 1) at 1. apply Z.pow_le_mono_r; lia. }
    pose proof (pow2_pos e') as Hp.
    assert (HM : (4503599627370496 <= inject_Z (Zpos m))%Q).
    { change 4503599627370496%Q with (inject_Z (2 ^ 52)). rewrite <- Zle_Qle.
      destruct Hm; assumption. }
    assert (HM' : (inject_Z (Zpos m') <= 9007199254740992)%Q).
    { change 9007199254740992%Q with (inject_Z (2 ^ 53)). rewrite <- Zle_Qle.
      destruct Hm'; lia. }
    rewrite Hsplit in Hlt.
    set (M := inject_Z (Zpos m)) in *. set (M' := inject_Z (Zpos m')) in *.
    set (d := pow2 (e - e')) in *. set (p := pow2 e') in *.
    assert (H1 : (M' * p <= 9007199254740992 * p)%Q)
      by (apply Qmult_le_compat_r; lra).
    assert (H2 : (4503599627370496 * d <= M * d)%Q)
      by (apply Qmult_le_compat_r; lra).
    assert (H3 : (4503599627370496 * d * p <= M * d * p)%Q)
      by (apply Qmult_le_compat_r; lra).
    assert (H4 : (2 * p <= d * p)%Q) by (apply Qmult_le_compat_r; lra).
    assert (H5 : (M * (d * p) == M * d * p)%Q) by ring.
    assert (H6 : (4503599627370496 * d * p == 4503599627370496 * (d * p))%Q) by ring.
    rewrite H5 in Hlt. rewrite H6 in H3.
    set (dp := (d * p)%Q) in *. lra.
Qed.

(** Dividing the integer [k] by 100: a normal number within 2^-53 of the
    quotient. *)
Lemma two_decimals_close k :
  0 < k < 2 ^ 52 ->
  exists m e,
    Prim2SF (two_decimals k) = S754_finite false m e
    /\ normal m
    /\ (inject_Z k * (1 - u) <= V m e * 100)%Q
    /\ (V m e * 100 <= inject_Z k * (1 + u))%Q.
Proof.
  intros Hk. unfold two_decimals.
  destruct (num_of_Z_spec k ltac:(lia)) as (mk & ek & Hfk & Hholdk).
  pose proof (holds_V _ _ _ Hholdk) as HVk.
  destruct Hholdk as (Hmk & Hek & _).
  destruct (div_bounds false mk ek false hundred (-46) Hmk normal_hundred ltac:(lia))
    as (m & e & Hq & Hm & _ & Hlo & Hhi).
  exists m, e. rewrite div_spec, Hfk, Prim2SF_100.
  rewrite V_hundred, HVk in Hlo, Hhi.
  split; [exact Hq |]. split; [exact Hm |]. split; [exact Hlo | exact Hhi].
Qed.

Lemma two_decimals_0 : two_decimals 0 = 0%float.
Proof. vm_compute. reflexivity. Qed.

Lemma two_decimals_10000 : two_decimals 10000 = 100%float.
Proof. vm_compute. reflexivity. Qed.

(** More hundredths give a greater number. *)
Lemma two_decimals_lt k k' :
  0 <= k < k' -> k' < 2 ^ 52 ->
  SFcompare (Prim2SF (two_decimals k)) (Prim2SF (two_decimals k')) = Some Lt.
Proof.
  intros Hk Hk'.
  destruct (two_decimals_close k' ltac:(lia)) as (m' & e' & Hf' & Hm' & Hlo' & _).
  destruct (Z.eq_dec k 0) as [-> | Hk0].
  - rewrite two_decimals_0, Prim2SF_0, Hf'. reflexivity.
  - destruct (two_decimals_close k ltac:(lia)) as (m & e & Hf & Hm & _ & Hhi).
    rewrite Hf, Hf'. apply V_lt_compare; [exact Hm | exact Hm' |].
    assert (HK : (inject_Z k + 1 <= inject_Z k')%Q).
    { change 1%Q with (inject_Z 1). rewrite <- inject_Z_plus, <- Zle_Qle. lia. }
    assert (HK0 : (0 < inject_Z k)%Q).
    { change 0%Q with (inject_Z 0). rewrite <- Zlt_Qlt. lia. }
    assert (HK52 : (inject_Z k' <= 4503599627370496)%Q).
    { change 4503599627370496%Q with (inject_Z (2 ^ 52)). rewrite <- Zle_Qle. lia. }
    unfold u in Hlo', Hhi.
    set (K := inject_Z k) in *. set (K' := inject_Z k') in *.
    set (v := V m e) in *. set (v' := V m' e') in *. lra.
Qed.

Lemma two_decimals_leb k k' :
  0 <= k <= k' -> k' < 2 ^ 52 ->
  (two_decimals k <=? two_decimals k')%float = true.
Proof.
  intros Hk Hk'. rewrite leb_spec. unfold SFleb.
  destruct (Z.eq_dec k k') as [<- | Hne].
  - destruct (Z.eq_dec k 0) as [-> | Hk0].
    + rewrite two_decimals_0, Prim2SF_0. reflexivity.
    + destruct (two_decimals_close k ltac:(lia)) as (m & e & Hf & _).
      rewrite Hf. cbn [SFcompare]. rewrite Z.compare_refl.
      change (Pos.compare_cont Eq m m) with (Pos.compare m m).
      rewrite Pos.compare_refl. reflexivity.
  - rewrite (two_decimals_lt k k') by lia. reflexivity.
Qed.

Lemma nearest_hundredth_range w l k :
  0 <= w -> 0 <= l -> 0 < w + l ->
  nearest_hundredth w l k -> 0 <= k <= 10000.
Proof. unfold nearest_hundredth. intros Hw Hl Hn Hk. nia. Qed.

(** X17: for integers [0 <= wins], [0 <= losses] with at least one game
    (and fewer than 2^32), the win rate is a number between 0 and 100; it
    is exactly 0 when there are no wins and exactly 100 when there are no
    losses. *)
Theorem winRate_bounds (entry : LeagueEntryDTO) (w l : Z) :
  e_wins entry = num_of_Z w ->
  e_losses entry = num_of_Z l ->
  0 <= w -> 0 <= l -> 0 < w + l < 2 ^ 32 ->
  let rate := Rank.entry_winRate (Rank.process entry) in
  (0 <=? rate)%float = true
  /\ (rate <=? 100)%float = true
  /\ (w = 0 -> rate = 0%float)
  /\ (l = 0 -> rate = 100%float).
Proof.
  intros Hwins Hlosses Hw Hl Hn. cbn [Rank.process Rank.entry_winRate].
  rewrite Hwins, Hlosses.
  destruct (winRate_two_decimals w l Hw Hl Hn) as (k & Hk & Hnear).
  change (num_of_Z k / 100)%float with (two_decimals k) in Hk.
  pose proof (nearest_hundredth_range w l k Hw Hl ltac:(lia) Hnear) as Hrange.
  rewrite Hk. split; [| split; [| split]].
  - rewrite <- two_decimals_0. apply two_decimals_leb; lia.
  - rewrite <- two_decimals_10000. apply two_decimals_leb; lia.
  - intros ->. assert (k = 0) by nia. subst k. apply two_decimals_0.
  - intros ->. assert (k = 10000) by nia. subst k. apply two_decimals_10000.
Qed.

Lemma winRate_bounds_witness :
  let rate := Rank.entry_winRate (Rank.process (Sample.entry_with 12 0)) in
  (0 <=? rate)%float = true /\ rate = 100%float.
Proof.
  cbv zeta.
  pose proof (winRate_bounds (Sample.entry_with 12 0) 12 0 eq_refl eq_refl) as H.
  cbv zeta in H.
  destruct H as (Hlo & _ & _ & Hall); try lia.
  split; [exact Hlo | apply Hall; reflexivity].
Defined.

(** X18: with the same number of games, more wins never give a lower win
    rate. *)
Theorem winRate_monotone (w l w' l' : Z) :
  0 <= w <= w' -> 0 <= l' ->
  w + l = w' + l' -> 0 < w + l < 2 ^ 32 ->
  (Rank.winRate (num_of_Z w) (num_of_Z l) <=? Rank.winRate (num_of_Z w') (num_of_Z l'))%float
  = true.
Proof.
  intros Hw Hl' Hsame Hn.
  destruct (winRate_two_decimals w l ltac:(lia) ltac:(lia) Hn) as (k & Hk & Hnear).
  destruct (winRate_two_decimals w' l' ltac:(lia) Hl' ltac:(lia)) as (k' & Hk' & Hnear').
  change (num_of_Z k / 100)%float with (two_decimals k) in Hk.
  change (num_of_Z k' / 100)%float with (two_decimals k') in Hk'.
  pose proof (nearest_hundredth_range w l k ltac:(lia) ltac:(lia) ltac:(lia) Hnear) as Hr.
  pose proof (nearest_hundredth_range w' l' k' ltac:(lia) Hl' ltac:(lia) Hnear') as Hr'.
  destruct (Z.eq_dec w w') as [<- | Hlt].
  - assert (l' = l) by lia. subst l'. rewrite Hk. apply two_decimals_leb; lia.
  - rewrite Hk, Hk'. apply two_decimals_leb; [| lia].
    split; [lia |]. rewrite <- Hsame in Hnear'.
    set (n := w + l) in *.
    assert (H1 : 2 * (k * n) - 20000 * w <= n) by lia.
    assert (H2 : 20000 * w' - 2 * (k' * n) <= n) by lia.
    destruct (Z_le_gt_dec k k') as [Hle | Hgt]; [exact Hle | exfalso].
    assert (H3 : n <= (k - k') * n) by nia.
    lia.
Qed.

Lemma winRate_monotone_witness :
  (Rank.winRate (num_of_Z 3) (num_of_Z 7) <=? Rank.winRate (num_of_Z 4) (num_of_Z 6))%float
  = true.
Proof.
  apply (winRate_monotone 3 7 4 6); lia.
Defined.

(** ** Percent-encoding and decoding *)

Ltac each_ascii c := destruct c as [[] [] [] [] [] [] [] []].

Lemma unreserved_not_percent c : unreserved c = true -> Ascii.eqb c percent = false.
Proof. each_ascii c; vm_compute; intros H; first [reflexivity | discriminate H]. Qed.

Lemma unreserved_not_slash c : unreserved c = true -> c <> "/"%char.
Proof. each_ascii c; vm_compute; intros H; first [discriminate H | discriminate]. Qed.

Lemma unreserved_low c : unreserved c = true -> (N_of_ascii c <? 128)%N = true.
Proof. each_ascii c; vm_compute; intros H; first [reflexivity | discriminate H]. Qed.

Lemma hex_high c :
  hex_value (hex_digit (N_of_ascii c / 16)) = Some (N_of_ascii c / 16)%N.
Proof. each_ascii c; vm_compute; reflexivity. Qed.

Lemma hex_low c :
  hex_value (hex_digit (N_of_ascii c mod 16)) = Some (N_of_ascii c mod 16)%N.
Proof. each_ascii c; vm_compute; reflexivity. Qed.

Lemma hex_digits_not_slash c :
  hex_digit (N_of_ascii c / 16) <> "/"%char /\ hex_digit (N_of_ascii c mod 16) <> "/"%char.
Proof. each_ascii c; vm_compute; split; discriminate. Qed.

(** What [encodeURIComponent] writes, [decodeURIComponent] reads back unit
    by unit. *)
Lemma unescape_encode s : unescape (encodeURIComponent s) = Some (escaped s).
Proof.
  unfold escaped. induction s as [| c rest IH]; [reflexivity |].
  cbn [encodeURIComponent list_ascii_of_string map].
  destruct (unreserved c) eqn:Hc.
  - cbn [unescape]. rewrite (unreserved_not_percent c Hc), IH. reflexivity.
  - cbn [unescape]. replace (Ascii.eqb percent percent) with true by reflexivity.
    rewrite hex_high, hex_low, IH. cbn [option_map negb].
    rewrite <- (N.div_mod (N_of_ascii c) 16) by discriminate.
    reflexivity.
Qed.

Section Flags.

Variable f : ascii -> bool.
Hypothesis high_escaped : forall c, (N_of_ascii c <? 128)%N = false -> f c = true.

Lemma cont_flags lo hi c :
  (128 <= lo)%N -> cont lo hi (f c, N_of_ascii c) = cont lo hi (true, N_of_ascii c).
Proof.
  intros Hlo. unfold cont, between. cbn [fst snd].
  destruct (f c) eqn:Hf; [reflexivity |]. cbn [andb].
  destruct (N.ltb_spec (N_of_ascii c) 128) as [Hlt | Hge].
  - destruct (N.leb_spec lo (N_of_ascii c)); [lia | reflexivity].
  - rewrite high_escaped in Hf; [discriminate Hf |].
    apply N.ltb_ge. exact Hge.
Qed.

(** The check of the second pass only looks at the flags of octets with
    the high bit set. *)
Lemma utf8_ok_flags (n : nat) :
  forall l, (List.length l <= n)%nat ->
  utf8_ok (map (fun c => (f c, N_of_ascii c)) l)
  = utf8_ok (map (fun c => (true, N_of_ascii c)) l).
Proof.
  induction n as [| n IH]; intros l Hlen.
  { destruct l; [reflexivity | cbn in Hlen; lia]. }
  destruct l as [| c rest]; [reflexivity |].
  cbn [List.length] in Hlen. cbn [map utf8_ok].
  assert (Hrest : utf8_ok (map (fun c => (f c, N_of_ascii c)) rest)
                  = utf8_ok (map (fun c => (true, N_of_ascii c)) rest))
    by (apply IH; lia).
  destruct (f c) eqn:Hf.
  2: { destruct (N_of_ascii c <? 128)%N eqn:Hlow; [exact Hrest |].
       rewrite (high_escaped c Hlow) in Hf. discriminate Hf. }
  destruct (N_of_ascii c <? 128)%N; [exact Hrest |].
  destruct (between 194 223 (N_of_ascii c)).
  { destruct rest as [| c1 rest1]; [reflexivity |].
    cbn [map]. cbn [List.length] in Hlen.
    rewrite cont_flags by lia. rewrite (IH rest1) by lia. reflexivity. }
  destruct (between 224 239 (N_of_ascii c)).
  { destruct rest as [| c1 [| c2 rest2]]; [reflexivity | reflexivity |].
    cbn [map]. cbn [List.length] in Hlen.
    rewrite (cont_flags _ _ c1) by (destruct (N_of_ascii c =? 224)%N; lia).
    rewrite (cont_flags _ _ c2) by lia.
    rewrite (IH rest2) by lia. reflexivity. }
  destruct (between 240 244 (N_of_ascii c)); [| reflexivity].
  destruct rest as [| c1 [| c2 [| c3 rest3]]]; [reflexivity | reflexivity | reflexivity |].
  cbn [map]. cbn [List.length] in Hlen.
  rewrite (cont_flags _ _ c1) by (destruct (N_of_ascii c =? 240)%N; lia).
  rewrite (cont_flags _ _ c2) by lia.
  rewrite (cont_flags _ _ c3) by lia.
  rewrite (IH rest3) by lia. reflexivity.
Qed.

End Flags.

Lemma utf8_ok_escaped s : utf8_ok (escaped s) = utf8_valid s.
Proof.
  unfold escaped, utf8_valid, bytes. rewrite map_map.
  apply (utf8_ok_flags (fun c => negb (unreserved c))) with (n := List.length (list_ascii_of_string s));
    [| lia].
  intros c Hc. destruct (unreserved c) eqn:Hu; [| reflexivity].
  rewrite (unreserved_low c Hu) in Hc. discriminate Hc.
Qed.

Lemma string_of_bytes_bytes s : string_of_bytes (bytes s) = s.
Proof.
  unfold bytes. induction s as [| c rest IH]; [reflexivity |].
  cbn [list_ascii_of_string map string_of_bytes fold_right].
  rewrite ascii_N_embedding. f_equal. exact IH.
Qed.

Lemma string_of_bytes_escaped s : string_of_bytes (map snd (escaped s)) = s.
Proof.
  unfold escaped. rewrite map_map. cbn [snd]. apply string_of_bytes_bytes.
Qed.

Lemma decode_encode s :
  utf8_valid s = true -> decodeURIComponent (encodeURIComponent s) = inr s.
Proof.
  intros H. unfold decodeURIComponent.
  rewrite unescape_encode, utf8_ok_escaped, H, string_of_bytes_escaped. reflexivity.
Qed.

Lemma escaped_injective s t : escaped s = escaped t -> s = t.
Proof.
  intros H. rewrite <- (string_of_bytes_escaped s), <- (string_of_bytes_escaped t), H.
  reflexivity.
Qed.

Lemma encodeURIComponent_injective s t :
  encodeURIComponent s = encodeURIComponent t -> s = t.
Proof.
  intros H. apply escaped_injective.
  pose proof (unescape_encode s) as Hs. rewrite H, unescape_encode in Hs.
  congruence.
Qed.

Lemma encodeURIComponent_slash_free s : slash_free (encodeURIComponent s).
Proof.
  unfold slash_free. induction s as [| c rest IH]; [intros [] |].
  cbn [encodeURIComponent]. destruct (unreserved c) eqn:Hc.
  - cbn [list_ascii_of_string]. intros [H | H]; [| exact (IH H)].
    exact (unreserved_not_slash c Hc H).
  - cbn [list_ascii_of_string].
    destruct (hex_digits_not_slash c) as (Hhigh & Hlow).
    intros [H | [H | [H | H]]];
      [discriminate H | exact (Hhigh H) | exact (Hlow H) | exact (IH H)].
Qed.

(** Texts without [/] before a [/]: the split is unique. *)
Lemma split_at_slash a a' b b' :
  slash_free a -> slash_free a' ->
  a ++ String "/" b = a' ++ String "/" b' -> a = a' /\ b = b'.
Proof.
  unfold slash_free. revert a'.
  induction a as [| c a IH]; intros [| c' a'] Ha Ha' H; cbn in H.
  - injection H as H. split; [reflexivity | exact H].
  - injection H as Hc _. exfalso. apply Ha'. left. symmetry. exact Hc.
  - injection H as Hc _. exfalso. apply Ha. left. exact Hc.
  - injection H as Hc H.
    destruct (IH a') as (-> & ->);
      [intros Hin; apply Ha; right; exact Hin
      | intros Hin; apply Ha'; right; exact Hin
      | exact H |].
    subst c'. split; reflexivity.
Qed.

(** A text without [%] is decoded to itself. *)
Lemma decode_plain s : plain s -> decodeURIComponent s = inr s.
Proof.
  intros Hplain.
  assert (Hu : unescape s = Some (map (fun c => (false, N_of_ascii c)) (list_ascii_of_string s))).
  { unfold plain in Hplain. induction s as [| c rest IH]; [reflexivity |].
    cbn [unescape list_ascii_of_string map].
    destruct (Ascii.eqb_spec c percent) as [-> | _];
      [exfalso; apply Hplain; left; reflexivity |].
    rewrite IH; [reflexivity |].
    intros Hin. apply Hplain. right. exact Hin. }
  unfold decodeURIComponent. rewrite Hu.
  assert (Hok : forall l, utf8_ok (map (fun c => (false, N_of_ascii c)) l) = true)
    by (induction l; [reflexivity | assumption]).
  rewrite Hok, map_map. cbn [snd].
  f_equal. apply string_of_bytes_bytes.
Qed.

(** ** The names in the account call *)

Lemma identity_first_call env up now req gameName tagLine apiKey endpoint :
  Valid.identity env req gameName tagLine apiKey endpoint ->
  hd_error (fst (Summoner.handler env up now req))
  = Some (Valid.accountCall gameName tagLine apiKey endpoint).
Proof.
  intros Hvalid.
  destruct (account_by_riot_id up (Valid.accountCall gameName tagLine apiKey endpoint))
    as [e | r] eqn:Hresp.
  { rewrite (identity_rejected env up now req _ _ _ _ Hvalid e Hresp). reflexivity. }
  destruct (ok r) eqn:Hok.
  2: { rewrite (identity_not_ok env up now req _ _ _ _ Hvalid r Hresp Hok). reflexivity. }
  destruct (json r) as [e | a] eqn:Hjson.
  { rewrite (identity_bad_body env up now req _ _ _ _ Hvalid r e Hresp Hok Hjson).
    reflexivity. }
  rewrite (identity_found env up now req _ _ _ _ Hvalid r a Hresp Hok Hjson).
  destruct (truthy_text _) as [sep |]; [| reflexivity].
  cbv zeta. destruct (answer up summoner_by_puuid _) as [e | r']; [reflexivity |].
  destruct (ok r'); [| reflexivity].
  destruct (json r'); reflexivity.
Qed.

(** X19: when the two path segments of a GET request are what
    [encodeURIComponent] makes of two well-formed names, decoding and
    encoding cancel: the names are recovered, and the account call carries
    the received segments unchanged after
    [/riot/account/v1/accounts/by-riot-id/], whatever other segments
    follow. *)
Theorem identity_encoded_segments env up now req gameName tagLine others apiKey endpoint :
  Summoner.method req = "GET" ->
  Summoner.params req
  = Some (encodeURIComponent gameName :: encodeURIComponent tagLine :: others) ->
  utf8_valid gameName = true ->
  utf8_valid tagLine = true ->
  truthy (RIOT_API_KEY env) = Some apiKey ->
  truthy (lookup (or_default (Summoner.region req) "asia") Summoner.regionEndpoints)
  = Some endpoint ->
  Valid.identity env req gameName tagLine apiKey endpoint
  /\ hd_error (fst (Summoner.handler env up now req))
     = Some {| url := "https://" ++ endpoint ++ "/riot/account/v1/accounts/by-riot-id/"
                      ++ encodeURIComponent gameName ++ "/" ++ encodeURIComponent tagLine;
               headers := riot_headers apiKey |}.
Proof.
  intros Hget Hparams Hg Ht Hkey Hreg.
  assert (Hvalid : Valid.identity env req gameName tagLine apiKey endpoint).
  { split; [exact Hget |]. split; [| split; assumption].
    eexists. split; [exact Hparams |]. split; [cbn; lia |].
    split; cbn [nth]; apply decode_encode; assumption. }
  split; [exact Hvalid |].
  exact (identity_first_call env up now req _ _ _ _ Hvalid).
Qed.

Lemma identity_encoded_segments_witness :
  hd_error (fst (Summoner.handler Sample.env Sample.found_everything Sample.now
                   Sample.identity_request))
  = Some {| url := "https://asia.api.riotgames.com/riot/account/v1/accounts/by-riot-id/"
                   ++ "Hide%20on%20bush" ++ "/" ++ "KR1";
            headers := riot_headers "RGAPI-key" |}.
Proof.
  apply (identity_encoded_segments Sample.env Sample.found_everything Sample.now
           Sample.identity_request "Hide on bush" "KR1" [] "RGAPI-key"
           "asia.api.riotgames.com"); reflexivity.
Defined.

(** X20: path segments without [%] are taken as they are: the names looked
    up are the segments themselves. *)
Theorem identity_plain_segments env up now req gameName tagLine others apiKey endpoint :
  Summoner.method req = "GET" ->
  Summoner.params req = Some (gameName :: tagLine :: others) ->
  plain gameName ->
  plain tagLine ->
  truthy (RIOT_API_KEY env) = Some apiKey ->
  truthy (lookup (or_default (Summoner.region req) "asia") Summoner.regionEndpoints)
  = Some endpoint ->
  Valid.identity env req gameName tagLine apiKey endpoint
  /\ hd_error (fst (Summoner.handler env up now req))
     = Some (Valid.accountCall gameName tagLine apiKey endpoint).
Proof.
  intros Hget Hparams Hg Ht Hkey Hreg.
  assert (Hvalid : Valid.identity env req gameName tagLine apiKey endpoint).
  { split; [exact Hget |]. split; [| split; assumption].
    eexists. split; [exact Hparams |]. split; [cbn; lia |].
    split; cbn [nth]; apply decode_plain; assumption. }
  split; [exact Hvalid |].
  exact (identity_first_call env up now req _ _ _ _ Hvalid).
Qed.

Lemma plain_decide s :
  existsb (Ascii.eqb percent) (list_ascii_of_string s) = false -> plain s.
Proof.
  intros H Hin. unfold plain in *.
  assert (Htrue : existsb (Ascii.eqb percent) (list_ascii_of_string s) = true).
  { apply existsb_exists. exists percent. split; [exact Hin | apply Ascii.eqb_refl]. }
  rewrite H in Htrue. discriminate Htrue.
Defined.

Lemma identity_plain_segments_witness :
  let req :=
    {| Summoner.method := "GET"; Summoner.params := Some ["Faker"; "KR1"];
       Summoner.region := None; Summoner.server := None |} in
  hd_error (fst (Summoner.handler Sample.env Sample.found_everything Sample.now req))
  = Some (Valid.accountCall "Faker" "KR1" "RGAPI-key" "asia.api.riotgames.com").
Proof.
  cbv zeta.
  apply (identity_plain_segments Sample.env Sample.found_everything Sample.now
           {| Summoner.method := "GET"; Summoner.params := Some ["Faker"; "KR1"];
              Summoner.region := None; Summoner.server := None |}
           "Faker" "KR1" [] "RGAPI-key" "asia.api.riotgames.com");
    try reflexivity; apply plain_decide; reflexivity.
Defined.

(** X21: the URL of the account call determines the regional host and the
    two names: requests for different Riot IDs, or for different regions,
    never lead to the same account URL (a [/] or a [%] in a name cannot
    make one ID pass for another). *)
Theorem account_url_injective gameName tagLine apiKey endpoint gameName' tagLine' apiKey' endpoint' :
  In endpoint (hosts Summoner.regionEndpoints) ->
  In endpoint' (hosts Summoner.regionEndpoints) ->
  url (Valid.accountCall gameName tagLine apiKey endpoint)
  = url (Valid.accountCall gameName' tagLine' apiKey' endpoint') ->
  endpoint = endpoint' /\ gameName = gameName' /\ tagLine = tagLine'.
Proof.
  intros Hin Hin' Hurl. cbn [Valid.accountCall url] in Hurl.
  apply append_cancel_head in Hurl.
  assert (Hsame : forall host,
             host ++ "/riot/account/v1/accounts/by-riot-id/"
             ++ encodeURIComponent gameName ++ "/" ++ encodeURIComponent tagLine
             = host ++ "/riot/account/v1/accounts/by-riot-id/"
               ++ encodeURIComponent gameName' ++ "/" ++ encodeURIComponent tagLine' ->
             gameName = gameName' /\ tagLine = tagLine').
  { intros host H. do 2 apply append_cancel_head in H.
    change ("/" ++ encodeURIComponent tagLine) with (String "/" (encodeURIComponent tagLine)) in H.
    change ("/" ++ encodeURIComponent tagLine') with (String "/" (encodeURIComponent tagLine')) in H.
    apply split_at_slash in H; try apply encodeURIComponent_slash_free.
    destruct H as (Hg & Ht).
    split; apply encodeURIComponent_injective; assumption. }
  cbn in Hin, Hin'.
  destruct Hin as [<- | [<- | [<- | [<- | []]]]];
    destruct Hin' as [<- | [<- | [<- | [<- | []]]]];
    first [ split; [reflexivity | exact (Hsame _ Hurl)]
          | exfalso; cbn in Hurl; discriminate Hurl ].
Qed.

Lemma account_url_injective_witness :
  "asia.api.riotgames.com" = "asia.api.riotgames.com" /\ "a/b" = "a/b" /\ "KR1" = "KR1".
Proof.
  apply (account_url_injective "a/b" "KR1" "key-1" "asia.api.riotgames.com"
           "a/b" "KR1" "key-2" "asia.api.riotgames.com").
  - right; left; reflexivity.
  - right; left; reflexivity.
  - reflexivity.
Defined.

(** ** Defaults, hosts and status codes *)

(** X22: an absent or empty [region] is the same as [region=asia], and an
    absent or empty [server] the same as [server=kr], in both flows: the
    calls and the reply are the same. *)
Theorem query_defaults :
  (forall env up now req,
      truthy (Summoner.region req) = None ->
      Summoner.handler env up now req
      = Summoner.handler env up now (with_region req (Some "asia")))
  /\ (forall env up now req,
        truthy (Summoner.server req) = None ->
        Summoner.handler env up now req
        = Summoner.handler env up now (with_server req (Some "kr")))
  /\ (forall env up now req,
        truthy (Rank.server req) = None ->
        Rank.handler env up now req
        = Rank.handler env up now (rank_with_server req (Some "kr"))).
Proof.
  split; [| split].
  - intros env up now [m p r s] H. unfold truthy in H. cbn [Summoner.region] in H.
    destruct r as [r |]; [| reflexivity].
    destruct (String.eqb_spec r "") as [-> | Hne]; [reflexivity | discriminate H].
  - intros env up now [m p r s] H. unfold truthy in H. cbn [Summoner.server] in H.
    destruct s as [k |]; [| reflexivity].
    destruct (String.eqb_spec k "") as [Heq | Hne]; [subst k; reflexivity | discriminate H].
  - intros env up now [m p s] H. unfold truthy in H. cbn [Rank.server] in H.
    destruct s as [k |]; [| reflexivity].
    destruct (String.eqb_spec k "") as [Heq | Hne]; [subst k; reflexivity | discriminate H].
Qed.










(** X24: only the answer to an OPTIONS request has no body; every other
    reply of either handler carries a JSON object with a [success]
    property. *)
Theorem body_absent_iff_options :
  (forall env up now req,
      (body (snd (Summoner.handler env up now req)) = None
       <-> Summoner.method req = "OPTIONS")
      /\ (Summoner.method req <> "OPTIONS" ->
          exists b, success (snd (Summoner.handler env up now req)) = Some (Bool b)))
  /\ (forall env up now req,
        (body (snd (Rank.handler env up now req)) = None
         <-> Rank.method req = "OPTIONS")
        /\ (Rank.method req <> "OPTIONS" ->
            exists b, success (snd (Rank.handler env up now req)) = Some (Bool b))).
Proof.
  assert (Hbody : forall sent b, success sent = Some (Bool b) -> body sent <> None).
  { intros sent b H Hnone. unfold success in H. rewrite Hnone in H. discriminate H. }
  split; intros env up now req.
  - destruct (String.eqb_spec (Summoner.method req) "OPTIONS") as [Hopt | Hno].
    { unfold Summoner.handler. rewrite Hopt. cbn. split; [tauto | contradiction]. }
    assert (Hs : exists b, success (snd (Summoner.handler env up now req)) = Some (Bool b)).
    { destruct (String.eqb_spec (Summoner.method req) "GET") as [Hget | Hother].
      - destruct (identity_envelope env up now req Hget) as [(_ & H & _) | (_ & H)]; eauto.
      - unfold Summoner.handler.
        apply String.eqb_neq in Hno, Hother. rewrite Hno, Hother. cbn. eauto. }
    split; [| intros _; exact Hs].
    destruct Hs as (b & Hs). split; [intros H; destruct (Hbody _ _ Hs H) | contradiction].
  - destruct (String.eqb_spec (Rank.method req) "OPTIONS") as [Hopt | Hno].
    { unfold Rank.handler. rewrite Hopt. cbn. split; [tauto | contradiction]. }
    assert (Hs : exists b, success (snd (Rank.handler env up now req)) = Some (Bool b)).
    { destruct (String.eqb_spec (Rank.method req) "GET") as [Hget | Hother].
      - destruct (rank_envelope env up now req Hget) as [(_ & H & _) | (_ & H)]; eauto.
      - unfold Rank.handler.
        apply String.eqb_neq in Hno, Hother. rewrite Hno, Hother. cbn. eauto. }
    split; [| intros _; exact Hs].
    destruct Hs as (b & Hs). split; [intros H; destruct (Hbody _ _ Hs H) | contradiction].
Qed.

Ltac own_status := left; cbn; auto 10.

(** X25: the handlers choose their status among 200, 400, 403, 404, 405 and
    500 (the rank flow never 403); any other status of a reply is the
    non-2xx status of an upstream answer to a call the handler made: the
    account call in the identity flow, the summoner or the league-entries
    call in the rank flow. *)
Theorem status_codes :
  (forall env up now req,
      let sent := snd (Summoner.handler env up now req) in
      In (code sent) [200; 400; 403; 404; 405; 500]
      \/ exists c r,
           In c (fst (Summoner.handler env up now req))
           /\ account_by_riot_id up c = Resolved r
           /\ ok r = false /\ code sent = status r)
  /\ (forall env up now req,
        let sent := snd (Rank.handler env up now req) in
        In (code sent) [200; 400; 404; 405; 500]
        \/ (exists c r,
              In c (fst (Rank.handler env up now req))
              /\ summoner_by_puuid up c = Resolved r
              /\ ok r = false /\ code sent = status r)
        \/ (exists c r,
              In c (fst (Rank.handler env up now req))
              /\ entries_by_summoner up c = Resolved r
              /\ ok r = false /\ code sent = status r)).
Proof.
  split; intros env up now req; cbv zeta.
  - destruct (String.eqb_spec (Summoner.method req) "GET") as [Hget | Hother].
    2: { unfold Summoner.handler.
         destruct (String.eqb (Summoner.method req) "OPTIONS"); [own_status |].
         apply String.eqb_neq in Hother. rewrite Hother. own_status. }
    destruct (identity_stopped env req Hget)
      as [(g & t & k & ep & Hvalid)
         | [(sent & _ & Hcode & Hsent) | (c & _ & _ & Hthrown & _)]].
    2: { rewrite Hsent. left. cbn [snd]. cbn in Hcode |- *. intuition. }
    2: { rewrite Hthrown. own_status. }
    destruct (account_by_riot_id up (Valid.accountCall g t k ep)) as [e | r] eqn:Hresp.
    { rewrite (identity_rejected env up now req _ _ _ _ Hvalid e Hresp). own_status. }
    destruct (ok r) eqn:Hok.
    2: { rewrite (identity_not_ok env up now req _ _ _ _ Hvalid r Hresp Hok). cbn [fst snd].
         destruct (status r =? 404); [own_status |].
         destruct (status r =? 403); [own_status |].
         destruct (text r); [own_status |].
         right. exists (Valid.accountCall g t k ep), r.
         split; [left; reflexivity |]. repeat split; assumption. }
    destruct (json r) as [e | a] eqn:Hjson.
    { rewrite (identity_bad_body env up now req _ _ _ _ Hvalid r e Hresp Hok Hjson).
      own_status. }
    rewrite (identity_found env up now req _ _ _ _ Hvalid r a Hresp Hok Hjson).
    destruct (truthy_text _) as [sep |]; [| own_status]. cbv zeta.
    destruct (answer up summoner_by_puuid _) as [e | r']; [own_status |].
    destruct (ok r'); [| own_status].
    destruct (json r'); own_status.
  - destruct (String.eqb_spec (Rank.method req) "GET") as [Hget | Hother].
    2: { unfold Rank.handler.
         destruct (String.eqb (Rank.method req) "OPTIONS"); [own_status |].
         apply String.eqb_neq in Hother. rewrite Hother. own_status. }
    destruct (rank_stopped env req Hget)
      as [(p & k & ep & Hvalid)
         | [(sent & _ & Hcode & Hsent) | (c & _ & _ & Hthrown & _)]].
    2: { rewrite Hsent. left. cbn [snd]. cbn in Hcode |- *. intuition. }
    2: { rewrite Hthrown. own_status. }
    destruct (summoner_by_puuid up (Valid.summonerCall p k ep)) as [e | r] eqn:Hresp.
    { rewrite (rank_rejected env up now req _ _ _ Hvalid e Hresp). own_status. }
    destruct (ok r) eqn:Hok.
    2: { rewrite (rank_summoner_not_ok env up now req _ _ _ Hvalid r Hresp Hok).
         cbn [fst snd].
         destruct (status r =? 404); [own_status |].
         right; left. exists (Valid.summonerCall p k ep), r.
         split; [left; reflexivity |]. repeat split; assumption. }
    destruct (json r) as [e | d] eqn:Hjson.
    { rewrite (rank_summoner_bad_body env up now req _ _ _ Hvalid r e Hresp Hok Hjson).
      own_status. }
    rewrite (rank_summoner_found env up now req _ _ _ Hvalid r d Hresp Hok Hjson).
    cbv zeta.
    destruct (entries_by_summoner up _) as [e | r'] eqn:Hresp'; [own_status |].
    destruct (ok r') eqn:Hok'.
    + destruct (json r'); own_status.
    + right; right. exists (Valid.rankCall (id d) k ep), r'.
      split; [right; left; reflexivity |]. repeat split; assumption.
Qed.
